(** * KARP Inspector Lite: the indexer and the searcher

    A shallow embedding of [server/indexer.js] and [server/searcher.js]:
    the fixed-size chunker, cosine similarity and the brute-force vector
    search, the in-memory vector store with its on-disk cache, the
    indexing pipeline, and the line diff.

    JavaScript strings are modelled as [string] (a sequence of code units
    below 256), numbers that count things as [nat] or [Z], embedding
    coordinates and scores as IEEE binary64 [float] (with the binary64
    specification of the standard library for their order), plain objects
    used as dictionaries as [gmap string _], and arrays as [list]. An
    [async] function is one step: it runs to its end before anything
    else happens. *)

From Stdlib Require Import PrimFloat DecimalString Ascii String.
From Stdlib Require Import Sorting.Sorted Sorting.Permutation.
From Stdlib Require Import ZArith SpecFloat FloatOps FloatAxioms.
From stdpp Require Import gmap strings list.

Open Scope string_scope.
Open Scope nat_scope.

(** ** JavaScript string primitives *)

Module Js.

(** Code units that [String.prototype.trim] removes, among those below 256:
    TAB, LF, VT, FF, CR, SPACE and NBSP. *)
Definition is_whitespace (c : ascii) : bool :=
  let n := nat_of_ascii c in
  ((9 <=? n)%nat && (n <=? 13)%nat) || (n =? 32)%nat || (n =? 160)%nat.

Definition LF : ascii := ascii_of_nat 10.
Definition nl : string := String LF "".

(** [s.split('\n')]: never empty, one more piece than there are LFs. *)
Fixpoint split (s : string) : list string :=
  match s with
  | "" => [""]
  | String c s' =>
      if Ascii.eqb c LF then "" :: split s'
      else match split s' with
           | [] => [String c ""]
           | l :: ls => String c l :: ls
           end
  end.

(** [pieces.join(sep)]. *)
Fixpoint join (sep : string) (pieces : list string) : string :=
  match pieces with
  | [] => ""
  | [p] => p
  | p :: ps => p +:+ sep +:+ join sep ps
  end.

Fixpoint trimStart (s : string) : string :=
  match s with
  | "" => ""
  | String c s' => if is_whitespace c then trimStart s' else s
  end.

Fixpoint trimEnd (s : string) : string :=
  match s with
  | "" => ""
  | String c s' =>
      match trimEnd s' with
      | "" => if is_whitespace c then "" else String c ""
      | t => String c t
      end
  end.

(** [s.trim()]. *)
Definition trim (s : string) : string := trimEnd (trimStart s).

(** [s.startsWith(p)]. *)
Fixpoint startsWith (s p : string) : bool :=
  match p, s with
  | "", _ => true
  | String a p', String b s' => Ascii.eqb a b && startsWith s' p'
  | String _ _, "" => false
  end.

(** The truthiness of a string: [""] is falsy. *)
Definition truthy (s : string) : bool :=
  match s with "" => false | _ => true end.

(** Template-literal rendering of a non-negative integer. *)
Definition show (n : nat) : string := NilEmpty.string_of_uint (Nat.to_uint n).

Definition lower (c : ascii) : ascii :=
  let n := nat_of_ascii c in
  if (65 <=? n)%nat && (n <=? 90)%nat then ascii_of_nat (n + 32) else c.

(** [s.toLowerCase()] on the ASCII letters. *)
Fixpoint toLowerCase (s : string) : string :=
  match s with
  | "" => ""
  | String c s' => String (lower c) (toLowerCase s')
  end.

(** [s.endsWith(p)]. *)
Definition endsWith (s p : string) : bool :=
  (String.length p <=? String.length s)%nat
  && String.eqb (substring (String.length s - String.length p) (String.length p) s) p.

Section ArraySort.
Context {A : Type}.

(** [Array.prototype.sort(comparefn)] is stable; ECMAScript fixes its result
    whenever [comparefn] is a consistent comparator, and a stable insertion
    sort computes it: an element moves behind a later one only when
    [comparefn] of the two is positive (a [NaN] counts as [+0]). *)
Variable comparefn : A -> A -> float.

Fixpoint sort_insert (x : A) (sorted : list A) : list A :=
  match sorted with
  | [] => [x]
  | y :: rest =>
      if (0 <? comparefn x y)%float then y :: sort_insert x rest
      else x :: sorted
  end.

Definition sort (l : list A) : list A := fold_right sort_insert [] l.

(** [arr.slice(0, end)] for an integral [end]: a negative [end] counts
    from the back. *)
Definition slice0 (l : list A) (e : Z) : list A :=
  if (e <? 0)%Z then take (Z.to_nat (Z.of_nat (length l) + e)) l
  else take (Z.to_nat e) l.

(** [arr.slice(from, to)] for [0 <= from]. *)
Definition slice (l : list A) (from to : nat) : list A :=
  take (to - from) (drop from l).

End ArraySort.

(** [names.sort()] without a comparator orders strings by code units. *)
Fixpoint sortDefault_insert (x : string) (sorted : list string) : list string :=
  match sorted with
  | [] => [x]
  | y :: rest =>
      if String.ltb y x then y :: sortDefault_insert x rest else x :: sorted
  end.

Definition sortDefault (l : list string) : list string :=
  fold_right sortDefault_insert [] l.

End Js.

(** ** Node's [path] module

    The claims never depend on how paths are resolved, so the four
    functions the indexer calls form an interface. *)

Class NodePath := {
  path_join : string -> string -> string;
  path_relative : string -> string -> string;
  path_basename : string -> string;
  path_extname : string -> string
}.

(** ** Code chunking *)

Module Chunker.
Import Js.

Record Chunk := {
  name : string;
  chunk_type : string;
  filepath : string;
  line_start : nat;
  line_end : nat;
  text : string
}.

(** [DEFAULTS.maxChunkChars]. *)
Definition maxChunkChars : nat := 1500.

(** What the parsers find in a source text. [acorn_walk] stands for
    [acorn.parse] followed by [walk.simple]: the declarations in visiting
    order, or [None] when parsing throws. [python_blocks] stands for the
    regular-expression scan of [chunkPython]: the chunks it pushes, without
    their [filepath]. *)
Record Block := {
  block_name : string;
  block_type : string;
  block_start : nat;
  block_end : nat;
  block_text : string
}.

Record Declaration := {
  decl_name : string;
  decl_type : string;
  decl_start : nat;
  decl_end : nat
}.

Class Parsers := {
  acorn_walk : string -> option (list Declaration);
  python_blocks : string -> string -> list Block
}.

Section Fixed.
Context `{NodePath}.
Variable projectRoot : string.

(** The [for] loop of [chunkFixedSize]: [lines] is what is left of the
    array from index [i] on, [n] is [lines.length] of the whole array. *)
Fixpoint fixedLoop (base relPath : string) (n : nat) (lines : list string)
    (i : nat) (currentText : string) (chunkStart : nat) : list Chunk :=
  match lines with
  | [] => []
  | line :: rest =>
      let currentText' := currentText +:+ line +:+ nl in
      if (maxChunkChars <=? String.length currentText')%nat || (i =? n - 1)%nat then
        {| name := base +:+ ":L" +:+ show chunkStart +:+ "-" +:+ show (i + 1);
           chunk_type := "file_chunk";
           filepath := relPath;
           line_start := chunkStart;
           line_end := i + 1;
           text := trim currentText' |}
        :: fixedLoop base relPath n rest (i + 1) "" (i + 2)
      else fixedLoop base relPath n rest (i + 1) currentText' chunkStart
  end.

Definition chunkFixedSize (file source : string) : list Chunk :=
  let relPath := path_relative projectRoot file in
  let lines := split source in
  if truthy (trim source) then
    fixedLoop (path_basename file) relPath (length lines) lines 0 "" 1
  else [].

Context `{Parsers}.

(** Every chunk of [chunkPython] carries [filepath: relPath]. *)
Definition chunkPython (file source : string) : list Chunk :=
  let relPath := path_relative projectRoot file in
  map (fun b => {| name := block_name b;
                   chunk_type := block_type b;
                   filepath := relPath;
                   line_start := block_start b;
                   line_end := block_end b;
                   text := block_text b |})
      (python_blocks (path_basename file) source).

Definition chunkJavaScript (file source : string) : list Chunk :=
  let relPath := path_relative projectRoot file in
  let lines := split source in
  match acorn_walk source with
  | None => chunkFixedSize file source
  | Some decls =>
      let chunks :=
        map (fun d => {| name := decl_name d;
                         chunk_type := decl_type d;
                         filepath := relPath;
                         line_start := decl_start d;
                         line_end := decl_end d;
                         text := join nl (slice lines (decl_start d - 1) (decl_end d)) |})
            decls in
      if (length chunks =? 0)%nat && truthy (trim source)
      then chunkFixedSize file source
      else chunks
  end.

(** The chunk router. *)
Definition chunkFile (file source : string) : list Chunk :=
  let ext := toLowerCase (path_extname file) in
  if String.eqb ext ".py" then chunkPython file source
  else if bool_decide (ext ∈ [".js"; ".jsx"; ".ts"; ".tsx"]) then chunkJavaScript file source
  else chunkFixedSize file source.

End Fixed.
End Chunker.

(** ** The in-memory vector store and its search *)

Module Vec.
Import Js Chunker.

Record Entry := {
  id : string;
  embedding : list float;
  payload : Chunk
}.

(** [{...v, score}]. *)
Record Scored := {
  entry : Entry;
  score : float
}.

(** The loop of [cosineSimilarity]: [a] is what is left of the first array
    from index [i] on; [b[i]] past the end of [b] is [undefined], which
    arithmetic turns into [NaN]. *)
Fixpoint cosineLoop (a b : list float) (i : nat) (dot normA normB : float)
    : float * float * float :=
  match a with
  | [] => (dot, normA, normB)
  | ai :: rest =>
      let bi := nth i b nan in
      cosineLoop rest b (S i) (dot + ai * bi)%float (normA + ai * ai)%float
                 (normB + bi * bi)%float
  end.

Definition cosineSimilarity (a b : list float) : float :=
  let '(dot, normA, normB) := cosineLoop a b 0 0%float 0%float 0%float in
  (dot / (sqrt normA * sqrt normB))%float.

(** The comparator [(a, b) => b.score - a.score]. *)
Definition byScore (a b : Scored) : float := (score b - score a)%float.

(** [vectors] is [vectorStore.vectors]; [filterFn = None] is the default
    [null]. *)
Definition vectorSearch (vectors : list Entry) (queryEmbedding : list float)
    (limit : Z) (filterFn : option (Chunk -> bool)) : list Scored :=
  let candidates :=
    match filterFn with
    | Some f => filter (fun v => f (payload v) = true) vectors
    | None => vectors
    end in
  let scored :=
    map (fun v => {| entry := v;
                     score := cosineSimilarity queryEmbedding (embedding v) |})
        candidates in
  slice0 (sort byScore scored) limit.

End Vec.

(** ** The indexer: store, cache and pipeline *)

(** The embedding model: [model_loads] is whether [getEmbedder] returns,
    [embed text] the vector of one text, [None] when the model throws. *)
Class Embedder := {
  model_loads : bool;
  embed : string -> option (list float)
}.

(** [crypto.createHash('sha256').update(content).digest('hex')]. *)
Class Sha256 := {
  sha256 : string -> string
}.

Module Indexer.
Import Js Chunker Vec.

Record VectorStore := {
  vectors : list Entry;
  hashMap : gmap string string;
  isIndexed : bool
}.

(** [index-cache.json] as [saveIndex] writes it; [created] only feeds a log
    line and is left out. *)
Record Cache := {
  version : Z;
  cache_projectRoot : string;
  cache_hashMap : gmap string string;
  cache_vectors : list Entry
}.

(** A cache file either parses to a cache object or makes [JSON.parse]
    throw. *)
Inductive CacheFile :=
  | Corrupt
  | Parsed (c : Cache).

(** The module state of [indexer.js] together with the cache files on
    disk, keyed by their path. *)
Record System := {
  projectRoot : string;
  store : VectorStore;
  disk : gmap string CacheFile
}.

(** A discovered file: its path, the bytes [computeHash] reads, and what
    [fs.readFileSync(filepath, 'utf-8')] gives ([None] when it throws). *)
Record File := {
  fpath : string;
  raw : string;
  source : option string
}.

(** How an [async] function ends: with a result object, with an
    [{error}] object, or with a rejected promise. *)
Inductive outcome (A : Type) :=
  | Resolved (a : A)
  | ErrorResult (msg : string)
  | Rejected.
Arguments Resolved {A} a.
Arguments ErrorResult {A} msg.
Arguments Rejected {A}.

Record IndexResult := {
  status : string;
  total_files : nat;
  new_chunks : nat;
  total_chunks : nat;
  result_skipped : nat;
  by_extension : gmap string nat
}.

Record ReindexResult := {
  file : string;
  chunks : nat;
  reindex_total_chunks : nat
}.

Definition CACHE_VERSION : Z := 1.

Definition set_vectors (v : list Entry) (st : VectorStore) : VectorStore :=
  {| vectors := v; hashMap := hashMap st; isIndexed := isIndexed st |}.

Definition set_hashMap (h : gmap string string) (st : VectorStore) : VectorStore :=
  {| vectors := vectors st; hashMap := h; isIndexed := isIndexed st |}.

Definition set_isIndexed (b : bool) (st : VectorStore) : VectorStore :=
  {| vectors := vectors st; hashMap := hashMap st; isIndexed := b |}.

Definition with_store (st : VectorStore) (s : System) : System :=
  {| projectRoot := projectRoot s; store := st; disk := disk s |}.

Section Pipeline.
Context `{NodePath} `{Parsers} `{Embedder} `{Sha256}.

Definition getCachePath (root : string) : string :=
  path_join (path_join root ".karp-inspector") "index-cache.json".

(** A failed write is caught and only logged; the model writes. *)
Definition saveIndex (s : System) : System :=
  if negb (truthy (projectRoot s)) || (length (vectors (store s)) =? 0)%nat then s
  else
    {| projectRoot := projectRoot s;
       store := store s;
       disk := <[getCachePath (projectRoot s) :=
                   Parsed {| version := CACHE_VERSION;
                             cache_projectRoot := projectRoot s;
                             cache_hashMap := hashMap (store s);
                             cache_vectors := vectors (store s) |}]> (disk s) |}.

Definition loadIndex (s : System) : bool * System :=
  if negb (truthy (projectRoot s)) then (false, s)
  else
    match disk s !! getCachePath (projectRoot s) with
    | None => (false, s)
    | Some Corrupt => (false, s)
    | Some (Parsed cache) =>
        if negb (version cache =? CACHE_VERSION)%Z then (false, s)
        else if negb (String.eqb (cache_projectRoot cache) (projectRoot s)) then (false, s)
        else
          (true,
           with_store {| vectors := cache_vectors cache;
                         hashMap := cache_hashMap cache;
                         isIndexed := true |} s)
    end.

(** [extras] only widens the extension filter of file discovery, which is
    an input of the pipeline here. *)
Definition configure (root : string) (s : System) : System :=
  let cleared :=
    {| projectRoot := root;
       store := {| vectors := []; hashMap := ∅; isIndexed := false |};
       disk := disk s |} in
  snd (loadIndex cleared).

Definition computeHash (f : File) : string := sha256 (raw f).

(** [generateEmbeddings]: the batches only pace the log. *)
Definition generateEmbeddings (texts : list string) : option (list (list float)) :=
  if model_loads then mapM embed texts else None.

Definition embedText (c : Chunk) : string := name c +:+ nl +:+ text c.

Definition makeEntry (c : Chunk) (e : list float) : Entry :=
  {| id := filepath c +:+ ":" +:+ show (line_start c);
     embedding := e;
     payload := c |}.

(** The locals of the file loop of [indexProject], with the fingerprint
    map it updates in place. *)
Record Scan := {
  allChunks : list Chunk;
  byExtension : gmap string nat;
  skipped : nat;
  hashes : gmap string string
}.

(** One iteration of [for (const filepath of files)]. *)
Definition scanFile (root : string) (force : bool) (acc : Scan) (f : File) : Scan :=
  let hash := computeHash f in
  let relPath := path_relative root (fpath f) in
  if negb force && bool_decide (hashes acc !! relPath = Some hash) then
    {| allChunks := allChunks acc; byExtension := byExtension acc;
       skipped := skipped acc + 1; hashes := hashes acc |}
  else
    match source f with
    | Some src =>
        let chunks := chunkFile root (fpath f) src in
        let ext := toLowerCase (path_extname (fpath f)) in
        {| allChunks := allChunks acc ++ chunks;
           byExtension :=
             <[ext := default 0 (byExtension acc !! ext) + length chunks]> (byExtension acc);
           skipped := skipped acc;
           hashes := <[relPath := hash]> (hashes acc) |}
    | None =>
        {| allChunks := allChunks acc; byExtension := byExtension acc;
           skipped := skipped acc + 1; hashes := hashes acc |}
    end.

Definition scanFiles (root : string) (force : bool) (h : gmap string string)
    (files : list File) : Scan :=
  fold_left (scanFile root force)
            files
            {| allChunks := []; byExtension := ∅; skipped := 0; hashes := h |}.

(** [files] is what [discoverFiles] returns for the tree as it is now. *)
Definition indexProject (force : bool) (files : list File) (s : System)
    : outcome IndexResult * System :=
  if negb (truthy (projectRoot s)) then (ErrorResult "Project path not configured", s)
  else
    let st0 :=
      if force then {| vectors := []; hashMap := ∅; isIndexed := isIndexed (store s) |}
      else store s in
    let scan := scanFiles (projectRoot s) force (hashMap st0) files in
    let st1 := set_hashMap (hashes scan) st0 in
    let embedded :=
      if (0 <? length (allChunks scan))%nat then
        match generateEmbeddings (map embedText (allChunks scan)) with
        | None => None
        | Some embeddings =>
            let reindexedFiles := map filepath (allChunks scan) in
            let kept :=
              filter (fun v => filepath (payload v) ∉ reindexedFiles) (vectors st1) in
            Some (set_vectors (kept ++ zip_with makeEntry (allChunks scan) embeddings) st1)
        end
      else Some st1 in
    match embedded with
    | None => (Rejected, with_store st1 s)
    | Some st2 =>
        let s' := saveIndex (with_store (set_isIndexed true st2) s) in
        (Resolved
           {| status :=
                if (length (allChunks scan) =? 0)%nat
                   && (0 <? length (vectors (store s')))%nat
                then "up_to_date" else "indexed";
              total_files := length files;
              new_chunks := length (allChunks scan);
              total_chunks := length (vectors (store s'));
              result_skipped := skipped scan;
              by_extension := byExtension scan |},
         s')
    end.

(** [onDisk] is the file at [path.join(projectRoot, filepath)], [None]
    when it does not exist. [saveSnapshot] only adds a file under the
    snapshot directory, which nothing here reads. *)
Definition reindexFile (filepath_ : string) (onDisk : option File) (s : System)
    : outcome ReindexResult * System :=
  if negb (truthy (projectRoot s)) then (ErrorResult "Project path not configured", s)
  else
    let fullPath := path_join (projectRoot s) filepath_ in
    match onDisk with
    | None => (ErrorResult ("File not found: " +:+ filepath_), s)
    | Some f =>
        let st1 :=
          set_vectors
            (filter (fun v => filepath (payload v) ≠ filepath_) (vectors (store s)))
            (store s) in
        match source f with
        | None => (Rejected, with_store st1 s)
        | Some src =>
            let chunks := chunkFile (projectRoot s) fullPath src in
            match generateEmbeddings (map embedText chunks) with
            | None => (Rejected, with_store st1 s)
            | Some embeddings =>
                let st2 := set_vectors (vectors st1 ++ zip_with makeEntry chunks embeddings) st1 in
                let st3 := set_hashMap (<[filepath_ := computeHash f]> (hashMap st2)) st2 in
                let s' := saveIndex (with_store st3 s) in
                (Resolved {| file := filepath_;
                             chunks := length chunks;
                             reindex_total_chunks := length (vectors (store s')) |},
                 s')
            end
        end
    end.

End Pipeline.
End Indexer.

(** ** The searcher: line diff *)

Module Searcher.
Import Js Indexer.

(** A line read at an index: [undefined] past the end of the array. *)
Definition lineAt (lines : list string) (i : nat) : option string := lines !! i.

Definition sameLine (a b : option string) : bool :=
  match a, b with
  | Some x, Some y => String.eqb x y
  | None, None => true
  | _, _ => false
  end.

(** How a template literal renders a line. *)
Definition render (l : option string) : string :=
  match l with Some x => x | None => "undefined" end.

(** The body of the loop of [simpleDiff] at index [i]: what it pushes. *)
Definition diffStep (oldLines newLines : list string) (i : nat) : list string :=
  let oldLine := if (i <? length oldLines)%nat then lineAt oldLines i else None in
  let newLine := if (i <? length newLines)%nat then lineAt newLines i else None in
  if sameLine oldLine newLine then []
  else if bool_decide (oldLine ≠ None) && bool_decide (newLine ≠ None)
          && negb (sameLine oldLine newLine)
  then ["-" +:+ render oldLine; "+" +:+ render newLine]
  else if bool_decide (oldLine = None) then ["+" +:+ render newLine]
  else ["-" +:+ render oldLine].

Definition simpleDiff (oldLines newLines : list string) (oldLabel newLabel : string)
    : list string :=
  let maxLen := Nat.max (length oldLines) (length newLines) in
  ["--- " +:+ oldLabel; "+++ " +:+ newLabel]
  ++ flat_map (diffStep oldLines newLines) (seq 0 maxLen).

Record DiffResult := {
  diff_file : string;
  additions : nat;
  deletions : nat;
  diff_text : string
}.

(** Counting as [arr.filter(pred).length]. *)
Definition count (p : string -> bool) (l : list string) : nat :=
  length (List.filter p l).

(** [arr[i]] for an integral index: [undefined] outside the array. *)
Definition at_index {A} (l : list A) (i : Z) : option A :=
  if (i <? 0)%Z then None else l !! Z.to_nat i.

(** [snapshotDir] lists the snapshot directory of the file as name and
    content ([None] when the directory does not exist); [live] is the
    file itself, [None] when it does not exist. Reading
    [snapshots[i]] at a negative index makes [path.join] throw. *)
Definition fileDiff (root filepath_ : string)
    (snapshotDir : option (list (string * string))) (live : option string)
    (oldIndex newIndex : Z) : outcome DiffResult :=
  if negb (truthy root) then ErrorResult "Project root not configured"
  else
    match snapshotDir with
    | None => ErrorResult ("No snapshots for " +:+ filepath_)
    | Some listing =>
        let snapshots :=
          rev (sortDefault
                 (List.filter (fun f => endsWith f ".snapshot") (map fst listing))) in
        let content (f : string) : option string :=
          snd <$> List.find (fun e => String.eqb (fst e) f) listing in
        if (length snapshots =? 0)%nat then ErrorResult ("No snapshots for " +:+ filepath_)
        else if (Z.of_nat (length snapshots) <=? oldIndex)%Z
        then ErrorResult ("Snapshot " +:+ show (Z.to_nat oldIndex) +:+ " out of range")
        else
          match at_index snapshots oldIndex ≫= (fun f => pair f <$> content f) with
          | None => Rejected
          | Some (oldName, oldText) =>
              let oldContent := split oldText in
              let compare (newContent : list string) (newLabel : string) :=
                let diffLines := simpleDiff oldContent newContent oldName newLabel in
                Resolved
                  {| diff_file := filepath_;
                     additions :=
                       count (fun l => startsWith l "+" && negb (startsWith l "+++")) diffLines;
                     deletions :=
                       count (fun l => startsWith l "-" && negb (startsWith l "---")) diffLines;
                     diff_text :=
                       let joined := join nl diffLines in
                       if truthy joined then joined else "(no changes)" |} in
              if (newIndex =? -1)%Z then
                match live with
                | None => ErrorResult ("Live file not found: " +:+ filepath_)
                | Some liveText => compare (split liveText) (filepath_ +:+ " (live)")
                end
              else if (Z.of_nat (length snapshots) <=? newIndex)%Z
              then ErrorResult ("Snapshot " +:+ show (Z.to_nat newIndex) +:+ " out of range")
              else
                match at_index snapshots newIndex ≫= (fun f => pair f <$> content f) with
                | None => Rejected
                | Some (newName, newText) => compare (split newText) newName
                end
          end
    end.

End Searcher.

(** ** Test data and the collaborators used in examples *)

Module Fixtures.
Import Js Chunker Vec Indexer.

(** A POSIX reading of the four [path] functions, without normalisation. *)
Fixpoint stripPrefix (p s : string) : option string :=
  match p, s with
  | "", _ => Some s
  | String a p', String b s' => if Ascii.eqb a b then stripPrefix p' s' else None
  | String _ _, "" => None
  end.

Fixpoint afterLast (sep : ascii) (s : string) : option string :=
  match s with
  | "" => None
  | String c s' =>
      match afterLast sep s' with
      | Some t => Some t
      | None => if Ascii.eqb c sep then Some s' else None
      end
  end.

Definition posix_basename (p : string) : string :=
  default p (afterLast "/"%char p).

Definition posix : NodePath :=
  {| path_join := fun a b => a +:+ "/" +:+ b;
     path_relative := fun root p => default p (stripPrefix (root +:+ "/") p);
     path_basename := posix_basename;
     path_extname := fun p =>
       match afterLast "."%char (posix_basename p) with
       | Some e => "." +:+ e
       | None => ""
       end |}.

(** Parsers that find nothing: JavaScript then falls back to fixed-size
    chunks and Python files give no chunk. *)
Definition noParsers : Parsers :=
  {| acorn_walk := fun _ => Some []; python_blocks := fun _ _ => [] |}.

(** An embedder that maps every text to the same unit vector, and one
    whose model cannot be loaded. *)
Definition unitEmbedder : Embedder :=
  {| model_loads := true; embed := fun _ => Some [1%float; 0%float] |}.

Definition brokenEmbedder : Embedder :=
  {| model_loads := false; embed := fun _ => None |}.

(** A stand-in digest: the content itself. *)
Definition plainHash : Sha256 := {| sha256 := fun content => content |}.

(** The 200-line file of the test suite:
    [Array.from({length: 200}, (_, i) => `Line ${i}: Some content`).join('\n')]. *)
Definition bigText : string :=
  join nl (map (fun i => "Line " +:+ show i +:+ ": Some content") (seq 0 200)).

(** 200 lines of one letter each. *)
Definition shortLines : string := join nl (repeat "a" 200).

(** A file of a single line of 3000 letters. *)
Definition longLine : string := string_of_list_ascii (repeat "x"%char 3000).

End Fixtures.

(** ** Vocabulary of the chunker properties *)

Module ChunkSpec.
Import Js Chunker.

(** The text of consecutive lines, each followed by its newline: what
    [currentText] holds after these lines were appended. *)
Definition glue (ls : list string) : string :=
  foldr (fun l acc => l +:+ nl +:+ acc) "" ls.

(** The lines a chunk is labelled with. *)
Definition covered (lines : list string) (c : Chunk) : list string :=
  slice lines (line_start c - 1) (line_end c).

(** The same lines without the last one. *)
Definition covered_but_last (lines : list string) (c : Chunk) : list string :=
  slice lines (line_start c - 1) (line_end c - 1).

(** Chunks that follow one another from line [s] up to line [e]. *)
Fixpoint tiles (s e : nat) (cs : list Chunk) : Prop :=
  match cs with
  | [] => s = e + 1
  | c :: rest => line_start c = s ∧ s ≤ line_end c ∧ tiles (line_end c + 1) e rest
  end.

(** What [chunkFixedSize] promises of one chunk of a file of [lines]. *)
Record well_cut (base relPath : string) (lines : list string) (c : Chunk) : Prop := {
  cut_range : 1 ≤ line_start c ∧ line_start c ≤ line_end c ∧ line_end c ≤ length lines;
  cut_text : text c = trim (glue (covered lines c));
  cut_name : name c = base +:+ ":L" +:+ show (line_start c) +:+ "-" +:+ show (line_end c);
  cut_path : filepath c = relPath;
  cut_type : chunk_type c = "file_chunk";
  cut_below : String.length (glue (covered_but_last lines c)) < maxChunkChars;
  cut_reached :
    line_end c = length lines ∨ maxChunkChars ≤ String.length (glue (covered lines c))
}.

(** A line that [trim] leaves as it is, and that is not empty. *)
Definition clean_line (l : string) : bool := truthy l && String.eqb (trim l) l.

End ChunkSpec.


(** ** Vocabulary of the binary64 properties *)

Module FloatSpec.

(** A float that is neither zero nor [NaN], of sign [s]. *)
Definition signed (s : bool) (x : spec_float) : Prop :=
  (exists m e, x = S754_finite s m e) \/ x = S754_infinity s.


End FloatSpec.

(** ** Vocabulary of the search properties *)

Module RankSpec.
Import Js Chunker Vec.

(** The dot product and the Euclidean norm, as the specification words
    them, in binary64 arithmetic from left to right. *)
Definition dot (a b : list float) : float :=
  fold_left (fun acc p => (acc + fst p * snd p)%float) (combine a b) 0%float.







End RankSpec.

(** ** Vocabulary of the diff properties *)

Module DiffSpec.

(** The position-aligned comparison in the words of the specification:
    what is emitted for the old and the new line at one index. *)
Definition aligned (oldLine newLine : option string) : list string :=
  match oldLine, newLine with
  | Some o, Some n => if String.eqb o n then [] else ["-" +:+ o; "+" +:+ n]
  | Some o, None => ["-" +:+ o]
  | None, Some n => ["+" +:+ n]
  | None, None => []
  end.

End DiffSpec.

(** ** Runs of the indexer *)

Module Trace.
Import Js Chunker Vec Indexer.

(** What can happen to the system: the three entry points of the indexer,
    and the world putting a cache file at a path or taking it away (a
    project directory copied, moved or cleaned). *)
Inductive event :=
  | Configure (root : string)
  | IndexProject (force : bool) (files : list File)
  | ReindexFile (filepath_ : string) (onDisk : option File)
  | PlaceCache (path : string) (f : CacheFile)
  | RemoveCache (path : string).

Definition initial : System :=
  {| projectRoot := "";
     store := {| vectors := []; hashMap := ∅; isIndexed := false |};
     disk := ∅ |}.

Section Run.
Context `{NodePath} `{Parsers} `{Embedder} `{Sha256}.

Definition apply (e : event) (s : System) : System :=
  match e with
  | Configure root => configure root s
  | IndexProject force files => snd (indexProject force files s)
  | ReindexFile filepath_ onDisk => snd (reindexFile filepath_ onDisk s)
  | PlaceCache path f =>
      {| projectRoot := projectRoot s; store := store s; disk := <[path := f]> (disk s) |}
  | RemoveCache path =>
      {| projectRoot := projectRoot s; store := store s; disk := delete path (disk s) |}
  end.

(** The entries an event brings into existence, each with the project root
    it belongs to: the root configured while it is built from a file, or
    the root a cache file put on disk is labelled with. *)
Definition minted (e : event) (s : System) : list (string * Entry) :=
  match e with
  | IndexProject force files =>
      if truthy (projectRoot s) then
        let h := if force then ∅ else hashMap (store s) in
        let scan := scanFiles (projectRoot s) force h files in
        match generateEmbeddings (map embedText (allChunks scan)) with
        | Some embeddings =>
            map (pair (projectRoot s)) (zip_with makeEntry (allChunks scan) embeddings)
        | None => []
        end
      else []
  | ReindexFile filepath_ (Some f) =>
      match source f with
      | Some src =>
          let cs := chunkFile (projectRoot s) (path_join (projectRoot s) filepath_) src in
          match generateEmbeddings (map embedText cs) with
          | Some embeddings =>
              if truthy (projectRoot s)
              then map (pair (projectRoot s)) (zip_with makeEntry cs embeddings)
              else []
          | None => []
          end
      | None => []
      end
  | PlaceCache _ (Parsed c) => map (pair (cache_projectRoot c)) (cache_vectors c)
  | _ => []
  end.

(** The system after a run of events, oldest first, with the record of
    which entry belongs to which root. *)
Fixpoint run (events : list event) (s : System) (minting : list (string * Entry))
    : System * list (string * Entry) :=
  match events with
  | [] => (s, minting)
  | e :: rest => run rest (apply e s) (minting ++ minted e s)
  end.

End Run.




End Trace.

(** ** A small store for the search examples *)

Module SearchFixtures.
Import Chunker Vec.

Definition chunkOf (path : string) (l : nat) : Chunk :=
  {| name := "f"; chunk_type := "function"; filepath := path;
     line_start := l; line_end := l; text := "body" |}.

Definition entryOf (path : string) (l : nat) (e : list float) : Entry :=
  {| id := path +:+ ":" +:+ Js.show l; embedding := e; payload := chunkOf path l |}.

(** Against the query [[1; 0]] the scores are 0, 1, about 0.7071, and 1. *)
Definition fourEntries : list Entry :=
  [ entryOf "a.js" 1 [0; 1]%float;
    entryOf "b.js" 1 [1; 0]%float;
    entryOf "c.js" 1 [1; 1]%float;
    entryOf "d.js" 1 [2; 0]%float ].

End SearchFixtures.

(** ** A small project for the pipeline examples *)

Module ProjectFixtures.
Import Js Chunker Vec Indexer Trace Fixtures.

Definition textFile (path content : string) : File :=
  {| fpath := path; raw := content; source := Some content |}.

(** The project [/p] with two text files. *)
Definition helloWorld : list File :=
  [ textFile "/p/a.txt" "hello"; textFile "/p/b.txt" "world" ].

(** The same project after [a.txt] was emptied down to blanks. *)
Definition blank : string := "  " +:+ nl.

Definition blankWorld : list File :=
  [ textFile "/p/a.txt" blank; textFile "/p/b.txt" "world" ].

(** The module state once [/p] is configured on a disk without cache. *)
Definition configured : System := @configure posix "/p" initial.

(** ... and once the two files are indexed, with the working embedder. *)
Definition indexedOnce : System :=
  snd (@indexProject posix noParsers unitEmbedder plainHash false helloWorld configured).

(** The files of an entry list, with the text of each chunk. *)
Definition contents (vs : list Entry) : list (string * string) :=
  map (fun v => (filepath (payload v), text (payload v))) vs.

End ProjectFixtures.
(** ** More of the JavaScript library *)

Module JsLib.
Import Js.

(** What is left of [s] after the literal [p], when [s] starts with it. *)
Fixpoint after (p s : string) : option string :=
  match p, s with
  | "", _ => Some s
  | String a p', String b s' => if Ascii.eqb a b then after p' s' else None
  | String _ _, "" => None
  end.

(** [s.includes(p)]. *)
Fixpoint includes (s p : string) : bool :=
  startsWith s p
  || match s with
     | "" => false
     | String _ s' => includes s' p
     end.

(** The longest prefix of [s] whose characters satisfy [p], and the rest:
    how a greedy [p*] of a regular expression reads [s]. *)
Fixpoint span (p : ascii -> bool) (s : string) : string * string :=
  match s with
  | "" => ("", "")
  | String c s' =>
      if p c then let '(a, b) := span p s' in (String c a, b) else ("", s)
  end.

(** The same for at most [n] characters: a greedy [p{0,n}]. *)
Fixpoint spanUpTo (n : nat) (p : ascii -> bool) (s : string) : string * string :=
  match n, s with
  | S n', String c s' =>
      if p c then let '(a, b) := spanUpTo n' p s' in (String c a, b) else ("", s)
  | _, _ => ("", s)
  end.

(** [s.split(sep)] for a separator of one character. *)
Fixpoint splitOn (sep : ascii) (s : string) : list string :=
  match s with
  | "" => [""]
  | String c s' =>
      if Ascii.eqb c sep then "" :: splitOn sep s'
      else match splitOn sep s' with
           | [] => [String c ""]
           | l :: ls => String c l :: ls
           end
  end.

(** [arr.slice(from, to)] for integral arguments: a negative one counts
    from the back, and both are clamped to the array. *)
Definition sliceZ {A} (l : list A) (from to : Z) : list A :=
  let len := Z.of_nat (length l) in
  let k := if (from <? 0)%Z then Z.max (len + from) 0 else Z.min from len in
  let final := if (to <? 0)%Z then Z.max (len + to) 0 else Z.min to len in
  take (Z.to_nat (final - k)) (drop (Z.to_nat k) l).

(** [Math.round(x)]: the integer nearest to [x], the greater one on a
    tie; zeros, infinities and [NaN] are returned as they are, and a
    negative [x] that rounds to zero gives [-0]. *)
Definition round (x : float) : float :=
  match Prim2SF x with
  | S754_finite s m e =>
      if (0 <=? e)%Z then x
      else
        let signed := if s then Z.neg m else Z.pos m in
        let n := ((2 * signed + 2 ^ (- e)) / 2 ^ (- e + 1))%Z in
        SF2Prim (binary_normalize prec emax n 0 s)
  | _ => x
  end.

(** The truthiness of an optional string argument: [undefined], [null]
    and [""] are falsy. *)
Definition given (o : option string) : bool :=
  match o with
  | Some s => truthy s
  | None => false
  end.

End JsLib.

(** ** File discovery *)

Module Discover.
Import Js JsLib.

(** A directory entry as [fs.readdirSync(dir, {withFileTypes: true})] and
    [fs.statSync] show it: a directory with its own listing ([None] when
    reading it throws), a regular file with its size ([None] when
    [statSync] throws), or anything else (a link, a socket, ...). *)
#[warnings="-register-all"]
Inductive Dirent :=
  | Directory (name : string) (entries : option (list Dirent))
  | RegularFile (name : string) (size : option nat)
  | Other (name : string).

(** [DEFAULTS]. *)
Definition includeExtensions : gset string :=
  list_to_set [".py"; ".js"; ".ts"; ".html"; ".css"; ".md"; ".txt"].

Definition skipDirs : gset string :=
  list_to_set
    [ "__pycache__"; ".git"; "node_modules"; "venv"; ".venv";
      "env"; "dist"; "build"; ".next"; ".nuxt"; "coverage";
      ".tox"; ".mypy_cache"; ".pytest_cache"; "egg-info";
      ".eggs"; ".cache"; ".tmp"; "vendor"; ".karp-inspector";
      "backups"; "exports"; "snapshots"; "sessions";
      "Old Web files"; "Logos"; "assets"; "subscription";
      "Karp_Inspector"; "Karp_Inspector_Lite"; "migrations";
      "__snapshots__"; "docs"; "old"; "archive" ].

Definition maxFileSize : nat := 1048576.

Section Walk.
Context `{NodePath}.
Variables (includeExt skipped : gset string) (maxSize : nat).

(** One iteration of the loop of [walk(dir)]: the paths it pushes for
    [entry], those of the recursive call included. *)
Fixpoint walkEntry (dir : string) (entry : Dirent) : list string :=
  match entry with
  | Directory name entries =>
      let fullPath := path_join dir name in
      if negb (bool_decide (name ∈ skipped)) && negb (startsWith name ".") then
        match entries with
        | Some es => flat_map (walkEntry fullPath) es
        | None => []
        end
      else []
  | RegularFile name size =>
      let fullPath := path_join dir name in
      let ext := toLowerCase (path_extname name) in
      if negb (bool_decide (ext ∈ includeExt)) then []
      else
        match size with
        | Some n => if (maxSize <? n)%nat then [] else [fullPath]
        | None => []
        end
  | Other _ => []
  end.

(** [listing] is what [readdirSync(rootDir)] gives, [None] when it
    throws. *)
Definition discoverFiles (rootDir : string) (listing : option (list Dirent)) : list string :=
  match listing with
  | Some es => flat_map (walkEntry rootDir) es
  | None => []
  end.

End Walk.

(** The extensions [configure(root, extras)] adds to
    [DEFAULTS.includeExtensions]. *)
Definition extraExtensions (extras : string) : list string :=
  map (fun e => let e := trim e in if startsWith e "." then e else "." +:+ e)
      (splitOn ","%char extras).

Definition withExtras (includeExt : gset string) (extras : string) : gset string :=
  if truthy extras then includeExt ∪ list_to_set (extraExtensions extras) else includeExt.

End Discover.

(** ** The regular-expression chunker for Python *)

Module Python.
Import Js JsLib Chunker.

(** The word characters of a regular expression, and the space. *)
Definition is_word (c : ascii) : bool :=
  let n := nat_of_ascii c in
  ((48 <=? n) && (n <=? 57)) || ((65 <=? n) && (n <=? 90)) || (n =? 95)
  || ((97 <=? n) && (n <=? 122)).

Definition is_space (c : ascii) : bool := Ascii.eqb c " ".

(** [line.match(funcStartRegex)]: from the start of the line, up to 8
    spaces (group 1), optionally [async] and whitespace, then [def],
    whitespace, a word (group 3), optional whitespace and an opening
    parenthesis. It gives the length of group 1 and group 3. Each
    repetition is followed by a character it cannot read, so the greedy
    reading is the only one. *)
Definition funcStartRegex (line : string) : option (nat * string) :=
  let '(indent, r) := spanUpTo 8 is_space line in
  let r :=
    match after "async" r with
    | Some t => let '(ws, u) := span is_whitespace t in if truthy ws then u else r
    | None => r
    end in
  match after "def" r with
  | None => None
  | Some t =>
      let '(ws, u) := span is_whitespace t in
      let '(name, v) := span is_word u in
      let '(_, w) := span is_whitespace v in
      if truthy ws && truthy name && startsWith w "(" then Some (String.length indent, name)
      else None
  end.

(** [line.match(classRegex)]: from the start of the line, up to 4 spaces
    (group 1), then [class], whitespace, a word (group 2), optionally a
    parenthesised list of bases without a closing parenthesis inside,
    then optional whitespace and a colon. It gives the length of group 1
    and group 2. *)
Definition classRegex (line : string) : option (nat * string) :=
  let '(indent, r) := spanUpTo 4 is_space line in
  match after "class" r with
  | None => None
  | Some t =>
      let '(ws, u) := span is_whitespace t in
      let '(name, v) := span is_word u in
      let bases :=
        let '(_, w) := span is_whitespace v in
        match after "(" w with
        | Some x => let '(_, y) := span (fun c => negb (Ascii.eqb c ")")) x in after ")" y
        | None => None
        end in
      let '(_, q) := span is_whitespace (default v bases) in
      if truthy ws && truthy name && startsWith q ":" then Some (String.length indent, name)
      else None
  end.

(** The regular expression of the end of a signature: a closing
    parenthesis, optional whitespace, optionally an arrow [->] with a
    return type that holds no colon, then a colon and only whitespace up
    to the end of the line. This is what it reads after the
    parenthesis. *)
Definition signatureTail (s : string) : bool :=
  let '(_, r) := span is_whitespace s in
  let r :=
    match after "->" r with
    | Some t => snd (span (fun c => negb (Ascii.eqb c ":")) t)
    | None => r
    end in
  match after ":" r with
  | Some t => negb (truthy (snd (span is_whitespace t)))
  | None => false
  end.

(** ... and the match, at some closing parenthesis of the line. *)
Fixpoint signatureEnd (line : string) : bool :=
  match line with
  | "" => false
  | String c rest => (Ascii.eqb c ")" && signatureTail rest) || signatureEnd rest
  end.

(** [line.includes('):')] or a match of the end of a signature. *)
Definition closesSignature (line : string) : bool :=
  includes line "):" || signatureEnd line.

(** The length of the leading whitespace of [line]. *)
Definition lineIndent (line : string) : nat :=
  String.length (fst (span is_whitespace line)).

(** [currentChunk] while its lines are collected. *)
Record Open := {
  open_name : string;
  open_type : string;
  open_start : nat;
  open_lines : list string
}.

Definition push (line : string) (o : Open) : Open :=
  {| open_name := open_name o; open_type := open_type o;
     open_start := open_start o; open_lines := open_lines o ++ [line] |}.

(** [currentChunk] once [line_end] and [text] are set and [lines] is
    deleted. *)
Definition close (relPath : string) (o : Open) (lineEnd : nat) : Chunk :=
  {| name := open_name o;
     chunk_type := open_type o;
     filepath := relPath;
     line_start := open_start o;
     line_end := lineEnd;
     text := join nl (open_lines o) |}.

(** [if (currentChunk && currentChunk.lines.length > 0) {...; chunks.push(currentChunk)}]. *)
Definition flush (relPath : string) (cur : option Open) (lineEnd : nat)
    (chunks : list Chunk) : list Chunk :=
  match cur with
  | Some o =>
      if (0 <? length (open_lines o))%nat then chunks ++ [close relPath o lineEnd]
      else chunks
  | None => chunks
  end.

(** The loop over the lines of a multi-line signature:
    [for (let j = i + 1; j < Math.min(i + 20, lines.length); j++)], with
    [n] iterations left. It gives the chunk and the new value of [i]. *)
Fixpoint signature (lines : list string) (o : Open) (i j n : nat) : Open * nat :=
  match n with
  | 0 => (o, i)
  | S n' =>
      match lines !! j with
      | None => (o, i)
      | Some l =>
          if closesSignature l then (push l o, j)
          else signature lines (push l o) i (j + 1) n'
      end
  end.

(** The main loop from index [i] on; every iteration moves [i] forward,
    so [fuel] iterations are enough when [fuel] is the number of lines. *)
Fixpoint scan (fuel : nat) (relPath : string) (lines : list string) (i : nat)
    (currentChunk : option Open) (currentIndent : nat) (chunks : list Chunk)
    : option Open * list Chunk :=
  match fuel with
  | 0 => (currentChunk, chunks)
  | S fuel' =>
      match lines !! i with
      | None => (currentChunk, chunks)
      | Some line =>
          let classMatch := classRegex line in
          let funcStartMatch := funcStartRegex line in
          match (match classMatch with Some m => Some m | None => funcStartMatch end) with
          | Some (indent, name) =>
              let chunks := flush relPath currentChunk i chunks in
              let o :=
                {| open_name := name;
                   open_type := match classMatch with Some _ => "class" | None => "function" end;
                   open_start := i + 1;
                   open_lines := [line] |} in
              let '(o, i) :=
                if bool_decide (funcStartMatch ≠ None) && negb (closesSignature line)
                then signature lines o i (i + 1) (Nat.min (i + 20) (length lines) - (i + 1))
                else (o, i) in
              scan fuel' relPath lines (i + 1) (Some o) indent chunks
          | None =>
              match currentChunk with
              | Some o =>
                  if String.eqb (trim line) "" || (currentIndent <? lineIndent line)%nat
                  then scan fuel' relPath lines (i + 1) (Some (push line o)) currentIndent chunks
                  else scan fuel' relPath lines (i + 1) None currentIndent
                            (chunks ++ [close relPath o i])
              | None => scan fuel' relPath lines (i + 1) None currentIndent chunks
              end
          end
      end
  end.

(** The body of [chunkPython]: of the path of the file it uses the
    base name, [path.basename(filepath)], and the relative path
    [relPath]. *)
Definition chunksOf (base relPath source : string) : list Chunk :=
  let lines := split source in
  let '(currentChunk, chunks) := scan (length lines) relPath lines 0 None 0 [] in
  let chunks := flush relPath currentChunk (length lines) chunks in
  let chunks :=
    match chunks with
    | first :: _ =>
        if (1 <? line_start first)%nat then
          let headerText := trim (join nl (slice lines 0 (line_start first - 1))) in
          if truthy headerText then
            {| name := base +:+ ":header";
               chunk_type := "file_header";
               filepath := relPath;
               line_start := 1;
               line_end := line_start first - 1;
               text := headerText |} :: chunks
          else chunks
        else chunks
    | [] => chunks
    end in
  if (length chunks =? 0)%nat && truthy (trim source) then
    [ {| name := base +:+ ":full";
         chunk_type := "file_chunk";
         filepath := relPath;
         line_start := 1;
         line_end := length lines;
         text := trim source |} ]
  else chunks.

Section Chunk.
Context `{NodePath}.
Variable projectRoot : string.

Definition chunkPython (file source : string) : list Chunk :=
  chunksOf (path_basename file) (path_relative projectRoot file) source.

End Chunk.

(** The parsers of the chunk router with this chunker for Python:
    [python_blocks] gives its chunks without their [filepath]. [acorn]
    stands for [acorn.parse] followed by [walk.simple]. *)
Definition toBlock (c : Chunk) : Block :=
  {| block_name := name c;
     block_type := chunk_type c;
     block_start := line_start c;
     block_end := line_end c;
     block_text := text c |}.

Definition regexParsers (acorn : string -> option (list Declaration)) : Parsers :=
  {| acorn_walk := acorn;
     python_blocks := fun base source => map toBlock (chunksOf base "" source) |}.

End Python.

(** ** The searcher: semantic search, grep, history and statistics *)

(** [new RegExp(pattern, flags)]: the test [regex.test] of the compiled
    expression, or the message of the error the constructor throws.
    Without the flags [g] and [y] the test keeps no state. *)
Class RegExpEngine := {
  regExp : string -> string -> (string -> bool) + string
}.

Module Queries.
Import Js JsLib Chunker Vec Indexer.

(** *** [searchCode] *)

Record Hit := {
  hit_file : string;
  hit_name : string;
  hit_chunk_type : string;
  hit_line_start : nat;
  hit_line_end : nat;
  hit_text : string;
  hit_score : float
}.

Record SearchResult := {
  query : string;
  results : list Hit;
  total : nat
}.

Section Search.
Context `{Embedder}.

(** [generateEmbedding]: one text through the lazily loaded model. *)
Definition generateEmbedding (text : string) : option (list float) :=
  if model_loads then embed text else None.

(** The closure [filterFn] of [searchCode]. *)
Definition filterFn (fileFilter extFilter : option string) (payload : Chunk) : bool :=
  if given fileFilter && negb (includes (filepath payload) (default "" fileFilter)) then false
  else if given extFilter && negb (endsWith (filepath payload) (default "" extFilter)) then false
  else true.

Definition toHit (r : Scored) : Hit :=
  {| hit_file := filepath (payload (entry r));
     hit_name := name (payload (entry r));
     hit_chunk_type := chunk_type (payload (entry r));
     hit_line_start := line_start (payload (entry r));
     hit_line_end := line_end (payload (entry r));
     hit_text := substring 0 500 (text (payload (entry r)));
     hit_score := (round (score r * 10000) / 10000)%float |}.

(** [st] is [indexer.vectorStore]; an argument that is [None] is
    [undefined], which selects the default of the parameter. *)
Definition searchCode (st : VectorStore) (query_ : string) (limit : option Z)
    (fileFilter extFilter : option string) : outcome SearchResult :=
  if negb (isIndexed st) then ErrorResult "Project not indexed yet. Run index_project first."
  else
    match generateEmbedding query_ with
    | None => Rejected
    | Some queryEmbedding =>
        let results :=
          vectorSearch (vectors st) queryEmbedding (default 8%Z limit)
                       (Some (filterFn fileFilter extFilter)) in
        Resolved {| query := query_;
                    results := map toHit results;
                    total := length results |}
    end.

End Search.

(** *** [grepCode] *)

(** The characters [escapeRegex] puts a backslash before. *)
Definition is_special (c : ascii) : bool :=
  bool_decide (c ∈ [ "."; "*"; "+"; "?"; "^"; "$"; "{"; "}"; "("; ")"; "|"; "["; "]"; "\" ]%char).

Fixpoint escapeRegex (s : string) : string :=
  match s with
  | "" => ""
  | String c s' =>
      if is_special c then String "\"%char (String c (escapeRegex s'))
      else String c (escapeRegex s')
  end.

Record Match := {
  match_file : string;
  line_number : nat;
  match_text : string;
  context : string
}.

Record GrepResult := {
  pattern : string;
  matches : list Match;
  grep_total : nat;
  truncated : bool
}.

Section Grep.
Context `{NodePath} `{RegExpEngine}.

(** The loop over the lines of one file from index [i] on, [rest] being
    what is left of [lines]; the flag tells that the limit was reached,
    where [grepCode] returns at once. *)
Fixpoint grepLines (test : string -> bool) (relPath : string) (lines : list string)
    (limit contextLines : Z) (rest : list string) (i : nat) (found : list Match)
    : list Match * bool :=
  match rest with
  | [] => (found, false)
  | line :: rest' =>
      if test line then
        let start := Z.max 0 (Z.of_nat i - contextLines) in
        let end_ := Z.min (Z.of_nat (length lines)) (Z.of_nat i + contextLines + 1) in
        let found' :=
          (found ++ [ {| match_file := relPath;
                         line_number := i + 1;
                         match_text := trim line;
                         context := join nl (sliceZ lines start end_) |} ])%list in
        if (limit <=? Z.of_nat (length found'))%Z then (found', true)
        else grepLines test relPath lines limit contextLines rest' (i + 1) found'
      else grepLines test relPath lines limit contextLines rest' (i + 1) found
  end.

(** The loop over the discovered files. *)
Fixpoint grepFiles (test : string -> bool) (root : string) (limit contextLines : Z)
    (fileFilter extFilter : option string) (files : list File) (found : list Match)
    : list Match * bool :=
  match files with
  | [] => (found, false)
  | f :: rest =>
      let filename := path_basename (fpath f) in
      let ext := toLowerCase (path_extname (fpath f)) in
      let relPath := path_relative root (fpath f) in
      if given fileFilter && negb (includes filename (default "" fileFilter))
      then grepFiles test root limit contextLines fileFilter extFilter rest found
      else if given extFilter && negb (String.eqb ext (default "" extFilter))
      then grepFiles test root limit contextLines fileFilter extFilter rest found
      else
        match source f with
        | None => grepFiles test root limit contextLines fileFilter extFilter rest found
        | Some src =>
            let lines := split src in
            let '(found', stop) :=
              grepLines test relPath lines limit contextLines lines 0 found in
            if stop then (found', true)
            else grepFiles test root limit contextLines fileFilter extFilter rest found'
        end
  end.

(** [root] is the [projectRoot] of the searcher and [files] what
    [discoverFiles] returns, each with what reading it gives. *)
Definition grepCode (root : string) (files : list File) (pattern_ : string)
    (isRegex caseSensitive : option bool) (limit contextLines : option Z)
    (fileFilter extFilter : option string) : outcome GrepResult :=
  if negb (truthy root) then ErrorResult "Project root not configured"
  else
    let flags := if default true caseSensitive then "" else "i" in
    match regExp (if default false isRegex then pattern_ else escapeRegex pattern_) flags with
    | inr message => ErrorResult ("Invalid regex: " +:+ message)
    | inl test =>
        let '(found, stop) :=
          grepFiles test root (default 50%Z limit) (default 2%Z contextLines)
                    fileFilter extFilter files [] in
        Resolved {| pattern := pattern_;
                    matches := found;
                    grep_total := length found;
                    truncated := stop |}
    end.

End Grep.

(** *** [fileHistory] *)

(** What [fs.statSync] tells of a snapshot. *)
Record Stat := {
  stat_mtime : string;
  stat_size : nat
}.

Record SnapshotInfo := {
  filename : string;
  timestamp : string;
  size_bytes : nat;
  path : string
}.

Record History := {
  history_file : string;
  snapshots : list SnapshotInfo;
  history_total : nat
}.

Section History.
Context `{NodePath}.

(** [snapshotDir] lists the snapshot directory of the file, each name
    with its [statSync] ([None] when that throws), or is [None] when the
    directory does not exist. *)
Definition fileHistory (root filepath_ : string)
    (snapshotDir : option (list (string * option Stat))) : outcome History :=
  if negb (truthy root) then ErrorResult "Project root not configured"
  else
    let dir := path_join (path_join (path_join root ".karp-inspector") "snapshots") filepath_ in
    let listing := default [] snapshotDir in
    let entries :=
      rev (sortDefault (List.filter (fun f => endsWith f ".snapshot") (map fst listing))) in
    let info (entry : string) : option SnapshotInfo :=
      let fullPath := path_join dir entry in
      stat ← List.find (fun e => String.eqb (fst e) entry) listing ≫= snd;
      Some {| filename := entry;
              timestamp := stat_mtime stat;
              size_bytes := stat_size stat;
              path := path_relative root fullPath |} in
    match mapM info entries with
    | None => Rejected
    | Some found =>
        Resolved {| history_file := filepath_;
                    snapshots := found;
                    history_total := length found |}
    end.

End History.

(** *** [projectStats] *)

Record Stats := {
  stats_total_chunks : nat;
  is_indexed : bool;
  files_tracked : nat;
  by_chunk_type : gmap string nat;
  stats_by_extension : gmap string nat;
  project_root : string
}.

(** [counts[k] = (counts[k] || 0) + 1]. *)
Definition bump (k : string) (counts : gmap string nat) : gmap string nat :=
  <[k := default 0 (counts !! k) + 1]> counts.

(** [s || 'unknown']. *)
Definition orUnknown (s : string) : string := if truthy s then s else "unknown".

Section Stats.
Context `{NodePath}.

(** [root] is the [projectRoot] of the searcher. *)
Definition projectStats (root : string) (st : VectorStore) : Stats :=
  let '(byType, byExt) :=
    fold_left
      (fun '(byType, byExt) v =>
         let type := orUnknown (chunk_type (payload v)) in
         let ext := orUnknown (toLowerCase (path_extname (filepath (payload v)))) in
         (bump type byType, bump ext byExt))
      (vectors st) (∅, ∅) in
  {| stats_total_chunks := length (vectors st);
     is_indexed := isIndexed st;
     files_tracked := size (hashMap st);
     by_chunk_type := byType;
     stats_by_extension := byExt;
     project_root := if truthy root then root else "(not configured)" |}.

End Stats.
End Queries.

(** ** The batches of [generateEmbeddings] *)

Module Batches.
Import Js.

Section Batches.
Context `{Embedder}.

(** [for (const text of batch)]: each output is pushed on [results];
    [None] when the model throws. *)
Fixpoint embedBatch (batch : list string) (results : list (list float))
    : option (list (list float)) :=
  match batch with
  | [] => Some results
  | text :: rest =>
      match embed text with
      | Some output => embedBatch rest (results ++ [output])
      | None => None
      end
  end.

(** [for (let i = 0; i < texts.length; i += batchSize)] from [i] on, with
    [batchSize = 16]; every iteration moves [i] forward, so [fuel]
    iterations are enough when [fuel] is the number of texts. *)
Fixpoint batchLoop (fuel : nat) (texts : list string) (i : nat)
    (results : list (list float)) : option (list (list float)) :=
  match fuel with
  | 0 => Some results
  | S fuel' =>
      if (i <? length texts)%nat then
        match embedBatch (slice texts i (i + 16)) results with
        | Some results' => batchLoop fuel' texts (i + 16) results'
        | None => None
        end
      else Some results
  end.

Definition generateEmbeddings (texts : list string) : option (list (list float)) :=
  if model_loads then batchLoop (length texts) texts 0 [] else None.

End Batches.
End Batches.

(** ** Snapshots *)

Module Snapshots.
Import Js.

(** [iso.replace(/[:.]/g, '-')]. *)
Fixpoint dashed (iso : string) : string :=
  match iso with
  | "" => ""
  | String c rest =>
      String (if Ascii.eqb c ":" || Ascii.eqb c "." then "-"%char else c) (dashed rest)
  end.

(** A file written into a directory: it replaces the entry of its name,
    or is a new entry. *)
Fixpoint written (name content : string) (listing : list (string * string))
    : list (string * string) :=
  match listing with
  | [] => [(name, content)]
  | (n, c) :: rest =>
      if String.eqb n name then (name, content) :: rest
      else (n, c) :: written name content rest
  end.

Section Snapshots.
Context `{NodePath}.

(** [now] is [new Date().toISOString()], [live] the content of the file
    at [path.join(projectRoot, filepath)] ([None] when it does not
    exist) and [snapshotDir] the listing of the snapshot directory of the
    file ([None] when it does not exist yet). It gives [snapshotPath]
    and the directory as it is afterwards. *)
Definition saveSnapshot (projectRoot filepath_ now : string) (live : option string)
    (snapshotDir : option (list (string * string)))
    : string * list (string * string) :=
  let dir :=
    path_join (path_join (path_join projectRoot ".karp-inspector") "snapshots") filepath_ in
  let timestamp := dashed now in
  let snapshotPath := path_join dir (timestamp +:+ ".snapshot") in
  let listing := default [] snapshotDir in
  (snapshotPath,
   match live with
   | Some content => written (timestamp +:+ ".snapshot") content listing
   | None => listing
   end).

End Snapshots.
End Snapshots.

(** ** Vocabulary of the counting properties *)

Module CountSpec.

(** The sum of the counts of a dictionary of counters. *)
Definition sum_counts (counts : gmap string nat) : nat :=
  map_fold (fun _ n acc => n + acc) 0 counts.

End CountSpec.

(** ** Vocabulary of the pipeline properties *)

Module IndexSpec.
Import Chunker Vec Indexer.

Section Scan.
Context `{NodePath} `{Sha256}.

(** The chunks of the file loop are filed under the relative paths of
    the files [known], and its fingerprints are those of [h] or of such
    files. *)
Definition from_files (root : string) (known : list File) (acc : Scan)
    (h : gmap string string) : Prop :=
  Forall (fun c => exists f, f ∈ known /\ filepath c = path_relative root (fpath f))
         (allChunks acc)
  /\ forall k v, hashes acc !! k = Some v ->
       h !! k = Some v
       \/ exists f, f ∈ known /\ k = path_relative root (fpath f) /\ v = computeHash f.

End Scan.
End IndexSpec.

(** ** Vocabulary of the snapshot properties *)

Module SnapshotSpec.
Import Js.

(** The snapshots of a directory listing in the order [fileHistory] and
    [fileDiff] number them: the names ending in [.snapshot], sorted and
    reversed. *)
Definition ordered (names : list string) : list string :=
  rev (sortDefault (List.filter (fun f => endsWith f ".snapshot") names)).

(** The content a listing holds under a name. *)
Definition contentOf {A} (listing : list (string * A)) (name : string) : option A :=
  snd <$> List.find (fun e => String.eqb (fst e) name) listing.

(** The lines of [b] that are not the line of [a] at the same index. *)
Definition changed (a b : list string) : list string :=
  flat_map (fun i => match b !! i with
                     | Some y => if bool_decide (a !! i = Some y) then [] else [y]
                     | None => []
                     end)
           (seq 0 (length b)).

(** Each name is at least the next one, by code units. *)
Definition descending (names : list string) : Prop :=
  Sorted (fun a b => String.leb b a = true) names.

End SnapshotSpec.

(** ** Vocabulary of the discovery properties *)

Module DiscoverSpec.
Import Js Discover.

Section Located.
Context `{NodePath}.
Variables (includeExt skipped : gset string) (maxSize : nat).

(** [located dir entries path]: below the directory [dir] with the
    listing [entries], [path] is the full path of a regular file whose
    lower-cased extension is included and whose size is at most
    [maxSize], reached through readable directories that are neither
    skipped by name nor hidden. *)
Inductive located : string -> list Dirent -> string -> Prop :=
  | located_file (dir : string) (entries : list Dirent) (name : string) (size : nat) :
      RegularFile name (Some size) ∈ entries ->
      toLowerCase (path_extname name) ∈ includeExt ->
      size <= maxSize ->
      located dir entries (path_join dir name)
  | located_below (dir : string) (entries : list Dirent) (name : string)
      (sub : list Dirent) (path : string) :
      Directory name (Some sub) ∈ entries ->
      name ∉ skipped ->
      startsWith name "." = false ->
      located (path_join dir name) sub path ->
      located dir entries path.

End Located.

(** A string with a capital ASCII letter. *)
Fixpoint has_capital (s : string) : bool :=
  match s with
  | "" => false
  | String c s' =>
      ((65 <=? nat_of_ascii c)%nat && (nat_of_ascii c <=? 90)%nat) || has_capital s'
  end.

End DiscoverSpec.

(** ** Vocabulary of the grep properties *)

Module GrepSpec.
Import Js JsLib Indexer Queries.

Section Spec.
Context `{NodePath}.

(** What is reported for the matching line [line] at index [i] of a file
    of [lines]. *)
Definition matchAt (relPath : string) (lines : list string) (contextLines : Z)
    (i : nat) (line : string) : Match :=
  {| match_file := relPath;
     line_number := i + 1;
     match_text := trim line;
     context :=
       join nl (sliceZ lines (Z.max 0 (Z.of_nat i - contextLines))
                       (Z.min (Z.of_nat (length lines)) (Z.of_nat i + contextLines + 1))) |}.

(** The matches among the lines [rest], which start at index [from] of
    the file, in line order. *)
Definition lineMatches (test : string -> bool) (relPath : string) (lines : list string)
    (contextLines : Z) (from : nat) (rest : list string) : list Match :=
  flat_map (fun '(i, line) =>
              if test line then [matchAt relPath lines contextLines i line] else [])
           (combine (seq from (length rest)) rest).

(** A file that passes the two filters. *)
Definition searched (fileFilter extFilter : option string) (f : File) : bool :=
  negb (given fileFilter && negb (includes (path_basename (fpath f)) (default "" fileFilter)))
  && negb (given extFilter
           && negb (String.eqb (toLowerCase (path_extname (fpath f))) (default "" extFilter))).

(** Every match of every readable file that passes the filters, files in
    the order of discovery. *)
Definition allMatches (test : string -> bool) (root : string) (contextLines : Z)
    (fileFilter extFilter : option string) (files : list File) : list Match :=
  flat_map (fun f =>
              if searched fileFilter extFilter f then
                match source f with
                | Some src =>
                    lineMatches test (path_relative root (fpath f)) (split src)
                                contextLines 0 (split src)
                | None => []
                end
              else [])
           files.

End Spec.

(** The result of a loop that stops at the limit, from everything there
    is to find. *)
Definition cut (limit : Z) (all : list Match) : list Match * bool :=
  if (Z.max 1 limit <=? Z.of_nat (length all))%Z
  then (take (Z.to_nat (Z.max 1 limit)) all, true)
  else (all, false).

End GrepSpec.

(** ** Vocabulary of the Python chunker properties *)

Module PythonSpec.
Import Js JsLib Chunker Python ChunkSpec.

(** Chunks over ascending line ranges that do not overlap, within the
    lines [lo] to [hi]. *)
Fixpoint spaced (lo hi : nat) (cs : list Chunk) : Prop :=
  match cs with
  | [] => lo <= hi + 1
  | c :: rest =>
      lo <= line_start c /\ line_start c <= line_end c /\ line_end c <= hi
      /\ spaced (line_end c + 1) hi rest
  end.

(** The line at number [n] starts a definition of this name and kind:
    a class, or else a function. *)
Definition defines (lines : list string) (n : nat) (name_ type_ : string) : Prop :=
  exists line indent,
    1 <= n /\ lines !! (n - 1) = Some line
    /\ (type_ = "class" /\ classRegex line = Some (indent, name_)
        \/ type_ = "function" /\ classRegex line = None
           /\ funcStartRegex line = Some (indent, name_)).

(** A chunk of a definition, of the header before the first definition,
    or of the whole file. *)
Definition described (lines : list string) (base : string) (c : Chunk) : Prop :=
  defines lines (line_start c) (name c) (chunk_type c)
  \/ chunk_type c = "file_header" /\ name c = base +:+ ":header" /\ line_start c = 1
  \/ chunk_type c = "file_chunk" /\ name c = base +:+ ":full" /\ line_start c = 1
     /\ line_end c = length lines.

(** What the main loop has built when it is at index [i]: the closed
    chunks end before the open one starts, which starts before [i]. *)
Definition scanned (lines : list string) (relPath : string) (i : nat)
    (currentChunk : option Open) (chunks : list Chunk) : Prop :=
  i <= length lines
  /\ Forall (fun c => filepath c = relPath /\ defines lines (line_start c) (name c) (chunk_type c))
            chunks
  /\ exists hi,
       spaced 1 hi chunks
       /\ match currentChunk with
          | None => hi <= i
          | Some o =>
              hi < open_start o /\ open_start o <= i /\ open_lines o <> []
              /\ defines lines (open_start o) (open_name o) (open_type o)
          end.

(** The text of a chunk is made of the lines it is labelled with. *)
Definition verbatim (lines : list string) (c : Chunk) : Prop :=
  text c = join nl (covered lines c).

(** The same for the main loop at index [i]. *)
Definition scanned_verbatim (lines : list string) (i : nat)
    (currentChunk : option Open) (chunks : list Chunk) : Prop :=
  Forall (verbatim lines) chunks
  /\ match currentChunk with
     | None => True
     | Some o => open_lines o = slice lines (open_start o - 1) i
     end.

(** Every function signature that does not close on its own line closes
    on one of the 19 lines after it. *)
Definition signatures_close (lines : list string) : Prop :=
  forall i line,
    lines !! i = Some line -> funcStartRegex line <> None ->
    closesSignature line = true
    \/ existsb closesSignature (take 19 (drop (i + 1) lines)) = true.

(** A text of whitespace only. *)
Fixpoint all_whitespace (s : string) : bool :=
  match s with
  | "" => true
  | String c s' => is_whitespace c && all_whitespace s'
  end.

(** A line that starts a class or a function. *)
Definition starts_definition (line : string) : bool :=
  bool_decide (classRegex line <> None) || bool_decide (funcStartRegex line <> None).

(** The numbers of the lines among [rest] that start a definition,
    [rest] starting at index [from] of the file. *)
Definition definitionLines (from : nat) (rest : list string) : list nat :=
  flat_map (fun '(i, line) => if starts_definition line then [i + 1] else [])
           (combine (seq from (length rest)) rest).

(** Every function signature closes on its own line. *)
Definition one_line_signatures (lines : list string) : Prop :=
  Forall (fun line => funcStartRegex line <> None -> closesSignature line = true) lines.

(** A chunk filed under another path. *)
Definition filedUnder (relPath : string) (c : Chunk) : Chunk :=
  {| name := name c;
     chunk_type := chunk_type c;
     filepath := relPath;
     line_start := line_start c;
     line_end := line_end c;
     text := text c |}.

(** The main loop at index [i] has started one chunk for each definition
    line before [i]. *)
Definition started (lines : list string) (i : nat) (currentChunk : option Open)
    (chunks : list Chunk) : Prop :=
  (map line_start chunks
   ++ match currentChunk with
      | Some o => [open_start o]
      | None => []
      end)%list
  = definitionLines 0 (take i lines).

End PythonSpec.

(** ** Test data for the searcher and the chunkers *)

Module ToolFixtures.
Import Js JsLib Chunker Vec Indexer Discover Queries.

(** Two snapshots of a file, and a stray file beside them. *)
Definition older : string := "2026-01-01T10-00-00-000Z.snapshot".
Definition newer : string := "2026-01-02T10-00-00-000Z.snapshot".

Definition snapshotContents : list (string * string) :=
  [ (older, "x" +:+ nl +:+ "y");
    ("notes.txt", "n");
    (newer, "x" +:+ nl +:+ "++z" +:+ nl +:+ "w") ].

Definition snapshotStats : list (string * option Stat) :=
  [ (older, Some {| stat_mtime := "2026-01-01T10:00:00.000Z"; stat_size := 3 |});
    ("notes.txt", Some {| stat_mtime := "2026-01-03T10:00:00.000Z"; stat_size := 1 |});
    (newer, Some {| stat_mtime := "2026-01-02T10:00:00.000Z"; stat_size := 7 |}) ].

(** A project tree: two sources, a large file, a skipped and a hidden
    directory, and a package with a module. *)
Definition tree : list Dirent :=
  [ RegularFile "main.py" (Some 14);
    RegularFile "README.MD" (Some 6);
    RegularFile "large.py" (Some 2000000);
    RegularFile "lib.rs" (Some 10);
    Directory "node_modules" (Some [RegularFile "junk.py" (Some 3)]);
    Directory ".git" (Some [RegularFile "hook.py" (Some 3)]);
    Directory "pkg" (Some [RegularFile "mod.py" (Some 20); Other "link.py"]) ].

(** A stand-in engine that reads every pattern as plain text. *)
Definition plainText : RegExpEngine :=
  {| regExp := fun pattern_ _ => inl (fun line => includes line pattern_) |}.

(** The store of the search examples, once indexed. *)
Definition fourIndexed : VectorStore :=
  {| vectors := SearchFixtures.fourEntries; hashMap := ∅; isIndexed := true |}.

(** A Python module: a header, a class with a method whose signature
    runs over two lines, and a function. *)
Definition pythonLines : list string :=
  [ "import os";
    "";
    "class Greeter:";
    "    def greet(self,";
    "              name):";
    "        print(name)";
    "";
    "def main():";
    "    Greeter().greet(os.name)" ].

Definition pythonSource : string := join nl pythonLines.

(** A Python script without definitions. *)
Definition scriptSource : string := "x = 1" +:+ nl +:+ "print(x)" +:+ nl.

(** A parser that rejects every source, so that JavaScript files fall
    back to fixed-size chunks. *)
Definition noAcorn : string -> option (list Declaration) := fun _ => None.

(** The project [/p] with a Python module, a script and a text file. *)
Definition mixedProject : list File :=
  [ ProjectFixtures.textFile "/p/greet.py" pythonSource;
    ProjectFixtures.textFile "/p/run.js" scriptSource;
    ProjectFixtures.textFile "/p/b.txt" "world" ].

(** The module state once these files are indexed, and the Python
    module rewritten afterwards. *)
Definition mixedIndexed : System :=
  snd (@indexProject Fixtures.posix (Python.regexParsers noAcorn) Fixtures.unitEmbedder
         Fixtures.plainHash false mixedProject ProjectFixtures.configured).

Definition greetRewritten : File :=
  ProjectFixtures.textFile "/p/greet.py" ("def main():" +:+ nl +:+ "    pass").

End ToolFixtures.
(** * Properties *)

(** ** Strings *)

Module JsFacts.
Import Js.

Lemma sapp_cons (c : ascii) (a b : string) : String c a +:+ b = String c (a +:+ b).
Proof. reflexivity. Qed.

Lemma sapp_nil_l (s : string) : "" +:+ s = s.
Proof. reflexivity. Qed.

Lemma sapp_nil_r (s : string) : s +:+ "" = s.
Proof. induction s as [|c s IH]; [done |]. by rewrite sapp_cons, IH. Qed.

Lemma sapp_assoc (a b c : string) : a +:+ (b +:+ c) = (a +:+ b) +:+ c.
Proof. induction a as [|x a IH]; [done |]. by rewrite !sapp_cons, IH. Qed.

Lemma slength_app (a b : string) :
  String.length (a +:+ b) = String.length a + String.length b.
Proof. induction a as [|x a IH]; [done |]. rewrite sapp_cons. simpl. by rewrite IH. Qed.

Lemma split_nonempty (s : string) : split s ≠ [].
Proof.
  destruct s as [|c s]; simpl; [done |].
  destruct (Ascii.eqb c LF); [done |]. by destruct (split s).
Qed.

Lemma join_cons (sep p : string) (ps : list string) :
  ps ≠ [] → join sep (p :: ps) = p +:+ sep +:+ join sep ps.
Proof. by destruct ps. Qed.

(** Splitting at the newlines and joining with newlines is the identity. *)
Lemma join_split (s : string) : join nl (split s) = s.
Proof.
  induction s as [|c s IH]; simpl; [done |].
  destruct (Ascii.eqb c LF) eqn:E.
  - apply Ascii.eqb_eq in E as ->.
    rewrite join_cons by apply split_nonempty. by rewrite IH.
  - pose proof (split_nonempty s) as Hne.
    destruct (split s) as [|l ls]; [done |].
    destruct ls as [|l' ls]; simpl in *; rewrite <- IH; reflexivity.
Qed.

Lemma join_app (sep : string) (a b : list string) :
  a ≠ [] → b ≠ [] → join sep (a ++ b)%list = join sep a +:+ sep +:+ join sep b.
Proof.
  intros Ha Hb. induction a as [|x a IH]; [done |].
  destruct a as [|y a].
  - simpl. by destruct b.
  - rewrite <- app_comm_cons. rewrite !join_cons by done.
    rewrite IH by done. by rewrite <- !sapp_assoc.
Qed.

Lemma trimEnd_cons (c : ascii) (s : string) :
  trimEnd (String c s) =
  match trimEnd s with
  | "" => if is_whitespace c then "" else String c ""
  | t => String c t
  end.
Proof. reflexivity. Qed.

Lemma trimEnd_app_keep (a b : string) :
  trimEnd b ≠ "" → trimEnd (a +:+ b) = a +:+ trimEnd b.
Proof.
  intros Hb. induction a as [|c a IH]; [done |].
  rewrite !sapp_cons, trimEnd_cons, IH.
  destruct (a +:+ trimEnd b) eqn:E; [|done].
  destruct a; [by rewrite sapp_nil_l in E | by rewrite sapp_cons in E].
Qed.

(** A newline at the end is trimmed away. *)
Lemma trimEnd_app_nl (s : string) : trimEnd (s +:+ nl) = trimEnd s.
Proof.
  induction s as [|c s IH]; [done |].
  rewrite sapp_cons, !trimEnd_cons, IH. done.
Qed.

Lemma length_trimEnd (s : string) : String.length (trimEnd s) ≤ String.length s.
Proof.
  induction s as [|c s IH]; [done |]. rewrite trimEnd_cons.
  destruct (trimEnd s); [destruct (is_whitespace c)|]; simpl in *; lia.
Qed.

Lemma length_trimStart (s : string) : String.length (trimStart s) ≤ String.length s.
Proof.
  induction s as [|c s IH]; [done |]. simpl.
  destruct (is_whitespace c); simpl; lia.
Qed.

(** A text that [trim] leaves alone starts with no whitespace. *)
Lemma trimStart_clean (s : string) : trim s = s → trimStart s = s.
Proof.
  unfold trim. destruct s as [|c s]; [done |]. intros Ht. simpl in *.
  destruct (is_whitespace c) eqn:W; [|done]. exfalso.
  pose proof (length_trimEnd (trimStart s)) as H1.
  pose proof (length_trimStart s) as H2.
  rewrite Ht in H1. simpl in H1. lia.
Qed.

(** ... and ends with none. *)
Lemma trimEnd_clean (s : string) : trim s = s → trimEnd s = s.
Proof. intros Ht. pose proof Ht as Hs. unfold trim in Ht. by rewrite (trimStart_clean s Hs) in Ht. Qed.

Lemma clean_head (x : string) :
  x ≠ "" → trim x = x → ∃ c x', x = String c x' ∧ is_whitespace c = false.
Proof.
  destruct x as [|c x]; [done |]. intros _ Ht. exists c, x. split; [done |].
  apply trimStart_clean in Ht. simpl in Ht.
  destruct (is_whitespace c); [|done]. exfalso.
  pose proof (length_trimStart x) as Hl. rewrite Ht in Hl. simpl in Hl. lia.
Qed.

(** A text that starts with a clean line starts with no whitespace. *)
Lemma trimStart_app_keep (x r : string) :
  trimStart x = x → x ≠ "" → trimStart (x +:+ r) = x +:+ r.
Proof.
  destruct x as [|c x]; [done |]. intros Hx _. rewrite sapp_cons. simpl in *.
  destruct (is_whitespace c); [|done]. exfalso.
  pose proof (length_trimStart x) as Hl. rewrite Hx in Hl. simpl in Hl. lia.
Qed.

End JsFacts.

(** ** Binary64 arithmetic *)

Module FloatFacts.
Import FloatSpec.
Local Open Scope Z_scope.

(** *** Binary digits *)





(** *** Shifting right *)




(** *** Rounding keeps the sign *)

Section Rounding.
Variables prec emax : Z.
Hypothesis prec_pos : 0 < prec.






(** *** The order of canonical floats *)








End Rounding.

(** *** Binary64 *)



(** *** Zero factors *)








End FloatFacts.

(** ** The fixed-size chunker *)

Module ChunkerFacts.
Import Js JsFacts Chunker ChunkSpec.

Lemma budget_pos : 0 < maxChunkChars.
Proof. unfold maxChunkChars. lia. Qed.

Lemma glue_app (a b : list string) : glue (a ++ b)%list = glue a +:+ glue b.
Proof.
  induction a as [|x a IH]; [done |].
  cbn [app glue foldr]. fold (glue (a ++ b)) (glue a).
  by rewrite IH, <- !sapp_assoc.
Qed.

Lemma glue_one (l : string) : glue [l] = l +:+ nl.
Proof. cbn [glue foldr]. by rewrite sapp_nil_r. Qed.

Lemma slice_empty {A} (l : list A) (a : nat) : slice l a a = [].
Proof. unfold slice. by rewrite Nat.sub_diag. Qed.

Lemma slice_snoc {A} (l : list A) (a i : nat) (x : A) :
  l !! i = Some x → a ≤ i → slice l a (i + 1) = (slice l a i ++ [x])%list.
Proof.
  intros Hx Hle. unfold slice.
  replace (i + 1 - a) with (S (i - a)) by lia.
  apply take_S_r. rewrite lookup_drop. by replace (a + (i - a)) with i by lia.
Qed.

Lemma slice_app {A} (l : list A) (a b c : nat) :
  a ≤ b → b ≤ c → slice l a c = (slice l a b ++ slice l b c)%list.
Proof.
  intros Hab Hbc. unfold slice.
  replace (c - a) with ((b - a) + (c - b)) by lia.
  rewrite <- take_take_drop. f_equal.
  rewrite drop_drop. by replace (a + (b - a)) with b by lia.
Qed.

Section Loop.
Context `{NodePath}.
Variables (base relPath : string) (L : list string).

Lemma fixedLoop_spec (rest pre : list string) (cur : string) (start i : nat) :
  L = (pre ++ rest)%list → i = length pre → rest ≠ [] →
  1 ≤ start → start - 1 ≤ i →
  cur = glue (slice L (start - 1) i) →
  String.length cur < maxChunkChars →
  tiles start (length L) (fixedLoop base relPath (length L) rest i cur start)
  ∧ Forall (well_cut base relPath L) (fixedLoop base relPath (length L) rest i cur start).
Proof.
  revert pre cur start i.
  induction rest as [|line rest IH]; intros pre cur start i HL Hi Hne Hs Hsi Hcur Hlen;
    [done |].
  assert (L !! i = Some line) as Hline.
  { rewrite HL, Hi. by rewrite list_lookup_middle. }
  assert (length L = i + 1 + length rest) as Hn.
  { rewrite HL, length_app. simpl. lia. }
  assert (cur +:+ line +:+ nl = glue (slice L (start - 1) (i + 1))) as Hcur'.
  { rewrite (slice_snoc L _ i line) by done.
    by rewrite glue_app, glue_one, <- Hcur. }
  cbn [fixedLoop].
  destruct ((maxChunkChars <=? String.length (cur +:+ line +:+ nl))
            || (i =? length L - 1)) eqn:Emit.
  - assert (tiles (i + 2) (length L)
              (fixedLoop base relPath (length L) rest (i + 1) "" (i + 2))
            ∧ Forall (well_cut base relPath L)
                (fixedLoop base relPath (length L) rest (i + 1) "" (i + 2))) as [Ht Hf].
    { destruct rest as [|l' rest'] eqn:Er.
      - simpl in *. split; [lia | constructor].
      - rewrite <- Er in *. apply (IH (pre ++ [line])%list).
        + by rewrite <- app_assoc.
        + rewrite length_app. simpl. lia.
        + by rewrite Er.
        + lia.
        + lia.
        + replace (i + 2 - 1) with (i + 1) by lia. by rewrite slice_empty.
        + apply budget_pos. }
    split.
    + cbn [tiles line_start line_end]. split; [done |]. split; [lia |].
      by replace (i + 1 + 1) with (i + 2) by lia.
    + constructor; [|done].
      constructor; unfold covered, covered_but_last; cbn [line_start line_end text name
        filepath chunk_type]; try done.
      * lia.
      * by rewrite Hcur'.
      * replace (i + 1 - 1) with i by lia. by rewrite <- Hcur.
      * apply orb_true_iff in Emit as [E|E].
        -- right. rewrite <- Hcur'. by apply Nat.leb_le.
        -- left. apply Nat.eqb_eq in E. lia.
  - apply orb_false_iff in Emit as [E1 E2].
    apply Nat.leb_gt in E1. apply Nat.eqb_neq in E2.
    apply (IH (pre ++ [line])%list).
    + by rewrite <- app_assoc.
    + rewrite length_app. simpl. lia.
    + intros ->. simpl in Hn. lia.
    + done.
    + lia.
    + exact Hcur'.
    + exact E1.
Qed.

End Loop.

Lemma clean_line_spec (l : string) :
  clean_line l = true ↔ l ≠ "" ∧ trim l = l.
Proof.
  unfold clean_line. rewrite andb_true_iff, String.eqb_eq.
  destruct l as [|c l]; simpl; split; intros [H1 H2]; done.
Qed.

Lemma forallb_clean (g : list string) :
  forallb clean_line g = true → Forall (λ l, clean_line l = true) g.
Proof.
  intros Hg. apply Forall_forall. intros l Hl.
  apply (proj1 (forallb_forall _ _) Hg). by apply list_elem_of_In.
Qed.

Lemma join_clean_nonblank (g : list string) :
  g ≠ [] → Forall (λ l, clean_line l = true) g → join nl g ≠ "".
Proof.
  destruct g as [|x g]; [done |]. intros _ Hg.
  apply Forall_cons in Hg as [Hx _]. apply clean_line_spec in Hx as [Hx _].
  destruct g; [done |]. rewrite join_cons by done. by destruct x.
Qed.

Lemma trimEnd_glue (g : list string) :
  g ≠ [] → Forall (λ l, clean_line l = true) g → trimEnd (glue g) = join nl g.
Proof.
  induction g as [|x g IH]; [done |]. intros _ Hg.
  apply Forall_cons in Hg as [Hx Hg]. pose proof Hx as Hx'.
  apply clean_line_spec in Hx as [Hx Ht].
  destruct g as [|y g].
  - rewrite glue_one, trimEnd_app_nl. by apply trimEnd_clean.
  - assert (trimEnd (glue (y :: g)) = join nl (y :: g)) as E by by apply IH.
    assert (join nl (y :: g) ≠ "") as N by by apply join_clean_nonblank.
    assert (trimEnd (nl +:+ glue (y :: g)) = nl +:+ join nl (y :: g)) as E'.
    { rewrite trimEnd_app_keep; by rewrite E. }
    rewrite join_cons by done.
    change (glue (x :: y :: g)) with (x +:+ nl +:+ glue (y :: g)).
    rewrite trimEnd_app_keep; rewrite E'; [done |].
    unfold nl. by rewrite sapp_cons.
Qed.

(** Trimming the text of clean lines only takes the last newline away. *)
Lemma trim_glue (g : list string) :
  g ≠ [] → Forall (λ l, clean_line l = true) g → trim (glue g) = join nl g.
Proof.
  intros Hne Hg. unfold trim. rewrite <- (trimEnd_glue g) by done. f_equal.
  destruct g as [|x g]; [done |].
  apply Forall_cons in Hg as [Hx _]. apply clean_line_spec in Hx as [Hx Ht].
  change (glue (x :: g)) with (x +:+ nl +:+ glue g).
  apply trimStart_app_keep; [by apply trimStart_clean | done].
Qed.

Lemma length_slice {A} (l : list A) (a b : nat) :
  b ≤ length l → length (slice l a b) = b - a.
Proof. intros Hb. unfold slice. rewrite length_take, length_drop. lia. Qed.

Lemma slice_all {A} (l : list A) : slice l 0 (length l) = l.
Proof. unfold slice. rewrite drop_0, Nat.sub_0_r. apply firstn_all. Qed.

Lemma Forall_slice {A} (P : A → Prop) (l : list A) (a b : nat) :
  Forall P l → Forall P (slice l a b).
Proof. intros Hl. unfold slice. by apply Forall_take, Forall_drop. Qed.

Lemma tiles_le (e : nat) (cs : list Chunk) (s : nat) :
  cs ≠ [] → tiles s e cs → s ≤ e.
Proof.
  revert s. induction cs as [|c cs IH]; [done |]. intros s _ (Hs & Hle & Ht).
  destruct cs as [|d cs]; [simpl in Ht; lia |].
  specialize (IH _ ltac:(done) Ht). lia.
Qed.

Section Rebuild.
Variables (base relPath : string) (L : list string).
Hypothesis clean : Forall (λ l, clean_line l = true) L.

Lemma tiles_join (cs : list Chunk) (s : nat) :
  cs ≠ [] → tiles s (length L) cs → Forall (well_cut base relPath L) cs → 1 ≤ s →
  join nl (map text cs) = join nl (slice L (s - 1) (length L)).
Proof.
  revert s. induction cs as [|c cs IH]; [done |].
  intros s _ (Hs & Hle & Ht) Hf Hs1.
  apply Forall_cons in Hf as [Hc Hf]. destruct Hc as [(R1 & R2 & R3) Htext _ _ _ _ _].
  assert (text c = join nl (slice L (s - 1) (line_end c))) as Hjoin.
  { rewrite Htext. unfold covered. rewrite Hs. apply trim_glue.
    - intros E. apply (f_equal length) in E. rewrite length_slice in E by done.
      simpl in E. lia.
    - by apply Forall_slice. }
  destruct cs as [|d cs].
  - simpl in Ht. cbn [map join]. rewrite Hjoin. f_equal. f_equal. lia.
  - pose proof (tiles_le (length L) (d :: cs) _ ltac:(done) Ht) as Hlt.
    cbn [map]. rewrite join_cons by done.
    change (text d :: map text cs) with (map text (d :: cs)).
    rewrite (IH (line_end c + 1)) by (done || lia).
    replace (line_end c + 1 - 1) with (line_end c) by lia.
    rewrite Hjoin, (slice_app L (s - 1) (line_end c) (length L)) by lia.
    rewrite join_app; [done | |];
      intros E; apply (f_equal length) in E; rewrite length_slice in E by lia;
      simpl in E; lia.
Qed.

End Rebuild.

Section Facts.
Context `{NodePath}.
Variable projectRoot : string.

(** The chunks of a file with something in it tile its lines, and each is
    cut as [well_cut] says. *)
Lemma chunkFixedSize_spec (file source : string) :
  truthy (trim source) = true →
  tiles 1 (length (split source)) (chunkFixedSize projectRoot file source)
  ∧ Forall (well_cut (path_basename file) (path_relative projectRoot file) (split source))
      (chunkFixedSize projectRoot file source).
Proof.
  intros Ht. unfold chunkFixedSize. rewrite Ht.
  apply (fixedLoop_spec _ _ _ _ []); try done.
  - apply split_nonempty.
  - apply budget_pos.
Qed.

Lemma chunkFixedSize_blank (file source : string) :
  truthy (trim source) = false → chunkFixedSize projectRoot file source = [].
Proof. intros Ht. unfold chunkFixedSize. by rewrite Ht. Qed.

(** A file of clean lines is not blank. *)
Lemma clean_source_truthy (source : string) :
  forallb clean_line (split source) = true → truthy (trim source) = true.
Proof.
  intros Hc. apply forallb_clean in Hc.
  pose proof (split_nonempty source) as Hne.
  pose proof (join_split source) as Hj.
  destruct (split source) as [|x g]; [done |].
  apply Forall_cons in Hc as [Hx _].
  apply clean_line_spec in Hx as [Hx Ht].
  destruct (clean_head x Hx Ht) as (c & x' & -> & Hws).
  assert (∃ t, source = String c t) as [t ->].
  { destruct g; [by eexists | rewrite join_cons in Hj by done].
    rewrite sapp_cons in Hj. by eexists. }
  unfold trim. simpl. rewrite Hws, trimEnd_cons, Hws.
  by destruct (trimEnd t).
Qed.

Lemma fixedLoop_filepath (base relPath : string) (n : nat) (lines : list string)
    (i : nat) (cur : string) (start : nat) :
  Forall (λ c, filepath c = relPath) (fixedLoop base relPath n lines i cur start).
Proof.
  revert i cur start. induction lines as [|l lines IH]; intros i cur start; [constructor |].
  cbn [fixedLoop].
  destruct ((maxChunkChars <=? String.length (cur +:+ l +:+ nl)) || (i =? n - 1));
    [constructor; [done |] |]; apply IH.
Qed.

Lemma chunkFixedSize_filepath (file source : string) :
  Forall (λ c, filepath c = path_relative projectRoot file)
         (chunkFixedSize projectRoot file source).
Proof.
  unfold chunkFixedSize. destruct (truthy (trim source)); [|constructor].
  apply fixedLoop_filepath.
Qed.

(** Whatever the chunker, a chunk is filed under the path of its file
    relative to the project root. *)
Lemma chunkFile_filepath `{Parsers} (file source : string) :
  Forall (λ c, filepath c = path_relative projectRoot file)
         (chunkFile projectRoot file source).
Proof.
  unfold chunkFile.
  destruct (String.eqb _ ".py"); [|destruct (bool_decide _)].
  - unfold chunkPython. apply Forall_forall. intros c Hc.
    apply list_elem_of_fmap in Hc as (b & -> & _). done.
  - unfold chunkJavaScript. destruct (acorn_walk source) as [decls|];
      [|apply chunkFixedSize_filepath].
    destruct ((length _ =? 0) && truthy (trim source)); [apply chunkFixedSize_filepath |].
    apply Forall_forall. intros c Hc.
    apply list_elem_of_fmap in Hc as (d & -> & _). done.
  - apply chunkFixedSize_filepath.
Qed.

(** C7 (amended): a blank file gives no chunk; otherwise the chunks of
    [chunkFixedSize] follow one another from line 1 to the last line, each
    starting right after the previous one ends, each holding the trimmed
    text of whole lines and named after its line range, and each closed at
    the first line with which its text reaches [maxChunkChars]: without
    its last line a chunk is below the budget, and every chunk but the
    last reaches it. *)
Theorem chunkFixedSize_shape (file source : string) :
  let cs := chunkFixedSize projectRoot file source in
  let lines := split source in
  if truthy (trim source)
  then tiles 1 (length lines) cs
       ∧ Forall (well_cut (path_basename file) (path_relative projectRoot file) lines) cs
  else cs = [].
Proof.
  cbv zeta. destruct (truthy (trim source)) eqn:Ht.
  - by apply chunkFixedSize_spec.
  - by apply chunkFixedSize_blank.
Qed.

(** C8 (amended): for a file whose lines are not empty and carry no
    leading or trailing whitespace, joining the chunk texts in order with
    a newline gives the file content back exactly; and there is more than
    one chunk as soon as the text before the last line reaches
    [maxChunkChars]. *)
Theorem chunk_texts_rebuild_source (file source : string) :
  forallb clean_line (split source) = true →
  let cs := chunkFixedSize projectRoot file source in
  let lines := split source in
  join nl (map text cs) = source
  ∧ (maxChunkChars ≤ String.length (glue (take (length lines - 1) lines)) →
     1 < length cs).
Proof.
  intros Hc. cbv zeta.
  destruct (chunkFixedSize_spec file source (clean_source_truthy _ Hc)) as [Ht Hf].
  pose proof (split_nonempty source) as Hne.
  assert (chunkFixedSize projectRoot file source ≠ []) as Hcs.
  { intros E. rewrite E in Ht. simpl in Ht. destruct (split source); [done | simpl in Ht; lia]. }
  split.
  - rewrite (tiles_join _ _ _ (forallb_clean _ Hc) _ 1 Hcs Ht Hf) by done.
    change (1 - 1) with 0. by rewrite slice_all, join_split.
  - intros Hbig.
    destruct (chunkFixedSize projectRoot file source) as [|c [|d cs]]; [done | | simpl; lia].
    exfalso. destruct Ht as (Hs & _ & He). simpl in He.
    apply Forall_cons in Hf as [[_ _ _ _ _ Hbelow _] _].
    unfold covered_but_last, slice in Hbelow.
    rewrite Hs in Hbelow. change (1 - 1) with 0 in Hbelow.
    rewrite drop_0, Nat.sub_0_r in Hbelow.
    replace (line_end c - 1) with (length (split source) - 1) in Hbelow by lia.
    lia.
Qed.

End Facts.

(** The test suite: a small file is a single chunk. *)
Example chunkFixedSize_small :
  map (λ c, (name c, line_start c, line_end c, text c))
      (@chunkFixedSize Fixtures.posix "/p" "/p/small.html" "<html><body>Hello</body></html>")
  = [("small.html:L1-1", 1, 1, "<html><body>Hello</body></html>")].
Proof. vm_compute. reflexivity. Qed.

(** The 200-line file of the test suite has three chunks, and two of them
    are longer than the budget. *)
Lemma bigText_chunk_lengths :
  map (λ c, (line_start c, line_end c, String.length (text c)))
      (@chunkFixedSize Fixtures.posix "/p" "/p/big.txt" Fixtures.bigText)
  = [(1, 69, 1507); (70, 136, 1509); (137, 200, 1471)].
Proof. vm_compute. reflexivity. Qed.

(** C7, as stated: the chunks are not bounded by the budget of 1500
    characters. A file of one line of 3000 letters is one chunk of 3000
    characters, and the first chunk of the 200-line test file has 1507. *)
Lemma chunk_text_exceeds_budget :
  map (λ c, (line_start c, line_end c, String.length (text c)))
      (@chunkFixedSize Fixtures.posix "/p" "/p/long.txt" Fixtures.longLine)
  = [(1, 1, 3000)]
  ∧ ¬ Forall (λ c, String.length (text c) ≤ maxChunkChars)
        (@chunkFixedSize Fixtures.posix "/p" "/p/long.txt" Fixtures.longLine)
  ∧ ¬ Forall (λ c, String.length (text c) ≤ maxChunkChars)
        (@chunkFixedSize Fixtures.posix "/p" "/p/big.txt" Fixtures.bigText).
Proof.
  assert (map (λ c, (line_start c, line_end c, String.length (text c)))
            (@chunkFixedSize Fixtures.posix "/p" "/p/long.txt" Fixtures.longLine)
          = [(1, 1, 3000)]) as Elong by (vm_compute; reflexivity).
  split; [exact Elong |]. split.
  - intros Hall.
    destruct (@chunkFixedSize Fixtures.posix "/p" "/p/long.txt" Fixtures.longLine)
      as [|c cs]; [done |].
    apply Forall_cons in Hall as [Hc _]. cbn [map] in Elong.
    assert (String.length (text c) = 3000) as E' by congruence.
    rewrite E' in Hc. unfold maxChunkChars in Hc. lia.
  - intros Hall. pose proof bigText_chunk_lengths as E.
    destruct (@chunkFixedSize Fixtures.posix "/p" "/p/big.txt" Fixtures.bigText)
      as [|c cs]; [done |].
    apply Forall_cons in Hall as [Hc _]. cbn [map] in E.
    assert (String.length (text c) = 1507) as E' by congruence.
    rewrite E' in Hc. unfold maxChunkChars in Hc. lia.
Qed.

(** C8, as stated: a file of 200 lines of one letter is a single chunk;
    and concatenating the chunk texts of the 200-line test file does not
    give its content back, even up to trailing whitespace: the newline
    between two chunks is lost. *)
Lemma chunk_texts_concat_differs :
  length (split Fixtures.shortLines) = 200
  ∧ length (@chunkFixedSize Fixtures.posix "/p" "/p/short.txt" Fixtures.shortLines) = 1
  ∧ length (split Fixtures.bigText) = 200
  ∧ trimEnd (foldr String.append ""
               (map text
                    (@chunkFixedSize Fixtures.posix "/p" "/p/big.txt" Fixtures.bigText)))
    ≠ trimEnd Fixtures.bigText.
Proof.
  repeat split; try (vm_compute; reflexivity).
  intros E. apply (f_equal String.length) in E. vm_compute in E. discriminate E.
Qed.

(** The 200-line test file: more than one chunk, and the chunk texts
    joined with newlines are the file. *)
Lemma chunk_texts_rebuild_bigText :
  join nl (map text (@chunkFixedSize Fixtures.posix "/p" "/p/big.txt" Fixtures.bigText))
  = Fixtures.bigText
  ∧ 1 < length (@chunkFixedSize Fixtures.posix "/p" "/p/big.txt" Fixtures.bigText).
Proof.
  assert (forallb clean_line (split Fixtures.bigText) = true) as Hc
    by (vm_compute; reflexivity).
  destruct (@chunk_texts_rebuild_source Fixtures.posix "/p" "/p/big.txt" Fixtures.bigText Hc)
    as [Hjoin Hmany].
  split; [exact Hjoin |]. apply Hmany.
  apply Nat.leb_le. vm_compute. reflexivity.
Defined.

End ChunkerFacts.

(** ** Cosine similarity and the vector search *)

Module VecFacts.
Import Js Chunker Vec RankSpec.





(** *** The sort of [vectorSearch] *)

Section SortFacts.
Context {A : Type}.
Variable comparefn : A → A → float.

Lemma sort_insert_perm (x : A) (l : list A) :
  Permutation (sort_insert comparefn x l) (x :: l).
Proof.
  induction l as [|y l IH]; cbn [sort_insert]; [done |].
  destruct (0 <? comparefn x y)%float; [|done].
  rewrite IH. apply perm_swap.
Qed.

(** Sorting rearranges the array and nothing else. *)
Lemma sort_perm (l : list A) : Permutation (sort comparefn l) l.
Proof.
  induction l as [|x l IH]; [done |].
  cbn [sort foldr]. fold (sort comparefn l).
  by rewrite sort_insert_perm, IH.
Qed.


End SortFacts.









Example vectorSearch_four :
  map (λ r, id (entry r)) (vectorSearch SearchFixtures.fourEntries [1; 0]%float 3 None)
  = ["b.js:1"; "d.js:1"; "c.js:1"].
Proof. vm_compute. reflexivity. Qed.





End VecFacts.

(** ** The line diff *)

Module SearcherFacts.
Import Js Indexer Searcher DiffSpec.

(** At one index the loop emits what the aligned comparison says. *)
Lemma diffStep_aligned (oldLines newLines : list string) (i : nat) :
  diffStep oldLines newLines i = aligned (oldLines !! i) (newLines !! i).
Proof.
  unfold diffStep, lineAt.
  assert (∀ l : list string, (if i <? length l then l !! i else None) = l !! i) as Hat.
  { intros l. destruct (i <? length l) eqn:E; [done |].
    apply Nat.ltb_ge in E. symmetry. by apply lookup_ge_None. }
  rewrite !Hat.
  destruct (oldLines !! i) as [o|], (newLines !! i) as [n|]; cbn [sameLine aligned]; try done.
  destruct (String.eqb o n); [done |]. done.
Qed.

(** C9: after the two header lines, [simpleDiff] emits, index by index
    over the longer of the two arrays, a removal and an addition where the
    two lines differ, the addition alone where the old array has ended
    and the removal alone where the new one has, and nothing where they
    are equal. Old lines x, y against new lines x, z give the removal of
    y and the addition of z, which [fileDiff] counts as one deletion and
    one addition. *)
Theorem simpleDiff_aligned :
  (∀ (oldLines newLines : list string) (oldLabel newLabel : string),
     simpleDiff oldLines newLines oldLabel newLabel
     = (["--- " +:+ oldLabel; "+++ " +:+ newLabel]
        ++ flat_map (λ i, aligned (oldLines !! i) (newLines !! i))
             (seq 0 (Nat.max (length oldLines) (length newLines))))%list)
  ∧ (∀ oldLabel newLabel : string,
       simpleDiff ["x"; "y"] ["x"; "z"] oldLabel newLabel
       = ["--- " +:+ oldLabel; "+++ " +:+ newLabel; "-y"; "+z"])
  ∧ fileDiff "/p" "a.txt"
      (Some [("2026-01-01.snapshot", "x" +:+ nl +:+ "y");
             ("2026-01-02.snapshot", "x" +:+ nl +:+ "z")])
      None 1 0
    = Resolved
        {| diff_file := "a.txt";
           additions := 1;
           deletions := 1;
           diff_text :=
             join nl ["--- 2026-01-01.snapshot"; "+++ 2026-01-02.snapshot"; "-y"; "+z"] |}.
Proof.
  split; [|split].
  - intros. unfold simpleDiff. f_equal.
    apply flat_map_ext. intros i. apply diffStep_aligned.
  - intros. reflexivity.
  - vm_compute. reflexivity.
Qed.

End SearcherFacts.

(** ** The store, the cache and the pipeline *)

Module IndexerFacts.
Import Js Chunker Vec Indexer Trace.

Section Facts.
Context `{NodePath} `{Parsers} `{Embedder} `{Sha256}.

(** *** Loading the cache *)

Lemma loadIndex_absent (s : System) :
  disk s !! getCachePath (projectRoot s) = None → loadIndex s = (false, s).
Proof. intros Hd. unfold loadIndex. rewrite Hd. by destruct (truthy (projectRoot s)). Qed.

Lemma loadIndex_corrupt (s : System) :
  disk s !! getCachePath (projectRoot s) = Some Corrupt → loadIndex s = (false, s).
Proof. intros Hd. unfold loadIndex. rewrite Hd. by destruct (truthy (projectRoot s)). Qed.

(** What [loadIndex] can do: nothing, or install the whole of a cache
    whose version is current and whose root is the configured one. *)
Lemma loadIndex_cases (s : System) :
  loadIndex s = (false, s)
  ∨ ∃ cache,
      disk s !! getCachePath (projectRoot s) = Some (Parsed cache)
      ∧ version cache = CACHE_VERSION
      ∧ cache_projectRoot cache = projectRoot s
      ∧ loadIndex s
        = (true, with_store {| vectors := cache_vectors cache;
                               hashMap := cache_hashMap cache;
                               isIndexed := true |} s).
Proof.
  unfold loadIndex. destruct (truthy (projectRoot s)); [|by left]. cbn [negb].
  destruct (disk s !! getCachePath (projectRoot s)) as [[|cache]|] eqn:Hd;
    [by left | | by left].
  destruct (version cache =? CACHE_VERSION)%Z eqn:Ev; [|by left]. cbn [negb].
  destruct (String.eqb (cache_projectRoot cache) (projectRoot s)) eqn:Er; [|by left].
  right. exists cache. apply Z.eqb_eq in Ev. apply String.eqb_eq in Er. done.
Qed.

(** After [configure], a mismatching cache counts as no cache: the store
    is empty and not indexed. *)
Lemma configure_rejects_mismatch (root : string) (s : System) (cache : Cache) :
  disk s !! getCachePath root = Some (Parsed cache) →
  version cache ≠ CACHE_VERSION ∨ cache_projectRoot cache ≠ root →
  store (configure root s) = {| vectors := []; hashMap := ∅; isIndexed := false |}.
Proof.
  intros Hd Hbad. unfold configure.
  set (cleared := {| projectRoot := root; store := _; disk := disk s |}).
  destruct (loadIndex_cases cleared) as [->|(c & Hc & Hv & Hr & _)]; [done |].
  subst cleared. cbn [projectRoot disk] in Hc, Hr.
  rewrite Hd in Hc. injection Hc as <-. by destruct Hbad.
Qed.

(** C6: a cache whose version is not [CACHE_VERSION], or whose stored
    root is not the configured root, makes [loadIndex] return [false] and
    leave the whole state, the vector store included, as it was; and
    [configure] for that root then ends with an empty store that is not
    indexed, as it does without a cache file. *)
Theorem loadIndex_rejects_mismatch (s : System) (cache : Cache) :
  disk s !! getCachePath (projectRoot s) = Some (Parsed cache) →
  version cache ≠ CACHE_VERSION ∨ cache_projectRoot cache ≠ projectRoot s →
  loadIndex s = (false, s)
  ∧ store (configure (projectRoot s) s)
    = {| vectors := []; hashMap := ∅; isIndexed := false |}.
Proof.
  intros Hd Hbad. split.
  - destruct (loadIndex_cases s) as [Hno|(c & Hc & Hv & Hr & _)]; [done |].
    rewrite Hd in Hc. injection Hc as <-. by destruct Hbad.
  - by apply (configure_rejects_mismatch _ _ cache).
Qed.

(** *** Entries and the root they belong to *)







Lemma saveIndex_store (s : System) :
  store (saveIndex s) = store s ∧ projectRoot (saveIndex s) = projectRoot s.
Proof.
  unfold saveIndex.
  by destruct (negb (truthy (projectRoot s)) || (length (vectors (store s)) =? 0)).
Qed.







(** *** The file loop of [indexProject] *)

Section Scan.
Variables (root : string).

(** A fingerprint is only written under the relative path of a scanned
    file. *)
Lemma scan_hashes_other (force : bool) (files : list File) (acc : Scan) (k : string) :
  k ∉ map (λ f, path_relative root (fpath f)) files →
  hashes (fold_left (scanFile root force) files acc) !! k = hashes acc !! k.
Proof.
  revert acc. induction files as [|f files IH]; intros acc Hk; [done |].
  cbn [map] in Hk. apply not_elem_of_cons in Hk as [Hkf Hk].
  cbn [fold_left]. rewrite IH by done.
  unfold scanFile.
  destruct (negb force && bool_decide (hashes acc !! path_relative root (fpath f)
                                       = Some (computeHash f))); [done |].
  destruct (source f); [|done]. cbn [hashes].
  by apply lookup_insert_ne.
Qed.

(** After the loop, a file either has its fingerprint stored or could not
    be read. *)
Lemma scan_hashes_committed (force : bool) (files : list File) (acc : Scan) :
  NoDup (map (λ f, path_relative root (fpath f)) files) →
  Forall (λ f, hashes (fold_left (scanFile root force) files acc) !! path_relative root (fpath f)
               = Some (computeHash f)
               ∨ source f = None) files.
Proof.
  revert acc. induction files as [|f files IH]; intros acc Hnd; [constructor |].
  cbn [map] in Hnd. apply NoDup_cons in Hnd as [Hf Hnd].
  constructor; [|by apply IH].
  cbn [fold_left]. rewrite scan_hashes_other by done.
  unfold scanFile.
  destruct (negb force && bool_decide (hashes acc !! path_relative root (fpath f) = Some (computeHash f))) eqn:E.
  - left. apply andb_true_iff in E as [_ E]. by apply bool_decide_eq_true in E.
  - destruct (source f); [left | by right]. cbn [hashes]. apply lookup_insert_eq.
Qed.

(** With every readable file's fingerprint stored, the loop without
    [force] finds nothing to chunk and writes nothing. *)
Lemma scan_unchanged (files : list File) (acc : Scan) :
  Forall (λ f, hashes acc !! path_relative root (fpath f) = Some (computeHash f) ∨ source f = None) files →
  fold_left (scanFile root false) files acc
  = {| allChunks := allChunks acc; byExtension := byExtension acc;
       skipped := skipped acc + length files; hashes := hashes acc |}.
Proof.
  revert acc. induction files as [|f files IH]; intros acc Hall.
  - destruct acc. cbn. f_equal. lia.
  - apply Forall_cons in Hall as [Hf Hall]. cbn [fold_left length].
    assert (scanFile root false acc f
            = {| allChunks := allChunks acc; byExtension := byExtension acc;
                 skipped := skipped acc + 1; hashes := hashes acc |}) as ->.
    { unfold scanFile. cbn [negb andb].
      destruct (bool_decide (hashes acc !! path_relative root (fpath f) = Some (computeHash f))) eqn:E; [done |].
      destruct Hf as [Hf|Hf]; [by apply bool_decide_eq_false in E | by rewrite Hf]. }
    rewrite IH by done. cbn. f_equal. lia.
Qed.

End Scan.

(** What a resolved run leaves behind: the configured root, and the
    fingerprints of the file loop. *)
Lemma indexProject_resolved (force : bool) (files : list File) (s s1 : System)
    (r : IndexResult) :
  indexProject force files s = (Resolved r, s1) →
  truthy (projectRoot s) = true
  ∧ projectRoot s1 = projectRoot s
  ∧ hashMap (store s1)
    = hashes (scanFiles (projectRoot s) force
                (if force then ∅ else hashMap (store s)) files)
  ∧ total_chunks r = length (vectors (store s1)).
Proof.
  unfold indexProject. destruct (truthy (projectRoot s)); [|done]. cbn [negb].
  set (st0 := if force then _ else store s).
  assert (hashMap st0 = if force then ∅ else hashMap (store s)) as Hh
    by (by destruct force).
  rewrite <- Hh. clear Hh.
  set (scan := scanFiles (projectRoot s) force (hashMap st0) files).
  set (embedded := if 0 <? length (allChunks scan) then _ else _).
  destruct embedded as [st2|] eqn:Eemb; [|done].
  intros [= <- <-].
  match goal with |- context [saveIndex ?x] => destruct (saveIndex_store x) as [-> ->] end.
  cbn. repeat split; try done.
  subst embedded. destruct (0 <? length (allChunks scan)).
  - destruct (generateEmbeddings _); [|done]. by injection Eemb as <-.
  - by injection Eemb as <-.
Qed.

(** C2: after a run of [indexProject] that resolved, a second run without
    [force] over the same files (each at its own relative path) resolves
    with zero new chunks and leaves the vector store, hence its entry
    count, as it was. *)
Theorem indexProject_idempotent (force : bool) (files : list File) (s s1 : System)
    (r1 : IndexResult) :
  NoDup (map (λ f, path_relative (projectRoot s) (fpath f)) files) →
  indexProject force files s = (Resolved r1, s1) →
  ∃ r2 s2,
    indexProject false files s1 = (Resolved r2, s2)
    ∧ new_chunks r2 = 0
    ∧ total_chunks r2 = total_chunks r1
    ∧ vectors (store s2) = vectors (store s1)
    ∧ length (vectors (store s2)) = length (vectors (store s1)).
Proof.
  intros Hnd Hrun.
  destruct (indexProject_resolved _ _ _ _ _ Hrun) as (Hroot & Hr & Hh & Ht).
  assert (scanFiles (projectRoot s1) false (hashMap (store s1)) files
          = {| allChunks := []; byExtension := ∅;
               skipped := length files; hashes := hashMap (store s1) |}) as Hscan.
  { unfold scanFiles. rewrite scan_unchanged; [done |]. cbn [hashes].
    rewrite Hr, Hh. by apply scan_hashes_committed. }
  unfold indexProject. rewrite Hr, Hroot. cbn [negb].
  rewrite <- Hr, Hscan. cbn [allChunks length Nat.ltb Nat.leb hashes skipped byExtension].
  eexists _, _. split; [reflexivity |]. cbn [new_chunks total_chunks].
  match goal with |- context [saveIndex ?x] => destruct (saveIndex_store x) as [Hst _] end.
  rewrite Hst, Ht. by cbn.
Qed.

(** *** Replacing the entries of a file *)

(** [reindexFile] drops the entries filed under the path it is given and
    appends the new ones. *)
Lemma reindexFile_store (filepath_ : string) (f : File) (s s1 : System)
    (r : ReindexResult) :
  reindexFile filepath_ (Some f) s = (Resolved r, s1) →
  ∃ src embeddings,
    source f = Some src
    ∧ generateEmbeddings
        (map embedText (chunkFile (projectRoot s) (path_join (projectRoot s) filepath_) src))
      = Some embeddings
    ∧ vectors (store s1)
      = (filter (λ v, filepath (payload v) ≠ filepath_) (vectors (store s))
         ++ zip_with makeEntry
              (chunkFile (projectRoot s) (path_join (projectRoot s) filepath_) src)
              embeddings)%list
    ∧ hashMap (store s1) = <[filepath_ := computeHash f]> (hashMap (store s)).
Proof.
  unfold reindexFile. destruct (truthy (projectRoot s)); [|done]. cbn [negb].
  destruct (source f) as [src|]; [|done].
  destruct (generateEmbeddings _) as [embeddings|] eqn:Eemb; [|done].
  intros [= _ <-]. exists src, embeddings.
  match goal with |- context [saveIndex ?x] => destruct (saveIndex_store x) as [-> _] end.
  done.
Qed.

(** [indexProject] drops the entries filed under the paths of the new
    chunks and appends the new entries. *)
Lemma indexProject_store (files : list File) (s s1 : System) (r : IndexResult) :
  indexProject false files s = (Resolved r, s1) →
  let scan := scanFiles (projectRoot s) false (hashMap (store s)) files in
  allChunks scan = [] ∧ vectors (store s1) = vectors (store s)
  ∨ ∃ embeddings,
      generateEmbeddings (map embedText (allChunks scan)) = Some embeddings
      ∧ vectors (store s1)
        = (filter (λ v, filepath (payload v) ∉ map filepath (allChunks scan))
                  (vectors (store s))
           ++ zip_with makeEntry (allChunks scan) embeddings)%list.
Proof.
  cbv zeta. unfold indexProject.
  destruct (truthy (projectRoot s)); [|done]. cbn [negb].
  set (scan := scanFiles (projectRoot s) false (hashMap (store s)) files).
  intros Hrun.
  destruct (allChunks scan) as [|c cs] eqn:Echunks.
  - left. split; [done |]. cbn [length Nat.ltb Nat.leb] in Hrun.
    injection Hrun as _ <-.
    match goal with |- context [saveIndex ?x] => destruct (saveIndex_store x) as [-> _] end.
    done.
  - right. cbn [length Nat.ltb Nat.leb] in Hrun.
    destruct (generateEmbeddings _) as [embeddings|] eqn:Eemb; [|done].
    exists embeddings. split; [done |]. injection Hrun as _ <-.
    match goal with |- context [saveIndex ?x] => destruct (saveIndex_store x) as [-> _] end.
    done.
Qed.

Lemma makeEntry_filepath (cs : list Chunk) (embeddings : list (list float)) (p : string) :
  Forall (λ c, filepath c = p) cs →
  Forall (λ v, filepath (payload v) = p) (zip_with makeEntry cs embeddings).
Proof.
  intros Hcs. revert embeddings.
  induction Hcs as [|c cs Hc Hcs IH]; intros [|e embeddings]; try constructor; [done |].
  apply IH.
Qed.

Lemma filter_all {A} (P : A → Prop) `{∀ x, Decision (P x)} (l : list A) :
  Forall P l → filter P l = l.
Proof.
  induction 1 as [|x l Hx Hl IH]; [done |].
  by rewrite filter_cons_True, IH.
Qed.

Lemma filter_none {A} (P : A → Prop) `{∀ x, Decision (P x)} (l : list A) :
  Forall (λ x, ¬ P x) l → filter P l = [].
Proof.
  induction 1 as [|x l Hx Hl IH]; [done |].
  by rewrite filter_cons_False.
Qed.

Lemma filter_filter_keep {A} (P Q : A → Prop) `{∀ x, Decision (P x)}
    `{∀ x, Decision (Q x)} (l : list A) :
  (∀ x, P x → Q x) → filter P (filter Q l) = filter P l.
Proof.
  intros HPQ. induction l as [|x l IH]; [done |].
  destruct (decide (Q x)) as [Hq|Hq].
  - rewrite (filter_cons_True Q) by done.
    destruct (decide (P x)) as [Hp|Hp].
    + rewrite !(filter_cons_True P) by done. by rewrite IH.
    + rewrite !(filter_cons_False P) by done. exact IH.
  - rewrite (filter_cons_False Q) by done.
    rewrite (filter_cons_False P) by (intros Hp; by apply Hq, HPQ). exact IH.
Qed.

(** Upsert by [indexProject]: after a resolved run without [force], under
    a path that carries new chunks the store holds exactly the new
    entries; under any other path it holds what it held before. *)
Theorem indexProject_upsert (files : list File) (s s1 : System) (r : IndexResult)
    (p : string) :
  indexProject false files s = (Resolved r, s1) →
  let fresh := allChunks (scanFiles (projectRoot s) false (hashMap (store s)) files) in
  if bool_decide (p ∈ map filepath fresh) then
    ∃ embeddings,
      generateEmbeddings (map embedText fresh) = Some embeddings
      ∧ filter (λ v, filepath (payload v) = p) (vectors (store s1))
        = filter (λ v, filepath (payload v) = p) (zip_with makeEntry fresh embeddings)
  else
    filter (λ v, filepath (payload v) = p) (vectors (store s1))
    = filter (λ v, filepath (payload v) = p) (vectors (store s)).
Proof.
  intros Hrun fresh.
  destruct (indexProject_store _ _ _ _ Hrun) as [[Hnone Hv]|(embeddings & Hemb & Hv)].
  - fold fresh in Hnone. rewrite Hnone. cbn [map]. rewrite bool_decide_eq_false_2 by apply not_elem_of_nil.
    by rewrite Hv.
  - fold fresh in Hemb, Hv. rewrite Hv, filter_app. case_bool_decide as Hp.
    + exists embeddings. split; [done |].
      rewrite filter_none; [done |].
      apply Forall_forall. intros v Hin Hv'.
      apply list_elem_of_filter in Hin as [Hout _]. by rewrite Hv' in Hout.
    + rewrite (filter_none _ (zip_with _ _ _)).
      * rewrite app_nil_r. apply filter_filter_keep. by intros v ->.
      * assert (∀ cs es, Forall (λ c, filepath c ∈ map filepath fresh) cs →
                  Forall (λ v, filepath (payload v) ≠ p) (zip_with makeEntry cs es)) as Hz.
        { intros cs es Hcs. revert es.
          induction Hcs as [|c cs Hc Hcs IH]; intros [|e es]; try constructor; [|apply IH].
          cbn. by intros <-. }
        apply Hz. apply Forall_forall. intros c Hc. by apply list_elem_of_fmap_2.
Qed.

(** Upsert by [reindexFile]: when the path it is given is the relative
    path of the file it names, a resolved call leaves under that path
    exactly the entries of the new chunks, and leaves the entries of every
    other file as they were, in their order. *)
Theorem reindexFile_upsert (filepath_ : string) (f : File) (s s1 : System)
    (r : ReindexResult) :
  path_relative (projectRoot s) (path_join (projectRoot s) filepath_) = filepath_ →
  reindexFile filepath_ (Some f) s = (Resolved r, s1) →
  ∃ src embeddings,
    source f = Some src
    ∧ generateEmbeddings
        (map embedText (chunkFile (projectRoot s) (path_join (projectRoot s) filepath_) src))
      = Some embeddings
    ∧ filter (λ v, filepath (payload v) = filepath_) (vectors (store s1))
      = zip_with makeEntry
          (chunkFile (projectRoot s) (path_join (projectRoot s) filepath_) src) embeddings
    ∧ filter (λ v, filepath (payload v) ≠ filepath_) (vectors (store s1))
      = filter (λ v, filepath (payload v) ≠ filepath_) (vectors (store s)).
Proof.
  intros Hrel Hrun.
  destruct (reindexFile_store _ _ _ _ _ Hrun) as (src & embeddings & Hsrc & Hemb & Hv & _).
  exists src, embeddings. split; [done |]. split; [done |].
  pose proof (ChunkerFacts.chunkFile_filepath (projectRoot s)
                (path_join (projectRoot s) filepath_) src) as Hnew.
  rewrite Hrel in Hnew.
  apply (makeEntry_filepath _ embeddings) in Hnew.
  rewrite Hv, !filter_app. split.
  - rewrite (filter_all _ _ Hnew), filter_none; [done |].
    apply Forall_forall. intros v Hv'. by apply list_elem_of_filter in Hv' as [Hne _].
  - rewrite (filter_none (λ v, filepath (payload v) ≠ filepath_) (zip_with _ _ _)).
    + rewrite app_nil_r. apply filter_all.
      apply Forall_forall. intros v Hv'. by apply list_elem_of_filter in Hv' as [Hne _].
    + eapply Forall_impl; [exact Hnew |]. intros v Hp Hn. by apply Hn.
Qed.

(** A run whose embedding fails has already stored the fingerprints of
    the file loop, and has added no entry. *)
Lemma indexProject_rejected (files : list File) (s s1 : System) :
  indexProject false files s = (Rejected, s1) →
  hashMap (store s1)
  = hashes (scanFiles (projectRoot s) false (hashMap (store s)) files)
  ∧ vectors (store s1) = vectors (store s).
Proof.
  unfold indexProject. destruct (truthy (projectRoot s)); [|done]. cbn [negb].
  destruct (0 <? length _); [|done].
  destruct (generateEmbeddings _); [done |]. by intros [= <-].
Qed.

End Facts.

(** *** Examples on the project [/p] *)

Import Fixtures ProjectFixtures.

(** C1: once [a.txt] holds only blanks it gives no chunk, so
    [indexProject] does not count it among the re-indexed files: the
    stale chunk of [a.txt] stays in the store, the run reports
    [up_to_date], and the new fingerprint is stored, so that later runs
    skip the file. [reindexFile] on the same file does remove the chunk. *)
Theorem indexProject_keeps_stale_chunks :
  let after :=
    @indexProject posix noParsers unitEmbedder plainHash false blankWorld indexedOnce in
  contents (vectors (store indexedOnce)) = [("a.txt", "hello"); ("b.txt", "world")]
  ∧ @chunkFile posix "/p" noParsers "/p/a.txt" blank = []
  ∧ contents (vectors (store (snd after))) = [("a.txt", "hello"); ("b.txt", "world")]
  ∧ hashMap (store (snd after)) !! "a.txt" = Some blank
  ∧ (∃ r, fst after = Resolved r ∧ new_chunks r = 0 ∧ status r = "up_to_date")
  ∧ contents
      (vectors
         (store
            (snd (@reindexFile posix noParsers unitEmbedder plainHash "a.txt"
                    (Some (textFile "/p/a.txt" blank)) indexedOnce))))
    = [("b.txt", "world")].
Proof.
  cbv zeta. repeat split; try (vm_compute; reflexivity).
  eexists. repeat split; vm_compute; reflexivity.
Qed.

(** C5: when the embedder throws, the run is rejected with nothing added
    to the store, yet the fingerprints of both files are stored; the next
    run, with a working embedder, skips both files and the store stays
    empty. *)
Theorem indexProject_commits_before_embedding :
  let failed :=
    @indexProject posix noParsers brokenEmbedder plainHash false helloWorld configured in
  let retried :=
    @indexProject posix noParsers unitEmbedder plainHash false helloWorld (snd failed) in
  fst failed = Rejected
  ∧ vectors (store (snd failed)) = []
  ∧ hashMap (store configured) = ∅
  ∧ hashMap (store (snd failed)) = {["a.txt" := "hello"; "b.txt" := "world"]}
  ∧ (∃ r, fst retried = Resolved r ∧ new_chunks r = 0 ∧ result_skipped r = 2)
  ∧ vectors (store (snd retried)) = [].
Proof.
  cbv zeta. repeat split; try (vm_compute; reflexivity).
  eexists. repeat split; vm_compute; reflexivity.
Qed.

(** A second run over the two files of [/p]. *)
Lemma indexProject_idempotent_helloWorld :
  ∃ r2 s2,
    @indexProject posix noParsers unitEmbedder plainHash false helloWorld indexedOnce
    = (Resolved r2, s2)
    ∧ new_chunks r2 = 0
    ∧ total_chunks r2 = 2
    ∧ vectors (store s2) = vectors (store indexedOnce)
    ∧ length (vectors (store s2)) = length (vectors (store indexedOnce)).
Proof.
  refine (@indexProject_idempotent posix noParsers unitEmbedder plainHash
            false helloWorld configured indexedOnce
            {| status := "indexed"; total_files := 2; new_chunks := 2; total_chunks := 2;
               result_skipped := 0; by_extension := {[".txt" := 2]} |} _ _).
  - apply (bool_decide_unpack _). vm_compute. exact I.
  - vm_compute. reflexivity.
Defined.

(** [a.txt] of [/p] rewritten: a run of [indexProject] replaces its entry. *)
Lemma indexProject_upsert_a :
  let files := [textFile "/p/a.txt" "hello again"; textFile "/p/b.txt" "world"] in
  let after :=
    snd (@indexProject posix noParsers unitEmbedder plainHash false files indexedOnce) in
  let fresh :=
    allChunks (@scanFiles posix noParsers plainHash "/p" false
                 (hashMap (store indexedOnce)) files) in
  if bool_decide ("a.txt" ∈ map filepath fresh) then
    ∃ embeddings,
      @generateEmbeddings unitEmbedder (map embedText fresh) = Some embeddings
      ∧ filter (λ v, filepath (payload v) = "a.txt") (vectors (store after))
        = filter (λ v, filepath (payload v) = "a.txt") (zip_with makeEntry fresh embeddings)
  else
    filter (λ v, filepath (payload v) = "a.txt") (vectors (store after))
    = filter (λ v, filepath (payload v) = "a.txt") (vectors (store indexedOnce)).
Proof.
  cbv zeta.
  refine (@indexProject_upsert posix noParsers unitEmbedder plainHash
            [textFile "/p/a.txt" "hello again"; textFile "/p/b.txt" "world"]
            indexedOnce _
            {| status := "indexed"; total_files := 2; new_chunks := 1; total_chunks := 2;
               result_skipped := 1; by_extension := {[".txt" := 1]} |} "a.txt" _).
  vm_compute. reflexivity.
Defined.

(** [a.txt] of [/p] rewritten and re-indexed on its own. *)
Lemma reindexFile_upsert_a :
  ∃ src embeddings,
    source (textFile "/p/a.txt" "hello again") = Some src
    ∧ @generateEmbeddings unitEmbedder
        (map embedText (@chunkFile posix "/p" noParsers (@path_join posix "/p" "a.txt") src))
      = Some embeddings
    ∧ filter (λ v, filepath (payload v) = "a.txt")
        (vectors
           (store
              (snd (@reindexFile posix noParsers unitEmbedder plainHash "a.txt"
                      (Some (textFile "/p/a.txt" "hello again")) indexedOnce))))
      = zip_with makeEntry
          (@chunkFile posix "/p" noParsers (@path_join posix "/p" "a.txt") src) embeddings
    ∧ filter (λ v, filepath (payload v) ≠ "a.txt")
        (vectors
           (store
              (snd (@reindexFile posix noParsers unitEmbedder plainHash "a.txt"
                      (Some (textFile "/p/a.txt" "hello again")) indexedOnce))))
      = filter (λ v, filepath (payload v) ≠ "a.txt") (vectors (store indexedOnce)).
Proof.
  refine (@reindexFile_upsert posix noParsers unitEmbedder plainHash "a.txt"
            (textFile "/p/a.txt" "hello again") indexedOnce _
            {| file := "a.txt"; chunks := 1; reindex_total_chunks := 2 |} _ _).
  - vm_compute. reflexivity.
  - vm_compute. reflexivity.
Defined.

(** A cache written for [/q] and found under [/p] is rejected. *)
Lemma loadIndex_rejects_other_root :
  let moved :=
    {| projectRoot := "/p";
       store := {| vectors := []; hashMap := ∅; isIndexed := false |};
       disk := {[ @getCachePath posix "/p" :=
                    Parsed {| version := 1; cache_projectRoot := "/q";
                              cache_hashMap := ∅;
                              cache_vectors := vectors (store indexedOnce) |} ]} |} in
  @loadIndex posix moved = (false, moved)
  ∧ store (@configure posix (projectRoot moved) moved)
    = {| vectors := []; hashMap := ∅; isIndexed := false |}.
Proof.
  cbv zeta. eapply loadIndex_rejects_mismatch.
  - apply lookup_singleton_eq.
  - right. cbn. discriminate.
Defined.

(** Switching from [/p] to [/q] leaves nothing of [/p] in the store, and
    switching back loads what was saved for [/p]. *)
Example switch_project :
  contents
    (vectors
       (store
          (fst (@run posix noParsers unitEmbedder plainHash
                  [Configure "/p"; IndexProject false helloWorld; Configure "/q"]
                  initial [])))) = []
  ∧ contents
      (vectors
         (store
            (fst (@run posix noParsers unitEmbedder plainHash
                    [Configure "/p"; IndexProject false helloWorld; Configure "/q";
                     Configure "/p"]
                    initial [])))) = [("a.txt", "hello"); ("b.txt", "world")].
Proof. split; vm_compute; reflexivity. Qed.

End IndexerFacts.
(** ** Counters *)

Module CountFacts.
Import CountSpec.

Lemma sum_counts_bump (counts : gmap string nat) (k : string) (n : nat) :
  sum_counts (<[k := default 0 (counts !! k) + n]> counts) = sum_counts counts + n.
Proof.
  unfold sum_counts. set (f := λ (_ : string) (n acc : nat), n + acc).
  assert (∀ (m : gmap string nat) (x : nat),
            m !! k = None → map_fold f 0 (<[k := x]> m) = x + map_fold f 0 m) as Hins.
  { intros m x Hm. apply (map_fold_insert_L f); [|done]. intros. unfold f. lia. }
  destruct (counts !! k) as [v|] eqn:E; unfold default; cbn [from_option Datatypes.id].
  - assert (map_fold f 0 counts = v + map_fold f 0 (delete k counts)) as ->.
    { rewrite <- (Hins (delete k counts) v) by apply lookup_delete_eq.
      by rewrite insert_delete_id. }
    rewrite <- (insert_delete_eq counts), Hins by apply lookup_delete_eq. lia.
  - rewrite Hins by done. lia.
Qed.

End CountFacts.

(** ** The cache across restarts *)

Module PersistenceFacts.
Import Js JsLib Chunker Vec Indexer Trace IndexSpec CountSpec Queries JsFacts IndexerFacts CountFacts.

Section Facts.
Context `{NodePath} `{Parsers} `{Embedder} `{Sha256}.


Lemma saveIndex_empty (s : System) : vectors (store s) = [] → saveIndex s = s.
Proof.
  intros E. unfold saveIndex. rewrite E. simpl. by rewrite orb_true_r.
Qed.


Lemma configure_loads (root : string) (s : System) (cache : Cache) :
  truthy root = true →
  disk s !! getCachePath root = Some (Parsed cache) →
  version cache = CACHE_VERSION → cache_projectRoot cache = root →
  configure root s
  = {| projectRoot := root;
       store := {| vectors := cache_vectors cache;
                   hashMap := cache_hashMap cache;
                   isIndexed := true |};
       disk := disk s |}.
Proof.
  intros Hroot Hdisk Hv Hr. unfold configure, loadIndex. cbn [projectRoot disk].
  rewrite Hroot, Hdisk, Hv, Hr. cbn [negb].
  rewrite Z.eqb_refl, String.eqb_refl. reflexivity.
Qed.





(** [saveIndex] does not write an empty index: when a forced run finds
    nothing to index, the cache file stays as it was. *)
Lemma indexProject_nothing (files : list File) (s : System) :
  truthy (projectRoot s) = true →
  allChunks (scanFiles (projectRoot s) true ∅ files) = [] →
  ∃ r,
    indexProject true files s
    = (Resolved r,
       with_store {| vectors := [];
                     hashMap := hashes (scanFiles (projectRoot s) true ∅ files);
                     isIndexed := true |} s)
    ∧ total_chunks r = 0 ∧ new_chunks r = 0 ∧ status r = "indexed".
Proof.
  intros Hroot Hnone. unfold indexProject. rewrite Hroot. cbn [negb].
  cbn [hashMap]. rewrite Hnone. cbn [length Nat.ltb Nat.leb].
  rewrite saveIndex_empty by done.
  eexists. split; [reflexivity |]. done.
Qed.

(** A forced run over a project that has nothing left to index empties
    the store but leaves the cache file, so the next [configure] brings
    the old vectors and fingerprints back. *)
Theorem emptied_project_keeps_cache (files : list File) (s : System) (cache : Cache) :
  truthy (projectRoot s) = true →
  disk s !! getCachePath (projectRoot s) = Some (Parsed cache) →
  version cache = CACHE_VERSION → cache_projectRoot cache = projectRoot s →
  allChunks (scanFiles (projectRoot s) true ∅ files) = [] →
  ∃ r s1,
    indexProject true files s = (Resolved r, s1)
    ∧ total_chunks r = 0
    ∧ vectors (store s1) = []
    ∧ disk s1 = disk s
    ∧ store (configure (projectRoot s) s1)
      = {| vectors := cache_vectors cache;
           hashMap := cache_hashMap cache;
           isIndexed := true |}.
Proof.
  intros Hroot Hdisk Hv Hr Hnone.
  destruct (indexProject_nothing files s Hroot Hnone) as (r & Hrun & Htot & _).
  eexists _, _. split; [exact Hrun |]. split; [exact Htot |].
  split; [done |]. split; [done |].
  match goal with |- store (configure _ ?s1) = _ =>
    by rewrite (configure_loads (projectRoot s) s1 cache Hroot Hdisk Hv Hr) end.
Qed.

(** *** A forced run *)

Lemma scan_from_files (root : string) (force : bool) (known files : list File)
    (acc : Scan) (h : gmap string string) :
  files ⊆ known → from_files root known acc h →
  from_files root known (fold_left (scanFile root force) files acc) h.
Proof.
  revert acc. induction files as [|f files IH]; intros acc Hsub Hacc; [done |].
  cbn [fold_left]. apply IH; [set_solver |].
  assert (f ∈ known) as Hf by set_solver.
  destruct Hacc as [Hcs Hhs]. unfold scanFile.
  destruct (negb force && bool_decide _); [done |].
  destruct (source f) as [src|]; [|done].
  split; cbn [allChunks hashes].
  - apply Forall_app. split; [done |].
    eapply Forall_impl; [apply ChunkerFacts.chunkFile_filepath |].
    intros c Hc. by exists f.
  - intros k v Hk. destruct (decide (k = path_relative root (fpath f))) as [->|Hne].
    + rewrite lookup_insert_eq in Hk. injection Hk as <-. right. by exists f.
    + rewrite lookup_insert_ne in Hk by done. by apply Hhs.
Qed.

Lemma indexProject_forced (files : list File) (s s1 : System) (r : IndexResult) :
  indexProject true files s = (Resolved r, s1) →
  let scan := scanFiles (projectRoot s) true ∅ files in
  hashMap (store s1) = hashes scan
  ∧ (allChunks scan = [] ∧ vectors (store s1) = []
     ∨ ∃ embeddings,
         generateEmbeddings (map embedText (allChunks scan)) = Some embeddings
         ∧ vectors (store s1) = zip_with makeEntry (allChunks scan) embeddings).
Proof.
  cbv zeta. intros Hrun.
  destruct (indexProject_resolved true files s s1 r Hrun) as (_ & _ & Hh & _).
  split; [done |]. revert Hrun. unfold indexProject.
  destruct (truthy (projectRoot s)); [|done]. cbn [negb hashMap].
  set (scan := scanFiles (projectRoot s) true ∅ files).
  intros Hrun.
  destruct (allChunks scan) as [|c cs] eqn:Echunks.
  - left. split; [done |]. cbn [length Nat.ltb Nat.leb] in Hrun.
    injection Hrun as _ <-.
    match goal with |- context [saveIndex ?x] => destruct (saveIndex_store x) as [-> _] end.
    done.
  - right. cbn [length Nat.ltb Nat.leb] in Hrun.
    destruct (generateEmbeddings _) as [embeddings|] eqn:Eemb; [|done].
    exists embeddings. split; [done |]. injection Hrun as _ <-.
    match goal with |- context [saveIndex ?x] => destruct (saveIndex_store x) as [-> _] end.
    done.
Qed.

Lemma makeEntry_payload (cs : list Chunk) (embeddings : list (list float)) (v : Entry) :
  v ∈ zip_with makeEntry cs embeddings → payload v ∈ cs.
Proof.
  revert embeddings. induction cs as [|c cs IH]; intros [|e embeddings] Hv;
    try by apply elem_of_nil in Hv.
  cbn in Hv. apply elem_of_cons in Hv as [->|Hv]; [left | right; by eapply IH].
Qed.

(** After a resolved run with [force], every entry of the store is
    filed under the relative path of a file discovered by this run, and
    every fingerprint is that of such a file: nothing of an earlier state
    of the project is left. *)
Theorem forced_index_is_current (files : list File) (s s1 : System) (r : IndexResult) :
  indexProject true files s = (Resolved r, s1) →
  Forall (λ v, ∃ f, f ∈ files ∧ filepath (payload v) = path_relative (projectRoot s) (fpath f))
         (vectors (store s1))
  ∧ ∀ k h, hashMap (store s1) !! k = Some h →
           ∃ f, f ∈ files ∧ k = path_relative (projectRoot s) (fpath f) ∧ h = computeHash f.
Proof.
  intros Hrun. destruct (indexProject_forced files s s1 r Hrun) as [Hh Hv].
  assert (from_files (projectRoot s) files (scanFiles (projectRoot s) true ∅ files) ∅)
    as [Hcs Hhs].
  { apply scan_from_files; [done |]. split; [constructor |].
    intros k v Hk. by left. }
  split.
  - destruct Hv as [[_ ->]|(embeddings & _ & ->)]; [constructor |].
    apply Forall_forall. intros v Hv. apply makeEntry_payload in Hv.
    by apply (proj1 (Forall_forall _ _) Hcs).
  - intros k h Hk. rewrite Hh in Hk.
    destruct (Hhs k h Hk) as [Hempty|Hf]; [by rewrite lookup_empty in Hempty | done].
Qed.

(** *** The counters of a run *)

Lemma scan_counts (root : string) (force : bool) (files : list File) (acc : Scan) :
  sum_counts (byExtension acc) = length (allChunks acc) →
  let scan := fold_left (scanFile root force) files acc in
  sum_counts (byExtension scan) = length (allChunks scan)
  ∧ skipped scan ≤ skipped acc + length files.
Proof.
  cbv zeta. revert acc. induction files as [|f files IH]; intros acc Hacc; [simpl; lia |].
  cbn [fold_left length].
  assert (sum_counts (byExtension (scanFile root force acc f))
          = length (allChunks (scanFile root force acc f))
          ∧ skipped (scanFile root force acc f) ≤ skipped acc + 1) as [Hc Hs].
  { unfold scanFile. destruct (negb force && bool_decide _); [simpl; lia |].
    destruct (source f) as [src|]; [|simpl; lia].
    cbn [byExtension allChunks skipped]. rewrite sum_counts_bump, length_app. lia. }
  destruct (IH _ Hc) as [IH1 IH2]. split; [done | lia].
Qed.

(** In the result of a resolved run the counts of [by_extension] add
    up to [new_chunks], and [skipped] is at most [total_files]. *)
Theorem indexProject_counts (force : bool) (files : list File) (s s1 : System)
    (r : IndexResult) :
  indexProject force files s = (Resolved r, s1) →
  sum_counts (by_extension r) = new_chunks r ∧ result_skipped r ≤ total_files r.
Proof.
  unfold indexProject. destruct (truthy (projectRoot s)); [|done]. cbn [negb].
  match goal with |- context [match ?e with Some _ => _ | None => _ end] =>
    destruct e as [st2|] eqn:E end; [|done].
  intros [= <- _]. cbn [by_extension new_chunks result_skipped total_files].
  unfold scanFiles.
  match goal with |- context [fold_left _ files ?acc] =>
    destruct (scan_counts (projectRoot s) force files acc) as [Hc Hs] end; [done |].
  split; [done |]. simpl in Hs. lia.
Qed.

(** *** A failed [reindexFile] *)



(** [reindexFile] never marks the store as indexed: on a store that
    [indexProject] has not filled and no cache has loaded, [searchCode]
    still refuses after a resolved [reindexFile], whatever it added. *)
Theorem searchCode_needs_indexProject (filepath_ : string) (f : File) (s s1 : System)
    (r : ReindexResult) (query_ : string) (limit : option Z)
    (fileFilter extFilter : option string) :
  isIndexed (store s) = false →
  reindexFile filepath_ (Some f) s = (Resolved r, s1) →
  isIndexed (store s1) = false
  ∧ searchCode (store s1) query_ limit fileFilter extFilter
    = ErrorResult "Project not indexed yet. Run index_project first.".
Proof.
  intros Hno Hrun.
  assert (isIndexed (store s1) = false) as Hno1.
  { revert Hrun. unfold reindexFile. destruct (truthy (projectRoot s)); [|done]. cbn [negb].
    destruct (source f) as [src|]; [|done].
    destruct (generateEmbeddings _); [|done]. intros [= _ <-].
    match goal with |- context [saveIndex ?x] => destruct (saveIndex_store x) as [-> _] end.
    done. }
  split; [done |]. unfold searchCode. by rewrite Hno1.
Qed.

End Facts.

(** *** Examples on the project [/p] *)

Import Fixtures ProjectFixtures.



(** Both files of [/p] deleted, then a forced run and a restart. *)
Lemma emptied_project_keeps_cache_helloWorld :
  ∃ r s1,
    @indexProject posix noParsers unitEmbedder plainHash true [] indexedOnce = (Resolved r, s1)
    ∧ total_chunks r = 0
    ∧ vectors (store s1) = []
    ∧ disk s1 = disk indexedOnce
    ∧ store (@configure posix (projectRoot indexedOnce) s1)
      = {| vectors := vectors (store indexedOnce);
           hashMap := hashMap (store indexedOnce);
           isIndexed := true |}.
Proof.
  refine (@emptied_project_keeps_cache posix noParsers unitEmbedder plainHash
            [] indexedOnce
            {| version := 1; cache_projectRoot := "/p";
               cache_hashMap := hashMap (store indexedOnce);
               cache_vectors := vectors (store indexedOnce) |} _ _ _ _ _).
  - reflexivity.
  - vm_compute. reflexivity.
  - reflexivity.
  - reflexivity.
  - reflexivity.
Defined.

(** A forced run over the two files of [/p]. *)
Lemma forced_index_is_current_helloWorld :
  let s1 := snd (@indexProject posix noParsers unitEmbedder plainHash true helloWorld indexedOnce) in
  Forall (λ v, ∃ f, f ∈ helloWorld
                    ∧ filepath (payload v) = @path_relative posix (projectRoot indexedOnce) (fpath f))
         (vectors (store s1))
  ∧ ∀ k h, hashMap (store s1) !! k = Some h →
           ∃ f, f ∈ helloWorld
                ∧ k = @path_relative posix (projectRoot indexedOnce) (fpath f)
                ∧ h = @computeHash plainHash f.
Proof.
  cbv zeta.
  refine (@forced_index_is_current posix noParsers unitEmbedder plainHash
            helloWorld indexedOnce _
            {| status := "indexed"; total_files := 2; new_chunks := 2; total_chunks := 2;
               result_skipped := 0; by_extension := {[".txt" := 2]} |} _).
  vm_compute. reflexivity.
Defined.

(** The counters of the first run over [/p]. *)
Lemma indexProject_counts_helloWorld :
  sum_counts ({[".txt" := 2]} : gmap string nat) = 2 ∧ 0 ≤ 2.
Proof.
  refine (@indexProject_counts posix noParsers unitEmbedder plainHash
            false helloWorld configured indexedOnce
            {| status := "indexed"; total_files := 2; new_chunks := 2; total_chunks := 2;
               result_skipped := 0; by_extension := {[".txt" := 2]} |} _).
  vm_compute. reflexivity.
Defined.


(** [a.txt] re-indexed on the freshly configured [/p], then a search. *)
Lemma searchCode_needs_indexProject_a :
  let s1 :=
    snd (@reindexFile posix noParsers unitEmbedder plainHash "a.txt"
           (Some (textFile "/p/a.txt" "hello")) configured) in
  isIndexed (store s1) = false
  ∧ @searchCode unitEmbedder (store s1) "hello" None None None
    = ErrorResult "Project not indexed yet. Run index_project first.".
Proof.
  cbv zeta.
  refine (@searchCode_needs_indexProject posix noParsers unitEmbedder plainHash
            "a.txt" (textFile "/p/a.txt" "hello") configured _
            {| file := "a.txt"; chunks := 1; reindex_total_chunks := 1 |}
            "hello" None None None _ _).
  - reflexivity.
  - vm_compute. reflexivity.
Defined.

End PersistenceFacts.

(** ** The line diff and the snapshots *)

Module SnapshotFacts.
Import Js JsLib Indexer Searcher Queries DiffSpec SnapshotSpec JsFacts SearcherFacts.

(** *** [simpleDiff] *)

Lemma aligned_nil (a b : option string) : aligned a b = [] ↔ a = b.
Proof.
  destruct a as [x|], b as [y|]; cbn; try done.
  destruct (String.eqb x y) eqn:E.
  - apply String.eqb_eq in E as ->. done.
  - apply String.eqb_neq in E. split; [done | congruence].
Qed.

Lemma flat_map_nil {A B} (f : A → list B) (l : list A) :
  flat_map f l = [] ↔ Forall (λ x, f x = []) l.
Proof.
  induction l as [|x l IH]; cbn; [by split |].
  split.
  - intros Happ. apply app_eq_nil in Happ as [Hx Hl]. constructor; [done | by apply IH].
  - intros Hall. apply Forall_cons in Hall as [-> Hl]. by apply IH.
Qed.

(** The diff of two contents consists of its two header lines alone
    exactly when the contents are the same. *)
Theorem simpleDiff_identical_iff (oldLines newLines : list string) (oldLabel newLabel : string) :
  simpleDiff oldLines newLines oldLabel newLabel = ["--- " +:+ oldLabel; "+++ " +:+ newLabel]
  ↔ oldLines = newLines.
Proof.
  unfold simpleDiff. cbn [app].
  split.
  - intros [= Hnil]. apply flat_map_nil in Hnil.
    apply list_eq. intros i.
    destruct (decide (i < Nat.max (length oldLines) (length newLines))) as [Hlt|Hge].
    + assert (i ∈ seq 0 (Nat.max (length oldLines) (length newLines))) as Hin
        by (apply elem_of_seq; lia).
      pose proof (proj1 (Forall_forall _ _) Hnil i Hin) as Hi. cbn in Hi.
      rewrite diffStep_aligned in Hi. by apply aligned_nil.
    + rewrite !(proj2 (lookup_ge_None _ _)) by lia. done.
  - intros ->. do 2 f_equal. apply flat_map_nil. apply Forall_forall. intros i _.
    rewrite diffStep_aligned. by apply aligned_nil.
Qed.

(** *** [fileDiff] *)

(** What a resolved [fileDiff] has compared. *)
Lemma fileDiff_resolved (root filepath_ : string)
    (snapshotDir : option (list (string * string))) (live : option string)
    (oldIndex newIndex : Z) (r : DiffResult) :
  fileDiff root filepath_ snapshotDir live oldIndex newIndex = Resolved r →
  ∃ listing oldName oldText newLabel newText,
    snapshotDir = Some listing
    ∧ at_index (ordered (map fst listing)) oldIndex = Some oldName
    ∧ contentOf listing oldName = Some oldText
    ∧ (newIndex = (-1)%Z ∧ live = Some newText ∧ newLabel = filepath_ +:+ " (live)"
       ∨ newIndex ≠ (-1)%Z
         ∧ at_index (ordered (map fst listing)) newIndex = Some newLabel
         ∧ contentOf listing newLabel = Some newText)
    ∧ let diffLines := simpleDiff (split oldText) (split newText) oldName newLabel in
      r = {| diff_file := filepath_;
             additions :=
               count (λ l, startsWith l "+" && negb (startsWith l "+++")) diffLines;
             deletions :=
               count (λ l, startsWith l "-" && negb (startsWith l "---")) diffLines;
             diff_text :=
               let joined := join nl diffLines in
               if truthy joined then joined else "(no changes)" |}.
Proof.
  unfold fileDiff. destruct (truthy root); [|done]. cbn [negb].
  destruct snapshotDir as [listing|]; [|done].
  fold (ordered (map fst listing)).
  destruct (length (ordered (map fst listing)) =? 0); [done |].
  destruct (Z.of_nat (length (ordered (map fst listing))) <=? oldIndex)%Z; [done |].
  destruct (at_index (ordered (map fst listing)) oldIndex) as [oldName|] eqn:Eold; [|done].
  cbn [mbind option_bind]. fold (contentOf listing oldName).
  destruct (contentOf listing oldName) as [oldText|] eqn:Ecold; [|done].
  cbn [fmap option_fmap option_map].
  destruct (newIndex =? -1)%Z eqn:Enew.
  - apply Z.eqb_eq in Enew. destruct live as [liveText|]; [|done].
    intros [= <-]. exists listing, oldName, oldText, (filepath_ +:+ " (live)"), liveText.
    repeat split; try done. by left.
  - apply Z.eqb_neq in Enew.
    destruct (Z.of_nat (length (ordered (map fst listing))) <=? newIndex)%Z; [done |].
    destruct (at_index (ordered (map fst listing)) newIndex) as [newName|] eqn:Enw; [|done].
    cbn [mbind option_bind]. fold (contentOf listing newName).
    destruct (contentOf listing newName) as [newText|] eqn:Ecnew; [|done].
    cbn [fmap option_fmap option_map].
    intros [= <-]. exists listing, oldName, oldText, newName, newText.
    repeat split; try done. by right.
Qed.

Lemma simpleDiff_headers (oldLines newLines : list string) (oldLabel newLabel : string) :
  ∃ rest, join nl (simpleDiff oldLines newLines oldLabel newLabel)
          = "--- " +:+ oldLabel +:+ nl +:+ "+++ " +:+ newLabel +:+ rest.
Proof.
  unfold simpleDiff. cbn [app].
  destruct (flat_map _ _) as [|l ls].
  - exists "". cbn [join]. by rewrite sapp_nil_r, <- !sapp_assoc.
  - exists (nl +:+ join nl (l :: ls)).
    rewrite join_cons by done. rewrite join_cons by done.
    by rewrite <- !sapp_assoc.
Qed.

(** The text of a resolved diff always opens with the two header
    lines, naming the old snapshot and what it is compared with; so it is
    never the text [(no changes)], not even for equal contents. *)
Theorem fileDiff_text_has_headers (root filepath_ : string)
    (snapshotDir : option (list (string * string))) (live : option string)
    (oldIndex newIndex : Z) (r : DiffResult) :
  fileDiff root filepath_ snapshotDir live oldIndex newIndex = Resolved r →
  diff_text r ≠ "(no changes)"
  ∧ ∃ oldName newLabel rest,
      (∃ listing, snapshotDir = Some listing
                  ∧ at_index (ordered (map fst listing)) oldIndex = Some oldName)
      ∧ diff_text r = "--- " +:+ oldName +:+ nl +:+ "+++ " +:+ newLabel +:+ rest.
Proof.
  intros Hrun.
  destruct (fileDiff_resolved _ _ _ _ _ _ _ Hrun)
    as (listing & oldName & oldText & newLabel & newText & -> & Hold & _ & _ & ->).
  cbv zeta. cbn [diff_text].
  destruct (simpleDiff_headers (split oldText) (split newText) oldName newLabel) as [rest Hj].
  rewrite Hj. cbn [String.append truthy]. split; [done |].
  exists oldName, newLabel, rest. split; [by exists listing | done].
Qed.

Lemma filter_flat_map {A B} (p : B → bool) (f : A → list B) (l : list A) :
  List.filter p (flat_map f l) = flat_map (λ x, List.filter p (f x)) l.
Proof.
  induction l as [|x l IH]; [done |]. cbn. by rewrite List.filter_app, IH.
Qed.

Lemma length_flat_map_ext {A B C} (f : A → list B) (g : A → list C) (l : list A) :
  (∀ x, length (f x) = length (g x)) →
  length (flat_map f l) = length (flat_map g l).
Proof.
  intros Hfg. induction l as [|x l IH]; [done |]. cbn. by rewrite !length_app, Hfg, IH.
Qed.

Lemma flat_map_seq_beyond {B} (f : nat → list B) (n m : nat) :
  n ≤ m → (∀ i, n ≤ i → f i = []) →
  flat_map f (seq 0 m) = flat_map f (seq 0 n).
Proof.
  intros Hle Hnil. replace m with (n + (m - n)) by lia.
  rewrite seq_app, flat_map_app. cbn.
  assert (flat_map f (seq n (m - n)) = []) as ->; [|by rewrite app_nil_r].
  apply flat_map_nil. apply Forall_forall. intros i Hi.
  apply elem_of_seq in Hi. apply Hnil. lia.
Qed.

(** The lines of [b] that [simpleDiff] marks with [sign], counted unless
    they start with the sign doubled. *)
Lemma count_marked (sign : ascii) (f : nat → list string) (a b : list string) (n : nat) :
  length b ≤ n →
  (∀ i, List.filter (λ l, startsWith l (String sign "")
                          && negb (startsWith l (String sign (String sign (String sign "")))))
                    (f i)
        = match b !! i with
          | Some y =>
              if bool_decide (a !! i = Some y) then []
              else if startsWith y (String sign (String sign "")) then []
                   else [String sign y]
          | None => []
          end) →
  count (λ l, startsWith l (String sign "")
              && negb (startsWith l (String sign (String sign (String sign "")))))
        (flat_map f (seq 0 n))
  = length (List.filter (λ y, negb (startsWith y (String sign (String sign ""))))
                        (changed a b)).
Proof.
  intros Hn Hf. unfold count, changed. rewrite !filter_flat_map.
  rewrite (flat_map_seq_beyond _ (length b) n); [| done |].
  - apply length_flat_map_ext. intros i. rewrite Hf.
    destruct (b !! i) as [y|]; [|done].
    destruct (bool_decide (a !! i = Some y)); [done |]. cbn [List.filter].
    by destruct (startsWith y _).
  - intros i Hi. rewrite Hf. by rewrite (proj2 (lookup_ge_None _ _)) by lia.
Qed.

Lemma startsWith_nil (s : string) : startsWith s "" = true.
Proof. by destruct s. Qed.

Lemma startsWith_cons (c d : ascii) (s p : string) :
  startsWith (String c s) (String d p) = Ascii.eqb d c && startsWith s p.
Proof. reflexivity. Qed.

(** [fileDiff] counts as additions the lines of the new content that
    differ from the old line at the same index or lie past the end of the
    old content, except those that start with two plus signs; and as
    deletions the lines of the old content that differ or lie past the
    end of the new one, except those that start with two minus signs. *)
Theorem fileDiff_counts (root filepath_ : string)
    (snapshotDir : option (list (string * string))) (live : option string)
    (oldIndex newIndex : Z) (r : DiffResult) :
  fileDiff root filepath_ snapshotDir live oldIndex newIndex = Resolved r →
  ∃ listing oldName oldText newText,
    snapshotDir = Some listing
    ∧ at_index (ordered (map fst listing)) oldIndex = Some oldName
    ∧ contentOf listing oldName = Some oldText
    ∧ (newIndex = (-1)%Z ∧ live = Some newText
       ∨ newIndex ≠ (-1)%Z
         ∧ ∃ newName, at_index (ordered (map fst listing)) newIndex = Some newName
                      ∧ contentOf listing newName = Some newText)
    ∧ additions r
      = length (List.filter (λ y, negb (startsWith y "++"))
                            (changed (split oldText) (split newText)))
    ∧ deletions r
      = length (List.filter (λ x, negb (startsWith x "--"))
                            (changed (split newText) (split oldText))).
Proof.
  intros Hrun.
  destruct (fileDiff_resolved _ _ _ _ _ _ _ Hrun)
    as (listing & oldName & oldText & newLabel & newText & -> & Hold & Hcold & Hnew & ->).
  exists listing, oldName, oldText, newText. cbv zeta. cbn [additions deletions].
  split; [done |]. split; [done |]. split; [done |].
  split; [destruct Hnew as [(? & ? & _)|(? & ? & ?)]; [by left | right; eauto] |].
  unfold simpleDiff.
  set (old := split oldText). set (new := split newText).
  split.
  - unfold count at 1. cbn [app List.filter startsWith].
    change (length (List.filter ?p ?l)) with (count p l).
    apply (count_marked "+" _ old new); [lia |].
    intros i. rewrite diffStep_aligned.
    destruct (old !! i) as [o|], (new !! i) as [n|]; cbn [aligned]; try done.
    + destruct (String.eqb o n) eqn:E.
      * apply String.eqb_eq in E as ->. by rewrite bool_decide_eq_true_2.
      * apply String.eqb_neq in E. rewrite bool_decide_eq_false_2 by congruence.
        cbn [List.filter]. change ("+" +:+ n) with (String "+" n).
        change ("-" +:+ o) with (String "-" o).
        rewrite !startsWith_cons. cbn [Ascii.eqb Bool.eqb andb].
        rewrite startsWith_nil. by destruct (startsWith n "++").
    + rewrite bool_decide_eq_false_2 by done.
      cbn [List.filter]. change ("+" +:+ n) with (String "+" n).
      rewrite !startsWith_cons. cbn [Ascii.eqb Bool.eqb andb].
      rewrite startsWith_nil. by destruct (startsWith n "++").
  - unfold count at 1. cbn [app List.filter startsWith].
    change (length (List.filter ?p ?l)) with (count p l).
    apply (count_marked "-" _ new old); [lia |].
    intros i. rewrite diffStep_aligned.
    destruct (old !! i) as [o|], (new !! i) as [n|]; cbn [aligned]; try done.
    + destruct (String.eqb o n) eqn:E.
      * apply String.eqb_eq in E as ->. by rewrite bool_decide_eq_true_2.
      * apply String.eqb_neq in E. rewrite bool_decide_eq_false_2 by congruence.
        cbn [List.filter]. change ("+" +:+ n) with (String "+" n).
        change ("-" +:+ o) with (String "-" o).
        rewrite !startsWith_cons. cbn [Ascii.eqb Bool.eqb andb].
        rewrite startsWith_nil. by destruct (startsWith o "--").
    + rewrite bool_decide_eq_false_2 by done.
      cbn [List.filter]. change ("-" +:+ o) with (String "-" o).
      rewrite !startsWith_cons. cbn [Ascii.eqb Bool.eqb andb].
      rewrite startsWith_nil. by destruct (startsWith o "--").
Qed.

(** *** [fileHistory] *)

Lemma ltb_leb (a b : string) : String.ltb b a = false ↔ String.leb a b = true.
Proof.
  unfold String.ltb, String.leb. rewrite (String.compare_antisym a b).
  destruct (String.compare b a); cbn; split; done.
Qed.

Lemma sortDefault_insert_perm (x : string) (l : list string) :
  Permutation (sortDefault_insert x l) (x :: l).
Proof.
  induction l as [|y l IH]; cbn; [done |].
  destruct (String.ltb y x); [|done].
  rewrite IH. apply perm_swap.
Qed.

Lemma sortDefault_perm (l : list string) : Permutation (sortDefault l) l.
Proof.
  induction l as [|x l IH]; cbn; [done |].
  rewrite sortDefault_insert_perm. by constructor.
Qed.

Lemma sortDefault_insert_sorted (x : string) (l : list string) :
  Sorted (λ a b, String.leb a b = true) l →
  Sorted (λ a b, String.leb a b = true) (sortDefault_insert x l).
Proof.
  induction 1 as [|y l Hl IH Hhd]; cbn; [by repeat constructor |].
  destruct (String.ltb y x) eqn:E.
  - constructor; [done |].
    destruct l as [|z l]; cbn.
    + constructor. unfold String.ltb in E. unfold String.leb.
      by destruct (String.compare y x).
    + destruct (String.ltb z x).
      * constructor. by inversion Hhd.
      * constructor. unfold String.ltb in E. unfold String.leb.
        by destruct (String.compare y x).
  - constructor; [by constructor |]. constructor. by apply ltb_leb.
Qed.

Lemma sortDefault_sorted (l : list string) :
  Sorted (λ a b, String.leb a b = true) (sortDefault l).
Proof.
  induction l as [|x l IH]; cbn; [constructor |]. by apply sortDefault_insert_sorted.
Qed.

Lemma Sorted_snoc {A} (R : A → A → Prop) (l : list A) (x : A) :
  Sorted R l → (∀ y, last l = Some y → R y x) → Sorted R (l ++ [x]).
Proof.
  induction 1 as [|y l Hl IH Hhd]; intros Hlast; cbn; [by repeat constructor |].
  constructor.
  - apply IH. intros z Hz. apply Hlast. destruct l; [done | exact Hz].
  - destruct l as [|z l]; cbn.
    + constructor. by apply Hlast.
    + constructor. by inversion Hhd.
Qed.

Lemma Sorted_rev {A} (R : A → A → Prop) (l : list A) :
  Sorted R l → Sorted (λ a b, R b a) (rev l).
Proof.
  induction 1 as [|y l Hl IH Hhd]; cbn; [constructor |].
  apply Sorted_snoc; [done |]. intros z Hz.
  destruct l as [|w l]; [done |]. cbn [rev] in Hz. rewrite last_snoc in Hz.
  injection Hz as <-. by inversion Hhd.
Qed.

(** The order in which snapshots are numbered: the names ending in
    [.snapshot], each once for each time it is listed, from the greatest
    down. *)
Lemma ordered_spec (names : list string) :
  descending (ordered names)
  ∧ Permutation (ordered names) (List.filter (λ f, endsWith f ".snapshot") names).
Proof.
  unfold descending, ordered. split.
  - apply (Sorted_rev (λ a b, String.leb a b = true)). apply sortDefault_sorted.
  - rewrite <- Permutation_rev. apply sortDefault_perm.
Qed.

Lemma at_index_fmap {A B} (f : A → B) (l : list A) (i : Z) :
  at_index (f <$> l) i = f <$> at_index l i.
Proof. unfold at_index. destruct (i <? 0)%Z; [done |]. apply list_lookup_fmap. Qed.

Section History.
Context `{NodePath}.

Lemma fileHistory_resolved (root filepath_ : string)
    (snapshotDir : option (list (string * option Stat))) (h : History) :
  fileHistory root filepath_ snapshotDir = Resolved h →
  filename <$> snapshots h = ordered (map fst (default [] snapshotDir))
  ∧ history_total h = length (snapshots h)
  ∧ history_file h = filepath_
  ∧ Forall (λ i, contentOf (default [] snapshotDir) (filename i)
                 = Some (Some {| stat_mtime := timestamp i; stat_size := size_bytes i |}))
           (snapshots h).
Proof.
  unfold fileHistory. destruct (truthy root); [|done]. cbn [negb].
  fold (ordered (map fst (default [] snapshotDir))).
  set (info := λ entry : string, _).
  destruct (mapM info _) as [found|] eqn:E; [|done].
  intros [= <-]. cbn [snapshots history_total history_file].
  apply mapM_Some in E. split; [|split; [done | split; [done |]]].
  - induction E as [|entry i entries found Hi _ IH]; [done |].
    cbn. f_equal; [|done]. unfold info in Hi.
    destruct (List.find _ _ ≫= snd) as [stat|]; [|done].
    by injection Hi as <-.
  - clear -E. induction E as [|entry i entries found Hi _ IH]; [done |].
    constructor; [|done]. unfold info in Hi.
    destruct (List.find _ _) as [[n st]|] eqn:Ef; [|done]. cbn in Hi.
    destruct st as [[m sz]|]; [|done]. injection Hi as <-.
    cbn [filename timestamp size_bytes]. unfold contentOf. by rewrite Ef.
Qed.

(** The snapshots [fileHistory] lists are exactly the entries of the
    snapshot directory whose name ends in [.snapshot], ordered from the
    greatest name down, each with the time and size of its own
    [statSync]; [total] is their number, and a missing directory gives an
    empty history. *)
Theorem fileHistory_lists_snapshots (root filepath_ : string)
    (snapshotDir : option (list (string * option Stat))) (h : History) :
  fileHistory root filepath_ snapshotDir = Resolved h →
  let listing := default [] snapshotDir in
  descending (filename <$> snapshots h)
  ∧ Permutation (filename <$> snapshots h)
                (List.filter (λ f, endsWith f ".snapshot") (map fst listing))
  ∧ history_total h = length (snapshots h)
  ∧ Forall (λ i, contentOf listing (filename i)
                 = Some (Some {| stat_mtime := timestamp i; stat_size := size_bytes i |}))
           (snapshots h).
Proof.
  intros Hrun. cbv zeta.
  destruct (fileHistory_resolved _ _ _ _ Hrun) as (-> & Htot & _ & Hstat).
  destruct (ordered_spec (map fst (default [] snapshotDir))) as [Hd Hp].
  done.
Qed.

(** [fileHistory] and [fileDiff] number the snapshots alike: the
    snapshot a resolved [fileDiff] takes as [oldIndex] is the entry of
    that index in the history, named in the first header line, and so is
    the one at [newIndex] unless that is -1. *)
Theorem fileDiff_indexes_history (root filepath_ : string)
    (stats : list (string * option Stat)) (contents : list (string * string))
    (live : option string) (oldIndex newIndex : Z) (h : History) (r : DiffResult) :
  map fst stats = map fst contents →
  fileHistory root filepath_ (Some stats) = Resolved h →
  fileDiff root filepath_ (Some contents) live oldIndex newIndex = Resolved r →
  ∃ old newLabel rest,
    at_index (snapshots h) oldIndex = Some old
    ∧ diff_text r = "--- " +:+ filename old +:+ nl +:+ "+++ " +:+ newLabel +:+ rest
    ∧ (newIndex = (-1)%Z ∧ newLabel = filepath_ +:+ " (live)"
       ∨ ∃ new, at_index (snapshots h) newIndex = Some new ∧ newLabel = filename new).
Proof.
  intros Hnames Hhist Hdiff.
  destruct (fileHistory_resolved _ _ _ _ Hhist) as (Hord & _).
  cbn [default from_option] in Hord. unfold Datatypes.id in Hord. rewrite Hnames in Hord.
  destruct (fileDiff_resolved _ _ _ _ _ _ _ Hdiff)
    as (listing & oldName & oldText & newLabel & newText & [= <-] & Hold & _ & Hnew & ->).
  rewrite <- Hord, at_index_fmap in Hold.
  destruct (at_index (snapshots h) oldIndex) as [old|]; [|done].
  injection Hold as <-.
  cbv zeta. cbn [diff_text].
  destruct (simpleDiff_headers (split oldText) (split newText) (filename old) newLabel)
    as [rest Hj].
  rewrite Hj. cbn [String.append truthy].
  exists old, newLabel, rest. split; [done |]. split; [done |].
  destruct Hnew as [(-> & _ & ->)|(_ & Hnw & _)]; [by left | right].
  rewrite <- Hord, at_index_fmap in Hnw.
  destruct (at_index (snapshots h) newIndex) as [new|]; [|done].
  injection Hnw as <-. by exists new.
Qed.

End History.

(** *** Examples on two snapshots *)

Import Fixtures ToolFixtures.

(** The older snapshot against the newer one. *)
Lemma fileDiff_text_has_headers_two :
  ∃ r, fileDiff "/p" "a.txt" (Some snapshotContents) None 1 0 = Resolved r
       ∧ diff_text r ≠ "(no changes)"
       ∧ ∃ oldName newLabel rest,
           (∃ listing, Some snapshotContents = Some listing
                       ∧ at_index (ordered (map fst listing)) 1 = Some oldName)
           ∧ diff_text r = "--- " +:+ oldName +:+ nl +:+ "+++ " +:+ newLabel +:+ rest.
Proof.
  eexists. split; [vm_compute; reflexivity |].
  apply (fileDiff_text_has_headers "/p" "a.txt" (Some snapshotContents) None 1 0).
  vm_compute. reflexivity.
Defined.

(** The same diff: of the two new lines, the one that starts with two
    plus signs is not counted. *)
Lemma fileDiff_counts_two :
  ∃ r, fileDiff "/p" "a.txt" (Some snapshotContents) None 1 0 = Resolved r
       ∧ additions r = 1 ∧ deletions r = 1
       ∧ ∃ listing oldName oldText newText,
           Some snapshotContents = Some listing
           ∧ at_index (ordered (map fst listing)) 1 = Some oldName
           ∧ contentOf listing oldName = Some oldText
           ∧ (0%Z = (-1)%Z ∧ None = Some newText
              ∨ 0%Z ≠ (-1)%Z
                ∧ ∃ newName, at_index (ordered (map fst listing)) 0 = Some newName
                             ∧ contentOf listing newName = Some newText)
           ∧ additions r
             = length (List.filter (λ y, negb (startsWith y "++"))
                                   (changed (split oldText) (split newText)))
           ∧ deletions r
             = length (List.filter (λ x, negb (startsWith x "--"))
                                   (changed (split newText) (split oldText))).
Proof.
  eexists. split; [vm_compute; reflexivity |]. split; [reflexivity |]. split; [reflexivity |].
  apply (fileDiff_counts "/p" "a.txt" (Some snapshotContents) None 1 0).
  vm_compute. reflexivity.
Defined.

(** The history of the same directory. *)
Lemma fileHistory_lists_snapshots_two :
  ∃ h, @fileHistory posix "/p" "a.txt" (Some snapshotStats) = Resolved h
       ∧ (filename <$> snapshots h) = [newer; older]
       ∧ descending (filename <$> snapshots h)
       ∧ Permutation (filename <$> snapshots h)
                     (List.filter (λ f, endsWith f ".snapshot") (map fst snapshotStats))
       ∧ history_total h = length (snapshots h)
       ∧ Forall (λ i, contentOf snapshotStats (filename i)
                      = Some (Some {| stat_mtime := timestamp i; stat_size := size_bytes i |}))
                (snapshots h).
Proof.
  eexists. split; [vm_compute; reflexivity |]. split; [reflexivity |].
  apply (@fileHistory_lists_snapshots posix "/p" "a.txt" (Some snapshotStats)).
  vm_compute. reflexivity.
Defined.

(** The history and the diff of the same directory. *)
Lemma fileDiff_indexes_history_two :
  ∃ h r,
    @fileHistory posix "/p" "a.txt" (Some snapshotStats) = Resolved h
    ∧ fileDiff "/p" "a.txt" (Some snapshotContents) None 1 0 = Resolved r
    ∧ ∃ old newLabel rest,
        at_index (snapshots h) 1 = Some old
        ∧ diff_text r = "--- " +:+ filename old +:+ nl +:+ "+++ " +:+ newLabel +:+ rest
        ∧ (0%Z = (-1)%Z ∧ newLabel = "a.txt" +:+ " (live)"
           ∨ ∃ new, at_index (snapshots h) 0 = Some new ∧ newLabel = filename new).
Proof.
  eexists _, _. split; [vm_compute; reflexivity |]. split; [vm_compute; reflexivity |].
  apply (@fileDiff_indexes_history posix "/p" "a.txt" snapshotStats snapshotContents None 1 0).
  - reflexivity.
  - vm_compute. reflexivity.
  - vm_compute. reflexivity.
Defined.

End SnapshotFacts.

(** ** File discovery *)

Module DiscoverFacts.
Import Js JsLib Discover DiscoverSpec JsFacts.

(** Induction on a directory tree. *)
Lemma Dirent_tree_ind (P : Dirent → Prop) :
  (∀ name, P (Directory name None)) →
  (∀ name entries, Forall P entries → P (Directory name (Some entries))) →
  (∀ name size, P (RegularFile name size)) →
  (∀ name, P (Other name)) →
  ∀ entry, P entry.
Proof.
  intros Hnone Hdir Hfile Hother. fix IH 1.
  intros [name [entries|]|name size|name].
  - apply Hdir. induction entries as [|e entries IHes]; constructor; [apply IH | exact IHes].
  - apply Hnone.
  - apply Hfile.
  - apply Hother.
Qed.

Lemma elem_of_flat_map {A B} (f : A → list B) (l : list A) (y : B) :
  y ∈ flat_map f l ↔ ∃ x, x ∈ l ∧ y ∈ f x.
Proof.
  induction l as [|x l IH]; cbn.
  - split; [intros Hy; by apply elem_of_nil in Hy | intros (x & Hx & _); by apply elem_of_nil in Hx].
  - rewrite elem_of_app, IH. split.
    + intros [Hy|(x' & Hx' & Hy)]; [exists x; split; [left | done] | exists x'; split; [by right | done]].
    + intros (x' & Hx' & Hy). apply elem_of_cons in Hx' as [->|Hx']; [by left | right; eauto].
Qed.

Section Facts.
Context `{NodePath}.
Variables (includeExt skipped : gset string) (maxSize : nat).

Lemma walkEntry_located (entry : Dirent) :
  ∀ (dir : string) (entries : list Dirent) (path : string),
    entry ∈ entries → path ∈ walkEntry includeExt skipped maxSize dir entry →
    located includeExt skipped maxSize dir entries path.
Proof.
  induction entry as [name|name sub IH|name size|name] using Dirent_tree_ind;
    intros dir entries path Hin Hpath; cbn [walkEntry] in Hpath.
  - destruct (negb _ && negb _); by apply elem_of_nil in Hpath.
  - destruct (bool_decide (name ∈ skipped)) eqn:Eskip; [by apply elem_of_nil in Hpath |].
    destruct (startsWith name ".") eqn:Edot; [by apply elem_of_nil in Hpath |].
    cbn [negb andb] in Hpath.
    apply elem_of_flat_map in Hpath as (e & He & Hpath).
    apply bool_decide_eq_false in Eskip.
    eapply located_below; [exact Hin | done | done |].
    by apply (proj1 (Forall_forall _ _) IH e He).
  - destruct (bool_decide (toLowerCase (path_extname name) ∈ includeExt)) eqn:Eext;
      [|by apply elem_of_nil in Hpath].
    cbn [negb] in Hpath. destruct size as [n|]; [|by apply elem_of_nil in Hpath].
    destruct (maxSize <? n) eqn:Esize; [by apply elem_of_nil in Hpath |].
    apply list_elem_of_singleton in Hpath as ->.
    apply bool_decide_eq_true in Eext. apply Nat.ltb_ge in Esize.
    by eapply located_file.
  - by apply elem_of_nil in Hpath.
Qed.

Lemma located_walkEntry (dir : string) (entries : list Dirent) (path : string) :
  located includeExt skipped maxSize dir entries path →
  path ∈ flat_map (walkEntry includeExt skipped maxSize dir) entries.
Proof.
  induction 1 as [dir entries name size Hin Hext Hsize
                 |dir entries name sub path Hin Hskip Hdot _ IH];
    apply elem_of_flat_map.
  - exists (RegularFile name (Some size)). split; [done |]. cbn [walkEntry].
    rewrite bool_decide_eq_true_2 by done. cbn [negb].
    apply Nat.ltb_ge in Hsize. rewrite Hsize. by apply list_elem_of_singleton.
  - exists (Directory name (Some sub)). split; [done |]. cbn [walkEntry].
    rewrite bool_decide_eq_false_2 by done. rewrite Hdot. done.
Qed.

(** [discoverFiles] returns exactly the paths of the regular files
    below the root whose lower-cased extension is included, whose size
    is at most [maxSize], and that lie under readable directories none of
    which is skipped by name or starts with a dot; the name of the root
    itself is not looked at, and an unreadable root gives nothing. *)
Theorem discoverFiles_located (rootDir : string) (listing : option (list Dirent))
    (path : string) :
  path ∈ discoverFiles includeExt skipped maxSize rootDir listing
  ↔ ∃ entries, listing = Some entries
               ∧ located includeExt skipped maxSize rootDir entries path.
Proof.
  destruct listing as [entries|]; cbn [discoverFiles].
  - split.
    + intros Hpath. exists entries. split; [done |].
      apply elem_of_flat_map in Hpath as (e & He & Hpath).
      by eapply walkEntry_located.
    + intros (es & [= <-] & Hloc). by apply located_walkEntry.
  - split; [intros Hpath; by apply elem_of_nil in Hpath | by intros (es & ? & _)].
Qed.

End Facts.

(** *** Extra extensions *)

Lemma lower_not_capital (c : ascii) :
  (65 <=? nat_of_ascii (lower c)) && (nat_of_ascii (lower c) <=? 90) = false.
Proof.
  unfold lower.
  destruct ((65 <=? nat_of_ascii c) && (nat_of_ascii c <=? 90)) eqn:E; [|done].
  apply andb_true_iff in E as [H1 H2]. apply Nat.leb_le in H1, H2.
  rewrite nat_ascii_embedding by lia.
  apply andb_false_iff. right. apply Nat.leb_gt. lia.
Qed.

Lemma toLowerCase_no_capital (s : string) : has_capital (toLowerCase s) = false.
Proof.
  induction s as [|c s IH]; [done |]. cbn [toLowerCase has_capital].
  by rewrite lower_not_capital, IH.
Qed.

Section Extras.
Context `{NodePath}.
Variables (includeExt skipped : gset string) (maxSize : nat).

Lemma walkEntry_capital (more : gset string) (entry : Dirent) :
  (∀ e, e ∈ more → has_capital e = true) →
  ∀ dir, walkEntry (includeExt ∪ more) skipped maxSize dir entry
         = walkEntry includeExt skipped maxSize dir entry.
Proof.
  intros Hmore.
  induction entry as [name|name sub IH|name size|name] using Dirent_tree_ind;
    intros dir; cbn [walkEntry]; try done.
  - destruct (negb _ && negb _); [|done].
    induction IH as [|e sub He _ IHsub]; [done |]. cbn [flat_map]. by rewrite He, IHsub.
  - assert (bool_decide (toLowerCase (path_extname name) ∈ includeExt ∪ more)
            = bool_decide (toLowerCase (path_extname name) ∈ includeExt)) as ->; [|done].
    apply bool_decide_ext. rewrite elem_of_union. split; [|by left].
    intros [Hin|Hin]; [done |]. apply Hmore in Hin.
    by rewrite toLowerCase_no_capital in Hin.
Qed.

(** An extra extension written with a capital letter is never
    matched, because the extension of a file is lower-cased before it is
    looked up while the extras are kept as given: when every extra has a
    capital letter, discovery finds what it finds without extras. *)
Theorem capital_extras_match_nothing (extras rootDir : string)
    (listing : option (list Dirent)) :
  Forall (λ e, has_capital e = true) (extraExtensions extras) →
  discoverFiles (withExtras includeExt extras) skipped maxSize rootDir listing
  = discoverFiles includeExt skipped maxSize rootDir listing.
Proof.
  intros Hcap. unfold withExtras. destruct (truthy extras); [|done].
  destruct listing as [entries|]; [|done]. cbn [discoverFiles].
  induction entries as [|e entries IH]; [done |]. cbn [flat_map].
  rewrite IH. f_equal. apply walkEntry_capital.
  intros x Hx. apply elem_of_list_to_set in Hx.
  by apply (proj1 (Forall_forall _ _) Hcap).
Qed.

End Extras.

(** *** Examples on a project tree *)

Import Fixtures ToolFixtures.

(** With the defaults, the tree gives its two small sources at top level
    and the module of the package. *)
Example discoverFiles_tree :
  @discoverFiles posix includeExtensions skipDirs maxFileSize "/p" (Some tree)
  = ["/p/main.py"; "/p/README.MD"; "/p/pkg/mod.py"].
Proof. vm_compute. reflexivity. Qed.

(** The extras [RS] and [Go] do not make [lib.rs] discoverable. *)
Lemma capital_extras_match_nothing_tree :
  @discoverFiles posix (withExtras includeExtensions "RS,Go") skipDirs maxFileSize
                 "/p" (Some tree)
  = @discoverFiles posix includeExtensions skipDirs maxFileSize "/p" (Some tree).
Proof.
  apply (@capital_extras_match_nothing posix includeExtensions skipDirs maxFileSize
           "RS,Go" "/p" (Some tree)).
  repeat constructor.
Defined.

End DiscoverFacts.

(** ** The tools of the searcher *)

Module QueriesFacts.
Import Js JsLib Chunker Vec Indexer Queries CountSpec GrepSpec JsFacts VecFacts CountFacts.

(** *** [projectStats] *)

Section Stats.
Context `{NodePath}.

(** The counts of [by_chunk_type] add up to [total_chunks], and so
    do the counts of [by_extension]: every entry of the store is counted
    once under a type and once under an extension, [unknown] when it has
    none. *)
Theorem projectStats_counts (root : string) (st : VectorStore) :
  sum_counts (by_chunk_type (projectStats root st)) = stats_total_chunks (projectStats root st)
  ∧ sum_counts (stats_by_extension (projectStats root st))
    = stats_total_chunks (projectStats root st).
Proof.
  unfold projectStats.
  set (step := λ '(byType, byExt) v, _).
  assert (∀ (vs : list Entry) (acc : gmap string nat * gmap string nat),
            sum_counts (fst (fold_left step vs acc)) = sum_counts (fst acc) + length vs
            ∧ sum_counts (snd (fold_left step vs acc)) = sum_counts (snd acc) + length vs)
    as Hfold.
  { induction vs as [|v vs IH]; intros [byType byExt]; cbn [fold_left length]; [lia |].
    destruct (IH (step (byType, byExt) v)) as [-> ->]. cbn [step fst snd].
    unfold bump. rewrite !sum_counts_bump. cbn [fst snd]. lia. }
  destruct (Hfold (vectors st) (∅, ∅)) as [H1 H2].
  destruct (fold_left step (vectors st) (∅, ∅)) as [byType byExt].
  cbn [by_chunk_type stats_by_extension stats_total_chunks fst snd] in *.
  rewrite H1, H2. unfold sum_counts. by rewrite map_fold_empty.
Qed.

End Stats.

(** *** [searchCode] *)

Lemma length_substring_le (n : nat) (s : string) : String.length (substring 0 n s) ≤ n.
Proof.
  revert s. induction n as [|n IH]; intros [|c s]; cbn; try lia.
  specialize (IH s). lia.
Qed.

Lemma slice0_subset {A} (l : list A) (e : Z) (x : A) : x ∈ slice0 l e → x ∈ l.
Proof.
  unfold slice0. destruct (e <? 0)%Z; intros Hx; by apply elem_of_take in Hx as (i & Hi & _);
    apply list_elem_of_lookup_2 in Hi.
Qed.

Lemma length_slice0 {A} (l : list A) (e : Z) :
  length (slice0 l e)
  = if (e <? 0)%Z then length l - Z.to_nat (- e) else Nat.min (Z.to_nat e) (length l).
Proof.
  unfold slice0. destruct (e <? 0)%Z eqn:E; rewrite length_take; [|done].
  apply Z.ltb_lt in E. lia.
Qed.

Section Search.
Context `{Embedder}.

Lemma searchCode_resolved (st : VectorStore) (query_ : string) (limit : option Z)
    (fileFilter extFilter : option string) (r : SearchResult) :
  searchCode st query_ limit fileFilter extFilter = Resolved r →
  ∃ queryEmbedding,
    isIndexed st = true
    ∧ generateEmbedding query_ = Some queryEmbedding
    ∧ results r
      = map toHit (vectorSearch (vectors st) queryEmbedding (default 8%Z limit)
                                (Some (filterFn fileFilter extFilter)))
    ∧ total r = length (results r)
    ∧ query r = query_.
Proof.
  unfold searchCode. destruct (isIndexed st); [|done]. cbn [negb].
  destruct (generateEmbedding query_) as [queryEmbedding|]; [|done].
  intros [= <-]. exists queryEmbedding. cbn [results total query].
  by rewrite length_map.
Qed.

(** Every result of [searchCode] presents an entry of the store that
    passes the filters given: its file path contains [fileFilter] and
    ends with [extFilter] (an empty filter counts as none); the text is
    the first 500 characters of the chunk, and [total] is the number of
    results. *)
Theorem searchCode_hits (st : VectorStore) (query_ : string) (limit : option Z)
    (fileFilter extFilter : option string) (r : SearchResult) :
  searchCode st query_ limit fileFilter extFilter = Resolved r →
  total r = length (results r)
  ∧ Forall (λ h, ∃ v, v ∈ vectors st
                      ∧ hit_file h = filepath (payload v)
                      ∧ hit_name h = name (payload v)
                      ∧ hit_chunk_type h = chunk_type (payload v)
                      ∧ hit_line_start h = line_start (payload v)
                      ∧ hit_line_end h = line_end (payload v)
                      ∧ hit_text h = substring 0 500 (text (payload v))
                      ∧ String.length (hit_text h) ≤ 500
                      ∧ (given fileFilter = true
                         → includes (hit_file h) (default "" fileFilter) = true)
                      ∧ (given extFilter = true
                         → endsWith (hit_file h) (default "" extFilter) = true))
           (results r).
Proof.
  intros Hrun.
  destruct (searchCode_resolved _ _ _ _ _ _ Hrun) as (qe & _ & _ & -> & Htot & _).
  split; [by rewrite Htot |].
  apply Forall_forall. intros h Hh. apply list_elem_of_fmap in Hh as (s & -> & Hs).
  unfold vectorSearch in Hs. apply slice0_subset in Hs.
  rewrite sort_perm in Hs. apply list_elem_of_fmap in Hs as (v & -> & Hv).
  apply list_elem_of_filter in Hv as [Hpass Hv].
  exists v. cbn [toHit hit_file hit_name hit_chunk_type hit_line_start hit_line_end
                 hit_text entry].
  repeat split; try done.
  - apply length_substring_le.
  - intros Hgiven. unfold filterFn in Hpass. rewrite Hgiven in Hpass. cbn [andb] in Hpass.
    by destruct (includes (filepath (payload v)) (default "" fileFilter)).
  - intros Hgiven. unfold filterFn in Hpass.
    destruct (given fileFilter && negb _); [done |].
    rewrite Hgiven in Hpass. cbn [andb] in Hpass.
    by destruct (endsWith (filepath (payload v)) (default "" extFilter)).
Qed.

(** The number of results of [searchCode] is the number of entries
    that pass the filters, cut at [limit] (8 when none is given); a
    negative [limit] instead drops that many results from the end. *)
Theorem searchCode_total (st : VectorStore) (query_ : string) (limit : option Z)
    (fileFilter extFilter : option string) (r : SearchResult) :
  searchCode st query_ limit fileFilter extFilter = Resolved r →
  let passing :=
    length (filter (λ v, filterFn fileFilter extFilter (payload v) = true) (vectors st)) in
  total r
  = if (default 8 limit <? 0)%Z then passing - Z.to_nat (- default 8 limit)%Z
    else Nat.min (Z.to_nat (default 8%Z limit)) passing.
Proof.
  intros Hrun. cbv zeta.
  destruct (searchCode_resolved _ _ _ _ _ _ Hrun) as (qe & _ & _ & Hres & -> & _).
  rewrite Hres, length_map. unfold vectorSearch. rewrite length_slice0.
  by rewrite (Permutation_length (sort_perm _ _)), length_map.
Qed.

End Search.

(** *** [grepCode] *)

Section Grep.
Context `{NodePath} `{RegExpEngine}.

Lemma cut_more (limit : Z) (found more : list Match) :
  (Z.max 1 limit ≤ Z.of_nat (length found))%Z →
  cut limit (found ++ more) = cut limit found.
Proof.
  intros Hfull. unfold cut.
  rewrite !(proj2 (Z.leb_le _ _)); [| done | rewrite length_app; lia].
  by rewrite take_app_le by lia.
Qed.

Lemma lineMatches_cons (test : string → bool) (relPath : string) (lines : list string)
    (contextLines : Z) (i : nat) (line : string) (rest : list string) :
  lineMatches test relPath lines contextLines i (line :: rest)
  = ((if test line then [matchAt relPath lines contextLines i line] else [])
     ++ lineMatches test relPath lines contextLines (i + 1) rest)%list.
Proof. unfold lineMatches. cbn [length seq combine flat_map]. by rewrite Nat.add_1_r. Qed.

Lemma grepLines_spec (test : string → bool) (relPath : string) (lines : list string)
    (limit contextLines : Z) (rest : list string) (i : nat) (found : list Match) :
  (Z.of_nat (length found) < Z.max 1 limit)%Z →
  grepLines test relPath lines limit contextLines rest i found
  = cut limit (found ++ lineMatches test relPath lines contextLines i rest).
Proof.
  revert i found. induction rest as [|line rest IH]; intros i found Hroom.
  - cbn [grepLines]. unfold lineMatches. cbn [length seq combine flat_map].
    rewrite app_nil_r. unfold cut. by rewrite (proj2 (Z.leb_gt _ _)) by lia.
  - cbn [grepLines]. rewrite lineMatches_cons.
    destruct (test line); [|by apply IH].
    fold (matchAt relPath lines contextLines i line).
    rewrite app_assoc.
    set (found' := (found ++ [matchAt relPath lines contextLines i line])%list).
    assert (length found' = length found + 1) as Hlen
      by (unfold found'; rewrite length_app; done).
    destruct (limit <=? Z.of_nat (length found'))%Z eqn:E.
    + apply Z.leb_le in E. rewrite cut_more by lia.
      unfold cut. rewrite (proj2 (Z.leb_le _ _)) by lia.
      by rewrite take_ge by lia.
    + apply Z.leb_gt in E. apply IH. lia.
Qed.

Lemma grepFiles_spec (test : string → bool) (root : string) (limit contextLines : Z)
    (fileFilter extFilter : option string) (files : list File) (found : list Match) :
  (Z.of_nat (length found) < Z.max 1 limit)%Z →
  grepFiles test root limit contextLines fileFilter extFilter files found
  = cut limit (found ++ allMatches test root contextLines fileFilter extFilter files).
Proof.
  revert found. induction files as [|f files IH]; intros found Hroom.
  - cbn [grepFiles allMatches flat_map]. rewrite app_nil_r.
    unfold cut. by rewrite (proj2 (Z.leb_gt _ _)) by lia.
  - cbn [grepFiles]. unfold allMatches. cbn [flat_map].
    fold (allMatches test root contextLines fileFilter extFilter files).
    unfold searched.
    destruct (given fileFilter && negb _); [by apply IH |].
    destruct (given extFilter && negb _); [by apply IH |]. cbn [negb andb].
    destruct (source f) as [src|]; [|by apply IH].
    rewrite grepLines_spec by done. rewrite app_assoc.
    set (found' := (found ++ lineMatches _ _ _ _ _ _)%list).
    unfold cut at 1.
    destruct (Z.max 1 limit <=? Z.of_nat (length found'))%Z eqn:E.
    + apply Z.leb_le in E. rewrite cut_more by done.
      unfold cut. by rewrite (proj2 (Z.leb_le _ _)) by done.
    + apply Z.leb_gt in E. by apply IH.
Qed.

(** [grepCode] reports the matching lines of the readable files that
    pass the filters, in the order of the files and of their lines, up
    to the first [limit] (50 when none is given) and never fewer than
    one when there is a match: a limit of zero or less still reports the
    first match. [truncated] tells that the limit was reached, also when
    nothing was left to find. *)
Theorem grepCode_matches (root : string) (files : list File) (pattern_ : string)
    (isRegex caseSensitive : option bool) (limit contextLines : option Z)
    (fileFilter extFilter : option string) (r : GrepResult) :
  grepCode root files pattern_ isRegex caseSensitive limit contextLines fileFilter extFilter
  = Resolved r →
  ∃ test,
    regExp (if default false isRegex then pattern_ else escapeRegex pattern_)
           (if default true caseSensitive then "" else "i") = inl test
    ∧ let all :=
        allMatches test root (default 2%Z contextLines) fileFilter extFilter files in
      let most := Z.to_nat (Z.max 1 (default 50%Z limit)) in
      matches r = take most all
      ∧ grep_total r = length (matches r)
      ∧ truncated r = bool_decide (most ≤ length all).
Proof.
  unfold grepCode. destruct (truthy root); [|done]. cbn [negb].
  destruct (regExp _ _) as [test|message]; [|done].
  rewrite grepFiles_spec by (cbn; lia). cbn [app]. unfold cut.
  intros Hrun. exists test. split; [done |]. cbv zeta.
  destruct (Z.max 1 (default 50%Z limit) <=? _)%Z eqn:E; injection Hrun as <-;
    cbn [matches grep_total truncated].
  - apply Z.leb_le in E. split; [done |]. split; [done |].
    symmetry. apply bool_decide_eq_true. lia.
  - apply Z.leb_gt in E. split; [by rewrite take_ge by lia |]. split; [done |].
    symmetry. apply bool_decide_eq_false. lia.
Qed.

End Grep.

(** *** Examples *)

Import Fixtures ProjectFixtures ToolFixtures.

(** A search of the four entries for files with [js] in their path, at
    most two. *)
Lemma searchCode_hits_four :
  ∃ r, @searchCode unitEmbedder fourIndexed "q" (Some 2%Z) (Some "js") None = Resolved r
       ∧ map hit_file (results r) = ["b.js"; "d.js"]
       ∧ total r = length (results r)
       ∧ Forall (λ h, ∃ v, v ∈ vectors fourIndexed
                           ∧ hit_file h = filepath (payload v)
                           ∧ hit_name h = name (payload v)
                           ∧ hit_chunk_type h = chunk_type (payload v)
                           ∧ hit_line_start h = line_start (payload v)
                           ∧ hit_line_end h = line_end (payload v)
                           ∧ hit_text h = substring 0 500 (text (payload v))
                           ∧ String.length (hit_text h) ≤ 500
                           ∧ (given (Some "js") = true
                              → includes (hit_file h) (default "" (Some "js")) = true)
                           ∧ (given None = true
                              → endsWith (hit_file h) (default "" None) = true))
                (results r).
Proof.
  eexists. split; [vm_compute; reflexivity |]. split; [reflexivity |].
  apply (@searchCode_hits unitEmbedder fourIndexed "q" (Some 2%Z) (Some "js") None).
  vm_compute. reflexivity.
Defined.

(** The same store searched with the limit -1: the last of the four
    results is dropped. *)
Lemma searchCode_total_four :
  ∃ r, @searchCode unitEmbedder fourIndexed "q" (Some (-1)%Z) None (Some ".js") = Resolved r
       ∧ total r = 3
       ∧ total r
         = if (default 8 (Some (-1)) <? 0)%Z
           then length (filter (λ v, filterFn None (Some ".js") (payload v) = true)
                               (vectors fourIndexed))
                - Z.to_nat (- default 8 (Some (-1)))%Z
           else Nat.min (Z.to_nat (default 8%Z (Some (-1)%Z)))
                        (length (filter (λ v, filterFn None (Some ".js") (payload v) = true)
                                        (vectors fourIndexed))).
Proof.
  eexists. split; [vm_compute; reflexivity |]. split; [reflexivity |].
  apply (@searchCode_total unitEmbedder fourIndexed "q" (Some (-1)%Z) None (Some ".js")).
  vm_compute. reflexivity.
Defined.

(** A grep of the two files of [/p] for the letter o with the limit 0:
    the first match is still reported. *)
Lemma grepCode_matches_helloWorld :
  ∃ r, @grepCode posix plainText "/p" helloWorld "o" None None (Some 0%Z) None None None
       = Resolved r
       ∧ map match_text (matches r) = ["hello"]
       ∧ ∃ test,
           @regExp plainText (if default false None then "o" else escapeRegex "o")
                   (if default true None then "" else "i") = inl test
           ∧ let all := @allMatches posix test "/p" (default 2%Z None) None None helloWorld in
             let most := Z.to_nat (Z.max 1 (default 50%Z (Some 0%Z))) in
             matches r = take most all
             ∧ grep_total r = length (matches r)
             ∧ truncated r = bool_decide (most ≤ length all).
Proof.
  eexists. split; [vm_compute; reflexivity |]. split; [reflexivity |].
  apply (@grepCode_matches posix plainText "/p" helloWorld "o" None None (Some 0%Z)
           None None None).
  vm_compute. reflexivity.
Defined.

End QueriesFacts.
(** ** The Python chunker *)

Module PythonFacts.
Import Js JsLib Chunker Python ChunkSpec PythonSpec JsFacts.

(** *** Line ranges *)

Lemma spaced_weaken (lo hi hi' : nat) (cs : list Chunk) :
  spaced lo hi cs → hi ≤ hi' → spaced lo hi' cs.
Proof.
  revert lo. induction cs as [|c cs IH]; intros lo Hs Hle; cbn in *; [lia |].
  destruct Hs as (H1 & H2 & H3 & H4). repeat split; try lia. by apply IH.
Qed.

Lemma spaced_snoc (lo hi hi' : nat) (cs : list Chunk) (c : Chunk) :
  spaced lo hi cs → hi < line_start c → line_start c ≤ line_end c → line_end c ≤ hi' →
  spaced lo hi' (cs ++ [c]).
Proof.
  revert lo. induction cs as [|c0 cs IH]; intros lo Hs Hlt Hle Hhi; cbn in *.
  - repeat split; lia.
  - destruct Hs as (H1 & H2 & H3 & H4). repeat split; try lia. by apply IH.
Qed.

(** *** The loop over a multi-line signature *)

Lemma signature_spec (lines : list string) (o o' : Open) (i i' j n : nat) :
  signature lines o i j n = (o', i') → i < length lines →
  open_name o' = open_name o ∧ open_type o' = open_type o
  ∧ open_start o' = open_start o
  ∧ (open_lines o ≠ [] → open_lines o' ≠ [])
  ∧ (i' = i ∨ j ≤ i') ∧ i' < length lines.
Proof.
  revert o j. induction n as [|n IH]; intros o j Hrun Hi; cbn [signature] in Hrun.
  - injection Hrun as <- <-. repeat split; try done. by left.
  - destruct (lines !! j) as [l|] eqn:El.
    + destruct (closesSignature l).
      * injection Hrun as <- <-. cbn [push open_name open_type open_start open_lines].
        repeat split; try done.
        -- intros _ E. by apply app_eq_nil in E as [_ ?].
        -- by right.
        -- by eapply lookup_lt_Some.
      * apply IH in Hrun as (H1 & H2 & H3 & H4 & H5 & H6); [|done].
        cbn [push open_name open_type open_start open_lines] in *.
        repeat split; try done.
        -- intros _. apply H4. intros E. by apply app_eq_nil in E as [_ ?].
        -- destruct H5 as [->|H5]; [by left | right; lia].
    + injection Hrun as <- <-. repeat split; try done. by left.
Qed.

(** *** The main loop *)

Lemma flush_scanned (lines : list string) (relPath : string) (i : nat)
    (currentChunk : option Open) (chunks : list Chunk) :
  scanned lines relPath i currentChunk chunks →
  Forall (λ c, filepath c = relPath ∧ defines lines (line_start c) (name c) (chunk_type c))
         (flush relPath currentChunk i chunks)
  ∧ spaced 1 i (flush relPath currentChunk i chunks).
Proof.
  intros (Hi & Hall & hi & Hsp & Hcur). unfold flush.
  destruct currentChunk as [o|]; [|split; [done | by eapply spaced_weaken]].
  destruct Hcur as (Hhi & Hstart & Hne & Hdef).
  destruct (open_lines o) as [|l ls] eqn:E; [done |]. cbn [length Nat.ltb Nat.leb].
  split.
  - apply Forall_app. split; [done |]. by repeat constructor.
  - by eapply spaced_snoc.
Qed.

Lemma take_min_length {A} (l : list A) (n : nat) :
  take (Nat.min n (length l)) l = take n l.
Proof.
  destruct (decide (n ≤ length l)) as [Hle|Hgt].
  - by rewrite Nat.min_l by done.
  - rewrite Nat.min_r by lia. by rewrite !take_ge by lia.
Qed.

Lemma slice_single {A} (l : list A) (i : nat) (x : A) :
  l !! i = Some x → slice l i (i + 1) = [x].
Proof.
  intros Hx. unfold slice. replace (i + 1 - i) with 1 by lia.
  rewrite <- (take_drop_middle l i x Hx) at 1.
  rewrite drop_app_length' by (rewrite length_take; apply lookup_lt_Some in Hx; lia).
  done.
Qed.

(** When one of the next [n] lines closes the signature, the loop stops
    there, having taken every line up to it. *)
Lemma signature_breaks (lines : list string) (o o' : Open) (i i' j n : nat) :
  existsb closesSignature (take n (drop j lines)) = true →
  signature lines o i j n = (o', i') →
  j ≤ i' ∧ open_lines o' = (open_lines o ++ slice lines j (i' + 1))%list.
Proof.
  revert o j. induction n as [|n IH]; intros o j Hex Hrun; [done |].
  cbn [signature] in Hrun.
  destruct (lines !! j) as [l|] eqn:El.
  2:{ apply lookup_ge_None in El. by rewrite drop_ge in Hex by lia. }
  assert (drop j lines = l :: drop (j + 1) lines) as Hdrop.
  { rewrite <- (take_drop_middle lines j l El) at 1.
    rewrite drop_app_length' by (rewrite length_take; apply lookup_lt_Some in El; lia).
    by rewrite Nat.add_1_r. }
  rewrite Hdrop in Hex. cbn [take existsb] in Hex.
  destruct (closesSignature l).
  - injection Hrun as <- <-. split; [done |]. cbn [push open_lines].
    by rewrite (slice_single lines j l El).
  - cbn [orb] in Hex. apply IH in Hrun as [Hle ->]; [|done].
    split; [lia |]. cbn [push open_lines]. rewrite <- app_assoc. f_equal.
    rewrite <- (slice_single lines j l El). symmetry. apply ChunkerFacts.slice_app; lia.
Qed.

Lemma definitionLines_app (from : nat) (a b : list string) :
  definitionLines from (a ++ b)
  = (definitionLines from a ++ definitionLines (from + length a) b)%list.
Proof.
  revert from. induction a as [|x a IH]; intros from.
  - cbn. by rewrite Nat.add_0_r.
  - unfold definitionLines in *. cbn [app length seq combine flat_map].
    rewrite IH, app_assoc. by replace (from + S (length a)) with (S from + length a) by lia.
Qed.

Lemma definitionLines_snoc (lines : list string) (i : nat) (line : string) :
  lines !! i = Some line →
  definitionLines 0 (take (i + 1) lines)
  = (definitionLines 0 (take i lines)
     ++ if starts_definition line then [i + 1] else [])%list.
Proof.
  intros Hline. pose proof (lookup_lt_Some _ _ _ Hline) as Hlt.
  replace (take (i + 1) lines) with (take (S i) lines) by (f_equal; lia).
  rewrite (take_S_r lines i line Hline), definitionLines_app.
  rewrite length_take, Nat.min_l by lia. f_equal.
  unfold definitionLines. cbn [length seq combine flat_map Nat.add]. by rewrite app_nil_r.
Qed.

Lemma flush_verbatim (lines : list string) (relPath : string) (i : nat)
    (currentChunk : option Open) (chunks : list Chunk) :
  scanned_verbatim lines i currentChunk chunks →
  Forall (verbatim lines) (flush relPath currentChunk i chunks).
Proof.
  intros [Hall Hcur]. unfold flush. destruct currentChunk as [o|]; [|done].
  destruct (0 <? length (open_lines o)); [|done].
  apply Forall_app. split; [done |]. repeat constructor.
  unfold verbatim, covered. cbn [close text line_start line_end]. by rewrite Hcur.
Qed.

(** The main loop runs to the last line, keeps the closed chunks in
    order before the open one and, when signatures close, keeps the text
    of every chunk equal to its lines. *)
Lemma scan_scanned (fuel : nat) (relPath : string) (lines : list string) :
  ∀ (i : nat) (currentChunk : option Open) (currentIndent : nat) (chunks : list Chunk)
    (currentChunk' : option Open) (chunks' : list Chunk),
    scanned lines relPath i currentChunk chunks → length lines ≤ i + fuel →
    scan fuel relPath lines i currentChunk currentIndent chunks = (currentChunk', chunks') →
    scanned lines relPath (length lines) currentChunk' chunks'
    ∧ (signatures_close lines → scanned_verbatim lines i currentChunk chunks →
       scanned_verbatim lines (length lines) currentChunk' chunks')
    ∧ (one_line_signatures lines → started lines i currentChunk chunks →
       started lines (length lines) currentChunk' chunks').
Proof.
  induction fuel as [|fuel IH]; intros i cur ind chunks cur' chunks' Hinv Hfuel Hrun.
  { cbn in Hrun. injection Hrun as <- <-.
    destruct Hinv as (Hi & Hrest). replace (length lines) with i by lia.
    split; [exact (conj Hi Hrest) | split; by intros _ ?]. }
  cbn [scan] in Hrun.
  destruct (lines !! i) as [line|] eqn:Eline.
  2:{ injection Hrun as <- <-. apply lookup_ge_None in Eline.
      destruct Hinv as (Hi & Hrest). replace (length lines) with i by lia.
    split; [exact (conj Hi Hrest) | split; by intros _ ?]. }
  pose proof (lookup_lt_Some _ _ _ Eline) as Hlt.
  pose proof Hinv as (Hi & Hall & hi & Hsp & Hcur).
  assert (∀ (name_ type_ : string) (o : Open) (i' : nat),
            defines lines (i + 1) name_ type_ →
            (if bool_decide (funcStartRegex line ≠ None) && negb (closesSignature line)
             then signature lines
                    {| open_name := name_; open_type := type_; open_start := i + 1;
                       open_lines := [line] |}
                    i (i + 1) (Nat.min (i + 20) (length lines) - (i + 1))
             else ({| open_name := name_; open_type := type_; open_start := i + 1;
                      open_lines := [line] |}, i)) = (o, i') →
            i ≤ i' ∧ i' < length lines
            ∧ scanned lines relPath (i' + 1) (Some o) (flush relPath cur i chunks)
            ∧ (signatures_close lines → scanned_verbatim lines i cur chunks →
               scanned_verbatim lines (i' + 1) (Some o) (flush relPath cur i chunks))
            ∧ (one_line_signatures lines → started lines i cur chunks →
               started lines (i' + 1) (Some o) (flush relPath cur i chunks)))
    as Hopen.
  { intros name_ type_ o i' Hdef Esig.
    destruct (flush_scanned _ _ _ _ _ Hinv) as [Hall1 Hsp1].
    assert (open_name o = name_ ∧ open_type o = type_ ∧ open_start o = i + 1
            ∧ open_lines o ≠ [] ∧ i ≤ i' ∧ i' < length lines) as (Hn & Ht & Hs & Hl & Hle & Hlt').
    { destruct (bool_decide _ && negb _).
      - apply signature_spec in Esig as (H1 & H2 & H3 & H4 & H5 & H6); [|done].
        cbn [open_name open_type open_start open_lines] in *.
        repeat split; try done; [by apply H4 | lia].
      - injection Esig as <- <-. by repeat split. }
    split; [done |]. split; [done |]. split; [|split].
    - split; [lia |]. split; [done |]. exists i. split; [done |].
      rewrite Hn, Ht, Hs. repeat split; try lia; done.
    - intros Hclose Hverb. split; [by apply flush_verbatim |].
      rewrite Hs. replace (i + 1 - 1) with i by lia.
      destruct (bool_decide (funcStartRegex line ≠ None)) eqn:Efunc;
        [destruct (closesSignature line) eqn:Ecl|]; cbn [negb andb] in Esig.
      + injection Esig as <- <-. cbn [open_lines]. symmetry. by apply slice_single.
      + apply bool_decide_eq_true in Efunc.
        destruct (Hclose i line Eline Efunc) as [Hc|Hex]; [congruence |].
        apply signature_breaks in Esig as [_ ->].
        * cbn [open_lines]. rewrite <- (slice_single lines i line Eline).
          symmetry. apply ChunkerFacts.slice_app; lia.
        * rewrite <- Hex. f_equal.
          rewrite <- (take_min_length (drop (i + 1) lines) 19).
          f_equal. rewrite length_drop. lia.
      + injection Esig as <- <-. cbn [open_lines]. symmetry. by apply slice_single.
    - intros Hone Hstarted.
      assert (i' = i) as ->.
      { destruct (bool_decide (funcStartRegex line ≠ None)) eqn:Efunc.
        - apply bool_decide_eq_true in Efunc.
          assert (closesSignature line = true) as Hcl.
          { unfold one_line_signatures in Hone.
            rewrite Forall_forall in Hone. apply (Hone line); [|done].
            by eapply list_elem_of_lookup_2. }
          rewrite Hcl in Esig. by injection Esig as _ <-.
        - by injection Esig as _ <-. }
      unfold started in *. rewrite (definitionLines_snoc lines i line Eline).
      assert (starts_definition line = true) as ->.
      { destruct Hdef as (l & indent & _ & Hline & Hkind).
        replace (i + 1 - 1) with i in Hline by lia. rewrite Eline in Hline.
        injection Hline as <-.
        unfold starts_definition.
        destruct Hkind as [[_ ->]|(_ & _ & ->)]; [done | by rewrite orb_true_r]. }
      rewrite <- Hstarted, Hs. f_equal. unfold flush.
      destruct cur as [o0|]; [|by rewrite app_nil_r].
      destruct Hcur as (_ & _ & Hne0 & _).
      destruct (open_lines o0); [done |]. cbn [length Nat.ltb Nat.leb].
      by rewrite map_app. }
  destruct (classRegex line) as [[cindent cname]|] eqn:Eclass;
    [|destruct (funcStartRegex line) as [[findent fname]|] eqn:Efunc].
  - (* a class *)
    destruct (if bool_decide (funcStartRegex line ≠ None) && negb (closesSignature line)
              then _ else _) as [o i'] eqn:Esig.
    destruct (Hopen cname "class" o i') as (Hle & Hlt' & Hnext & Hverb & Hst);
      [| exact Esig |].
    { exists line, cindent. replace (i + 1 - 1) with i by lia.
      repeat split; try done; [lia | by left]. }
    destruct (IH (i' + 1) _ _ _ _ _ Hnext ltac:(lia) Hrun) as (Hfin & Hv & Hs).
    split; [done |]. split.
    + intros Hclose Hverb0. apply Hv; [done |]. by apply Hverb.
    + intros Hone Hst0. apply Hs; [done |]. by apply Hst.
  - (* a function *)
    destruct (if bool_decide (Some (findent, fname) ≠ None) && negb (closesSignature line)
              then _ else _) as [o i'] eqn:Esig.
    destruct (Hopen fname "function" o i') as (Hle & Hlt' & Hnext & Hverb & Hst);
      [| exact Esig |].
    { exists line, findent. replace (i + 1 - 1) with i by lia.
      repeat split; try done; [lia | by right]. }
    destruct (IH (i' + 1) _ _ _ _ _ Hnext ltac:(lia) Hrun) as (Hfin & Hv & Hs).
    split; [done |]. split.
    + intros Hclose Hverb0. apply Hv; [done |]. by apply Hverb.
    + intros Hone Hst0. apply Hs; [done |]. by apply Hst.
  - (* any other line *)
    clear Hopen.
    assert (definitionLines 0 (take (i + 1) lines) = definitionLines 0 (take i lines))
      as Hsame.
    { rewrite (definitionLines_snoc lines i line Eline). unfold starts_definition.
      rewrite Eclass, Efunc. cbn. by rewrite app_nil_r. }
    destruct cur as [o|].
    + destruct Hcur as (Hhi & Hstart & Hne & Hdef).
      destruct (String.eqb (trim line) "" || (ind <? lineIndent line)).
      * assert (scanned lines relPath (i + 1) (Some (push line o)) chunks) as Hnext.
        { split; [lia |]. split; [done |]. exists hi. split; [done |].
          cbn [push open_name open_type open_start open_lines].
          repeat split; try done; [lia |].
          intros E. by apply app_eq_nil in E as [_ ?]. }
        destruct (IH (i + 1) _ _ _ _ _ Hnext ltac:(lia) Hrun) as (Hfin & Hv & Hs).
        split; [done |]. split.
        -- intros Hclose [Hverb Hlines]. apply Hv; [done |].
           split; [done |]. cbn [push open_start open_lines]. rewrite Hlines.
           destruct Hdef as (? & ? & Hone & _). symmetry. apply ChunkerFacts.slice_snoc; [done | lia].
        -- intros Hone Hst. apply Hs; [done |]. unfold started in *.
           by rewrite Hsame.
      * assert (scanned lines relPath (i + 1) None (chunks ++ [close relPath o i])) as Hnext.
        { split; [lia |]. split.
          - apply Forall_app. split; [done |]. by repeat constructor.
          - exists i. split; [|lia]. by eapply spaced_snoc. }
        destruct (IH (i + 1) _ _ _ _ _ Hnext ltac:(lia) Hrun) as (Hfin & Hv & Hs).
        split; [done |]. split.
        -- intros Hclose [Hverb Hlines]. apply Hv; [done |].
           split; [|done]. apply Forall_app. split; [done |]. repeat constructor.
           unfold verbatim, covered. cbn [close text line_start line_end].
           by rewrite Hlines.
        -- intros Hone Hst. apply Hs; [done |]. unfold started in *.
           rewrite Hsame, <- Hst, map_app, app_nil_r. done.
    + assert (scanned lines relPath (i + 1) None chunks) as Hnext.
      { split; [lia |]. split; [done |]. exists hi. split; [done |]. lia. }
      destruct (IH (i + 1) _ _ _ _ _ Hnext ltac:(lia) Hrun) as (Hfin & Hv & Hs).
      split; [done |]. split.
      * intros Hclose [Hverb _]. by apply Hv.
      * intros Hone Hst. apply Hs; [done |]. unfold started in *. by rewrite Hsame.
Qed.

(** *** [chunkPython] *)

Section Facts.
Context `{NodePath}.
Variable projectRoot : string.

Lemma filter_kinds (cs : list Chunk) :
  Forall (λ c, bool_decide (chunk_type c ∈ ["class"; "function"]) = true) cs →
  List.filter (λ c, bool_decide (chunk_type c ∈ ["class"; "function"])) cs = cs.
Proof.
  induction 1 as [|c cs Hc _ IH]; [done |]. cbn [List.filter]. by rewrite Hc, IH.
Qed.

Lemma scanned_initial (lines : list string) (relPath : string) :
  scanned lines relPath 0 None [].
Proof. split; [lia |]. split; [constructor |]. exists 0. cbn. split; lia. Qed.

Lemma defines_described (lines : list string) (base relPath : string) (cs : list Chunk) :
  Forall (λ c, filepath c = relPath ∧ defines lines (line_start c) (name c) (chunk_type c)) cs →
  Forall (λ c, filepath c = relPath ∧ described lines base c) cs.
Proof.
  intros Hall. eapply Forall_impl; [exact Hall |].
  intros c [Hp Hd]. split; [done | by left].
Qed.

(** What [chunkPython] returns: chunks of the file, over line ranges in
    ascending order, each described by the line it starts at and, when
    signatures close, holding the text of its lines. *)
Lemma chunkPython_spec (file source : string) :
  let lines := split source in
  spaced 1 (length lines) (chunkPython projectRoot file source)
  ∧ Forall (λ c, filepath c = path_relative projectRoot file
                 ∧ described lines (path_basename file) c)
           (chunkPython projectRoot file source)
  ∧ (signatures_close lines →
     Forall (λ c, text c
                  = if bool_decide (chunk_type c ∈ ["file_header"; "file_chunk"])
                    then trim (join nl (covered lines c))
                    else join nl (covered lines c))
            (chunkPython projectRoot file source))
  ∧ (one_line_signatures lines →
     map line_start
         (List.filter (λ c, bool_decide (chunk_type c ∈ ["class"; "function"]))
                      (chunkPython projectRoot file source))
     = definitionLines 0 lines).
Proof.
  cbv zeta. unfold chunkPython, chunksOf.
  set (lines := split source). set (relPath := path_relative projectRoot file).
  assert (1 ≤ length lines) as Hlen.
  { pose proof (split_nonempty source) as Hne. fold lines in Hne.
    destruct lines; [done | cbn; lia]. }
  destruct (scan (length lines) relPath lines 0 None 0 []) as [cur chunks] eqn:Escan.
  apply scan_scanned in Escan as (Escan & Hverb & Hstarted); [| apply scanned_initial | lia].
  destruct (flush_scanned _ _ _ _ _ Escan) as [Hall Hsp].
  assert (signatures_close lines →
          Forall (λ c, text c
                       = if bool_decide (chunk_type c ∈ ["file_header"; "file_chunk"])
                         then trim (join nl (covered lines c))
                         else join nl (covered lines c))
                 (flush relPath cur (length lines) chunks)) as Htext.
  { intros Hclose. apply (flush_verbatim lines relPath) in Hverb; [| done | by split].
    apply Forall_forall. intros c Hc.
    pose proof (proj1 (Forall_forall _ _) Hall c Hc) as [_ (line & indent & _ & _ & Hkind)].
    rewrite (proj1 (Forall_forall _ _) Hverb c Hc).
    by destruct Hkind as [[-> _]|[-> _]]. }
  assert (one_line_signatures lines →
          map line_start
              (List.filter (λ c, bool_decide (chunk_type c ∈ ["class"; "function"]))
                           (flush relPath cur (length lines) chunks))
          = definitionLines 0 lines) as Hdefs.
  { intros Hone. specialize (Hstarted Hone eq_refl). unfold started in Hstarted.
    rewrite take_ge in Hstarted by done. rewrite <- Hstarted.
    rewrite filter_kinds.
    - unfold flush. destruct cur as [o|]; [|by rewrite app_nil_r].
      destruct Escan as (_ & _ & hi & _ & _ & _ & Hne & _).
      destruct (open_lines o); [done |]. cbn [length Nat.ltb Nat.leb].
      by rewrite map_app.
    - eapply Forall_impl; [exact Hall |].
      intros c [_ (line & indent & _ & _ & Hkind)].
      by destruct Hkind as [[-> _]|[-> _]]. }
  apply (defines_described lines (path_basename file)) in Hall.
  set (flushed := flush relPath cur (length lines) chunks) in *.
  clearbody flushed. clear Escan Hverb Hstarted cur chunks.
  destruct flushed as [|first rest].
  - cbn [length Nat.eqb andb]. destruct (truthy (trim source)).
    + split; [cbn; lia |]. split; [|split].
      * constructor; [|constructor]. split; [done |]. right. right. by repeat split.
      * intros _. constructor; [|constructor]. cbn [text chunk_type].
        change (bool_decide (_ ∈ _)) with true. cbn iota.
        unfold covered, slice. cbn [line_start line_end].
        rewrite Nat.sub_diag, Nat.sub_0_r, drop_0.
        rewrite take_ge by done. unfold lines. by rewrite join_split.
      * intros Hone. by rewrite <- (Hdefs Hone).
    + done.
  - destruct (1 <? line_start first) eqn:Estart;
      [destruct (truthy (trim (join nl (slice lines 0 (line_start first - 1)))))|];
      cbn [length Nat.eqb andb]; try done.
    apply Nat.ltb_lt in Estart. split; [|split; [|split]].
    + cbn [spaced] in Hsp. destruct Hsp as (H1 & H2 & H3 & H4).
      cbn [spaced line_start line_end]. repeat split; try lia. done.
    + constructor; [|done]. split; [done |]. right. left. by repeat split.
    + intros Hclose. constructor; [|by apply Htext]. cbn [text chunk_type].
      change (bool_decide (_ ∈ _)) with true. cbn iota.
      unfold covered. cbn [line_start line_end]. by rewrite Nat.sub_diag.
    + intros Hone. by rewrite <- (Hdefs Hone).
Qed.

(** The chunks of [chunkPython] lie within the file, in ascending
    order and without overlap: each starts after the one before it ends,
    starts no later than it ends, and none ends past the last line. *)
Theorem chunkPython_ranges (file source : string) :
  spaced 1 (length (split source)) (chunkPython projectRoot file source).
Proof. apply chunkPython_spec. Qed.

(** Every chunk of [chunkPython] is filed under the relative path of
    the file and is of one of four kinds: a class or a function, named
    by the class or [def] line it starts at (a line that is both counts
    as a class); the header before the first definition; or the whole
    file. *)
Theorem chunkPython_described (file source : string) :
  Forall (λ c, filepath c = path_relative projectRoot file
               ∧ described (split source) (path_basename file) c)
         (chunkPython projectRoot file source).
Proof. apply chunkPython_spec. Qed.

(** In a file where every function signature closes on its own line
    or on one of the 19 lines after it, the text of each class or
    function chunk is exactly the lines of its range, joined by
    newlines, and the text of the header or of the whole-file chunk is
    the trimmed text of the lines of its range. *)
Theorem chunkPython_verbatim (file source : string) :
  signatures_close (split source) →
  Forall (λ c, text c
               = if bool_decide (chunk_type c ∈ ["file_header"; "file_chunk"])
                 then trim (join nl (covered (split source) c))
                 else join nl (covered (split source) c))
         (chunkPython projectRoot file source).
Proof. apply chunkPython_spec. Qed.

Lemma scan_plain (fuel : nat) (relPath : string) (lines : list string) (i indent : nat) :
  Forall (λ line, classRegex line = None ∧ funcStartRegex line = None) lines →
  scan fuel relPath lines i None indent [] = (None, []).
Proof.
  intros Hplain. revert i. induction fuel as [|fuel IH]; intros i; [done |].
  cbn [scan]. destruct (lines !! i) as [line|] eqn:Eline; [|done].
  apply list_elem_of_lookup_2 in Eline.
  destruct (proj1 (Forall_forall _ _) Hplain line Eline) as [-> ->]. apply IH.
Qed.

(** A Python file in which no line starts a class or a function is
    one chunk, named after the file, of its whole trimmed text and all
    its lines; and no chunk at all when it is blank. *)
Theorem chunkPython_without_definitions (file source : string) :
  Forall (λ line, classRegex line = None ∧ funcStartRegex line = None) (split source) →
  chunkPython projectRoot file source
  = if truthy (trim source) then
      [ {| name := path_basename file +:+ ":full";
           chunk_type := "file_chunk";
           filepath := path_relative projectRoot file;
           line_start := 1;
           line_end := length (split source);
           text := trim source |} ]
    else [].
Proof.
  intros Hplain. unfold chunkPython, chunksOf. rewrite scan_plain by done.
  cbn [flush length Nat.eqb andb]. done.
Qed.

(** In a file where every function signature closes on its own
    line, the class and function chunks are in one-to-one correspondence
    with the lines that start a class or a function, in order: each such
    line starts one chunk, and no other line does. *)
Theorem chunkPython_definitions (file source : string) :
  one_line_signatures (split source) →
  map line_start
      (List.filter (λ c, bool_decide (chunk_type c ∈ ["class"; "function"]))
                   (chunkPython projectRoot file source))
  = definitionLines 0 (split source).
Proof. apply chunkPython_spec. Qed.

(** *** Blank files *)

Lemma trimEnd_nonblank (c : ascii) (s : string) :
  is_whitespace c = false → trimEnd (String c s) ≠ "".
Proof. intros Hc. rewrite trimEnd_cons. destruct (trimEnd s); by rewrite ?Hc. Qed.

Lemma trim_blank (s : string) : trim s = "" → all_whitespace s = true.
Proof.
  unfold trim. induction s as [|c s IH]; [done |]. cbn [trimStart all_whitespace].
  destruct (is_whitespace c) eqn:Hc; [exact IH |].
  intros Ht. by apply trimEnd_nonblank in Ht.
Qed.

Lemma split_blank (s : string) :
  all_whitespace s = true → Forall (λ line, all_whitespace line = true) (split s).
Proof.
  induction s as [|c s IH]; [by repeat constructor |]. cbn [all_whitespace split].
  intros Hs. apply andb_true_iff in Hs as [Hc Hs]. specialize (IH Hs).
  destruct (Ascii.eqb c LF); [by constructor |].
  destruct (split s) as [|l ls].
  - repeat constructor. cbn [all_whitespace]. by rewrite Hc.
  - apply Forall_cons in IH as [Hl Hls]. constructor; [|done].
    cbn [all_whitespace]. by rewrite Hc, Hl.
Qed.

Lemma spanUpTo_blank (n : nat) (p : ascii → bool) (s : string) :
  all_whitespace s = true → all_whitespace (snd (spanUpTo n p s)) = true.
Proof.
  revert s. induction n as [|n IH]; intros [|c s] Hs; try done.
  cbn [spanUpTo]. destruct (p c); [|done].
  cbn [all_whitespace] in Hs. apply andb_true_iff in Hs as [_ Hs].
  specialize (IH s Hs). by destruct (spanUpTo n p s).
Qed.

(** A keyword is not found at the start of a text of whitespace. *)
Lemma after_blank (k : ascii) (keyword s : string) :
  is_whitespace k = false → all_whitespace s = true → after (String k keyword) s = None.
Proof.
  intros Hk Hs. destruct s as [|c s]; [done |]. cbn [after].
  destruct (Ascii.eqb k c) eqn:E; [|done].
  apply Ascii.eqb_eq in E as ->. cbn [all_whitespace] in Hs. by rewrite Hk in Hs.
Qed.

Lemma blank_line_plain (line : string) :
  all_whitespace line = true → classRegex line = None ∧ funcStartRegex line = None.
Proof.
  intros Hline. split.
  - unfold classRegex. pose proof (spanUpTo_blank 4 is_space line Hline) as Hr.
    destruct (spanUpTo 4 is_space line) as [indent r]. cbn [snd] in Hr.
    by rewrite (after_blank "c" "lass" r).
  - unfold funcStartRegex. pose proof (spanUpTo_blank 8 is_space line Hline) as Hr.
    destruct (spanUpTo 8 is_space line) as [indent r]. cbn [snd] in Hr.
    rewrite (after_blank "a" "sync" r) by done.
    by rewrite (after_blank "d" "ef" r).
Qed.

(** A Python file that is empty or holds only whitespace gives no
    chunk. *)
Theorem chunkPython_blank (file source : string) :
  truthy (trim source) = false → chunkPython projectRoot file source = [].
Proof.
  intros Hblank. unfold chunkPython, chunksOf.
  rewrite scan_plain.
  - cbn [flush length Nat.eqb andb]. by rewrite Hblank.
  - apply Forall_impl with (P := λ line, all_whitespace line = true);
      [|apply blank_line_plain].
    apply split_blank, trim_blank. by destruct (trim source).
Qed.

End Facts.

(** *** Examples *)

Import Fixtures ToolFixtures.

(** The chunks of the example module: the header, the class, its method
    with the two lines of its signature, and the function. *)
Example chunkPython_module :
  map (λ c, (name c, chunk_type c, line_start c, line_end c))
      (@chunkPython posix "/p" "/p/greet.py" pythonSource)
  = [ ("greet.py:header", "file_header", 1, 2);
      ("Greeter", "class", 3, 3);
      ("greet", "function", 4, 7);
      ("main", "function", 8, 9) ].
Proof. vm_compute. reflexivity. Qed.

Lemma pythonSource_signatures_close : signatures_close (split pythonSource).
Proof.
  intros i line Hline Hfunc.
  do 9 (destruct i as [|i]; [injection Hline as <-; vm_compute in Hfunc;
                              first [done | left; reflexivity | right; reflexivity] |]).
  done.
Qed.

(** The texts of the chunks of the example module. *)
Lemma chunkPython_verbatim_module :
  Forall (λ c, text c
               = if bool_decide (chunk_type c ∈ ["file_header"; "file_chunk"])
                 then trim (join nl (covered (split pythonSource) c))
                 else join nl (covered (split pythonSource) c))
         (@chunkPython posix "/p" "/p/greet.py" pythonSource).
Proof.
  apply (@chunkPython_verbatim posix "/p" "/p/greet.py" pythonSource).
  apply pythonSource_signatures_close.
Defined.

(** A script without definitions is one chunk. *)
Lemma chunkPython_without_definitions_script :
  @chunkPython posix "/p" "/p/run.py" scriptSource
  = if truthy (trim scriptSource) then
      [ {| name := @path_basename posix "/p/run.py" +:+ ":full";
           chunk_type := "file_chunk";
           filepath := @path_relative posix "/p" "/p/run.py";
           line_start := 1;
           line_end := length (split scriptSource);
           text := trim scriptSource |} ]
    else [].
Proof.
  apply (@chunkPython_without_definitions posix "/p" "/p/run.py" scriptSource).
  repeat constructor.
Defined.

(** A module of two functions with one-line signatures, as in the test
    suite. *)
Lemma chunkPython_definitions_two :
  let source := join nl [""; "def hello(name):"; "    print(name)"; "";
                         "def goodbye():"; "    print(1)"; ""] in
  map line_start
      (List.filter (λ c, bool_decide (chunk_type c ∈ ["class"; "function"]))
                   (@chunkPython posix "/p" "/p/test.py" source))
  = definitionLines 0 (split source).
Proof.
  cbv zeta.
  apply (@chunkPython_definitions posix "/p" "/p/test.py").
  repeat constructor; vm_compute; done.
Defined.

(** A file of two blank lines. *)
Lemma chunkPython_blank_lines :
  @chunkPython posix "/p" "/p/empty.py" ("  " +:+ nl +:+ " ") = [].
Proof.
  apply (@chunkPython_blank posix "/p" "/p/empty.py"). reflexivity.
Defined.

End PythonFacts.
(** ** The batches of the embedder *)

Module BatchesFacts.
Import Js Indexer Batches.

Section Facts.
Context `{Embedder}.

Lemma mapM_embed_app (a b : list string) :
  mapM embed (a ++ b)%list
  = match mapM embed a with
    | Some xs => (λ ys, (xs ++ ys)%list) <$> mapM embed b
    | None => None
    end.
Proof.
  induction a as [|t a IH]; cbn.
  - by destruct (mapM embed b).
  - destruct (embed t) as [x|]; cbn; [|done]. rewrite IH.
    destruct (mapM embed a) as [xs|]; cbn; [|done].
    by destruct (mapM embed b).
Qed.

Lemma embedBatch_mapM (batch : list string) (results : list (list float)) :
  embedBatch batch results = (λ outputs, (results ++ outputs)%list) <$> mapM embed batch.
Proof.
  revert results. induction batch as [|t batch IH]; intros results; cbn.
  - by rewrite app_nil_r.
  - destruct (embed t) as [x|]; cbn; [|done]. rewrite IH.
    destruct (mapM embed batch) as [xs|]; cbn; [|done]. by rewrite <- app_assoc.
Qed.

Lemma batchLoop_mapM (fuel : nat) (texts : list string) (i : nat)
    (results : list (list float)) :
  length texts ≤ i + fuel →
  batchLoop fuel texts i results
  = (λ outputs, (results ++ outputs)%list) <$> mapM embed (drop i texts).
Proof.
  revert i results. induction fuel as [|fuel IH]; intros i results Hfuel; cbn [batchLoop].
  - rewrite drop_ge by lia. cbn. by rewrite app_nil_r.
  - destruct (i <? length texts) eqn:E.
    + apply Nat.ltb_lt in E.
      rewrite <- (take_drop 16 (drop i texts)) at 1.
      rewrite mapM_embed_app, drop_drop.
      unfold slice. replace (i + 16 - i) with 16 by lia.
      rewrite embedBatch_mapM.
      destruct (mapM embed (take 16 (drop i texts))) as [xs|]; cbn; [|done].
      rewrite IH by lia.
      destruct (mapM embed (drop (i + 16) texts)) as [ys|]; cbn; [|done].
      by rewrite <- app_assoc.
    + apply Nat.ltb_ge in E. rewrite drop_ge by lia. cbn. by rewrite app_nil_r.
Qed.

(** The batches of 16 do not show in the result of
    [generateEmbeddings]: it is the list of the outputs of the model on
    the texts, one for each text and in their order, and the call fails
    when the model cannot be loaded or fails on any of the texts. *)
Theorem generateEmbeddings_batches (texts : list string) :
  Batches.generateEmbeddings texts = Indexer.generateEmbeddings texts
  ∧ ∀ embeddings,
      Batches.generateEmbeddings texts = Some embeddings →
      Forall2 (λ text output, embed text = Some output) texts embeddings.
Proof.
  assert (Batches.generateEmbeddings texts = Indexer.generateEmbeddings texts) as Heq.
  { unfold Batches.generateEmbeddings, Indexer.generateEmbeddings.
    destruct model_loads; [|done].
    rewrite batchLoop_mapM by lia. rewrite drop_0.
    by destruct (mapM embed texts). }
  split; [done |]. intros embeddings. rewrite Heq. unfold Indexer.generateEmbeddings.
  destruct model_loads; [|done]. intros Hm. by apply mapM_Some in Hm.
Qed.

End Facts.
End BatchesFacts.

(** ** A snapshot just taken *)

Module SnapshotsFacts.
Import Js JsLib Indexer Searcher Snapshots DiffSpec SnapshotSpec JsFacts SearcherFacts
       SnapshotFacts.

Lemma substring_all (p : string) : substring 0 (String.length p) p = p.
Proof. induction p as [|c p IH]; [done |]. cbn. by rewrite IH. Qed.

Lemma substring_skip (s p : string) :
  substring (String.length s) (String.length p) (s +:+ p) = p.
Proof.
  induction s as [|c s IH]; [apply substring_all |].
  rewrite sapp_cons. cbn [String.length substring]. exact IH.
Qed.

Lemma endsWith_app (s p : string) : endsWith (s +:+ p) p = true.
Proof.
  unfold endsWith. rewrite slength_app.
  rewrite (proj2 (Nat.leb_le _ _)) by lia.
  replace (String.length s + String.length p - String.length p) with (String.length s)
    by lia.
  rewrite substring_skip. by rewrite String.eqb_refl.
Qed.

Lemma ltb_irrefl (x : string) : String.ltb x x = false.
Proof.
  unfold String.ltb. pose proof (String.compare_antisym x x) as Ha.
  by destruct (String.compare x x).
Qed.

Lemma ltb_asym (x y : string) : String.ltb y x = true → String.ltb x y = false.
Proof.
  unfold String.ltb. rewrite (String.compare_antisym y x).
  by destruct (String.compare x y).
Qed.

Lemma sortDefault_insert_snoc (y x : string) (sorted : list string) :
  String.ltb y x = true →
  sortDefault_insert y (sorted ++ [x]) = (sortDefault_insert y sorted ++ [x])%list.
Proof.
  intros Hlt. induction sorted as [|z sorted IH]; cbn.
  - by rewrite (ltb_asym x y Hlt).
  - destruct (String.ltb z y); [by rewrite IH | done].
Qed.

(** A name greater than all the others is sorted last. *)
Lemma sortDefault_snoc (x : string) (l : list string) :
  Forall (λ y, String.ltb y x = true) l →
  sortDefault (l ++ [x]) = (sortDefault l ++ [x])%list.
Proof.
  induction 1 as [|y l Hy _ IH]; [done |].
  cbn [app sortDefault foldr]. fold (sortDefault (l ++ [x])). fold (sortDefault l).
  rewrite IH. by apply sortDefault_insert_snoc.
Qed.

Lemma written_new (name content : string) (listing : list (string * string)) :
  name ∉ map fst listing →
  written name content listing = (listing ++ [(name, content)])%list.
Proof.
  induction listing as [|[n c] listing IH]; intros Hnew; [done |].
  cbn [written app]. cbn [map fst] in Hnew.
  apply not_elem_of_cons in Hnew as [Hne Hnew].
  rewrite (proj2 (String.eqb_neq n name)) by done. by rewrite IH.
Qed.

Lemma contentOf_new {A} (name : string) (content : A) (listing : list (string * A)) :
  name ∉ map fst listing →
  contentOf (listing ++ [(name, content)]) name = Some content.
Proof.
  unfold contentOf. induction listing as [|[n c] listing IH]; intros Hnew.
  - cbn. by rewrite String.eqb_refl.
  - cbn [map fst] in Hnew. apply not_elem_of_cons in Hnew as [Hne Hnew].
    cbn [app List.find fst]. rewrite (proj2 (String.eqb_neq n name)) by done.
    by apply IH.
Qed.

Lemma simpleDiff_same (lines : list string) (oldLabel newLabel : string) :
  simpleDiff lines lines oldLabel newLabel = ["--- " +:+ oldLabel; "+++ " +:+ newLabel].
Proof.
  unfold simpleDiff. cbn [app]. do 2 f_equal.
  apply flat_map_nil. apply Forall_forall. intros i _.
  rewrite diffStep_aligned. by apply aligned_nil.
Qed.

Section Facts.
Context `{NodePath}.

(** [saveSnapshot] files the live content under a name made of the
    time; when that name is greater than the names of the snapshots
    already there, as a later time gives, the new snapshot becomes
    number 0, the others keep their order behind it, and [fileDiff] of
    number 0 against the live file reports nothing added and nothing
    deleted. *)
Theorem snapshot_matches_live (root filepath_ now content : string)
    (snapshotDir : option (list (string * string))) :
  truthy root = true →
  Forall (λ n, endsWith n ".snapshot" = true
               → String.ltb n (dashed now +:+ ".snapshot") = true)
         (map fst (default [] snapshotDir)) →
  let after := snd (saveSnapshot root filepath_ now (Some content) snapshotDir) in
  ordered (map fst after)
  = (dashed now +:+ ".snapshot") :: ordered (map fst (default [] snapshotDir))
  ∧ fileDiff root filepath_ (Some after) (Some content) 0 (-1)
    = Resolved
        {| diff_file := filepath_;
           additions := 0;
           deletions := 0;
           diff_text :=
             "--- " +:+ (dashed now +:+ ".snapshot") +:+ nl
             +:+ "+++ " +:+ (filepath_ +:+ " (live)") |}.
Proof.
  intros Hroot Hlater. cbv zeta. unfold saveSnapshot. cbn [snd].
  set (name := dashed now +:+ ".snapshot") in *.
  set (listing := default [] snapshotDir) in *.
  assert (endsWith name ".snapshot" = true) as Hends by apply endsWith_app.
  assert (name ∉ map fst listing) as Hnew.
  { intros Hin. pose proof (proj1 (Forall_forall _ _) Hlater name Hin Hends) as Hlt.
    by rewrite ltb_irrefl in Hlt. }
  rewrite (written_new name content listing Hnew).
  assert (ordered (map fst (listing ++ [(name, content)])) = name :: ordered (map fst listing))
    as Hord.
  { unfold ordered. rewrite map_app, List.filter_app. cbn [map fst List.filter].
    rewrite Hends. rewrite sortDefault_snoc.
    - by rewrite rev_app_distr.
    - apply Forall_forall. intros n Hn. apply list_elem_of_In, filter_In in Hn as [Hn He].
      apply list_elem_of_In in Hn. by apply (proj1 (Forall_forall _ _) Hlater n). }
  split; [done |].
  unfold fileDiff. rewrite Hroot. cbn [negb].
  fold (ordered (map fst (listing ++ [(name, content)]))). rewrite Hord.
  cbn [length Nat.eqb]. rewrite (proj2 (Z.leb_gt _ _)) by lia.
  cbn [at_index Z.ltb Z.compare].
  change ((name :: ordered (map fst listing)) !! Z.to_nat 0) with (Some name).
  cbn [mbind option_bind].
  fold (contentOf (listing ++ [(name, content)]) name).
  rewrite (contentOf_new name content listing Hnew).
  cbn [fmap option_fmap option_map Z.eqb Pos.eqb]. rewrite simpleDiff_same.
  reflexivity.
Qed.

End Facts.

Import Fixtures ToolFixtures.

(** A third snapshot of the example directory, taken on the next day. *)
Lemma snapshot_matches_live_third :
  let after :=
    snd (@saveSnapshot posix "/p" "a.txt" "2026-01-03T10:00:00.000Z" (Some "x")
           (Some snapshotContents)) in
  ordered (map fst after)
  = (dashed "2026-01-03T10:00:00.000Z" +:+ ".snapshot")
    :: ordered (map fst (default [] (Some snapshotContents)))
  ∧ fileDiff "/p" "a.txt" (Some after) (Some "x") 0 (-1)
    = Resolved
        {| diff_file := "a.txt";
           additions := 0;
           deletions := 0;
           diff_text :=
             "--- " +:+ (dashed "2026-01-03T10:00:00.000Z" +:+ ".snapshot") +:+ nl
             +:+ "+++ " +:+ ("a.txt" +:+ " (live)") |}.
Proof.
  apply (@snapshot_matches_live posix "/p" "a.txt" "2026-01-03T10:00:00.000Z" "x"
           (Some snapshotContents)).
  - reflexivity.
  - repeat constructor; vm_compute; done.
Defined.

End SnapshotsFacts.
(** ** The chunk router with the Python chunker, and the files it feeds
       to the index *)

Module RouterFacts.
Import Js JsLib Chunker Vec Indexer Python PythonSpec ChunkSpec.
Import JsFacts ChunkerFacts IndexerFacts.

(** *** The relative path only labels the chunks *)

Lemma flush_filed (relPath : string) (cur : option Open) (lineEnd : nat)
    (chunks : list Chunk) :
  flush relPath cur lineEnd (map (filedUnder relPath) chunks)
  = map (filedUnder relPath) (flush "" cur lineEnd chunks).
Proof.
  destruct cur as [o|]; [|done]. cbn [flush].
  destruct (0 <? length (open_lines o)); [|done].
  by rewrite map_app.
Qed.

Lemma scan_filed (fuel : nat) (relPath : string) (lines : list string) (i : nat)
    (cur : option Open) (indent : nat) (chunks : list Chunk) :
  scan fuel relPath lines i cur indent (map (filedUnder relPath) chunks)
  = (fst (scan fuel "" lines i cur indent chunks),
     map (filedUnder relPath) (snd (scan fuel "" lines i cur indent chunks))).
Proof.
  revert i cur indent chunks.
  induction fuel as [|fuel IH]; intros i cur indent chunks; [done |].
  cbn [scan]. destruct (lines !! i) as [line|]; [|done].
  destruct (match classRegex line with
            | Some m => Some m
            | None => funcStartRegex line
            end) as [[ind nm]|].
  - rewrite flush_filed.
    destruct (bool_decide (funcStartRegex line ≠ None) && negb (closesSignature line));
      [destruct (signature _ _ _ _ _) as [o j] |]; apply IH.
  - destruct cur as [o|]; [|apply IH].
    destruct (String.eqb (trim line) "" || (indent <? lineIndent line)); [apply IH |].
    replace (map (filedUnder relPath) chunks ++ [close relPath o i])%list
      with (map (filedUnder relPath) (chunks ++ [close "" o i])) by by rewrite map_app.
    apply IH.
Qed.

Lemma chunksOf_filed (base relPath source : string) :
  chunksOf base relPath source = map (filedUnder relPath) (chunksOf base "" source).
Proof.
  unfold chunksOf.
  change (@nil Chunk) with (map (filedUnder relPath) []) at 1.
  rewrite scan_filed.
  destruct (scan (length (split source)) "" (split source) 0 None 0 []) as [cur chunks].
  cbn [fst snd]. rewrite flush_filed.
  destruct (flush "" cur (length (split source)) chunks) as [|first rest].
  - cbn [map length Nat.eqb andb]. by destruct (truthy (trim source)).
  - cbn [map filedUnder line_start].
    destruct (1 <? line_start first).
    + destruct (truthy (trim (join nl (slice (split source) 0 (line_start first - 1))))); done.
    + done.
Qed.

(** With [regexParsers], the router's Python branch is [chunkPython]. *)
Lemma chunkPython_regex `{NodePath} (acorn : string → option (list Declaration))
    (projectRoot file source : string) :
  @Chunker.chunkPython _ projectRoot (regexParsers acorn) file source
  = Python.chunkPython projectRoot file source.
Proof.
  unfold Chunker.chunkPython, Python.chunkPython, regexParsers, python_blocks.
  rewrite (chunksOf_filed _ (path_relative projectRoot file)).
  by rewrite map_map.
Qed.

(** *** No file with text in it goes without a chunk *)

Lemma chunksOf_nonblank (base relPath source : string) :
  truthy (trim source) = true → chunksOf base relPath source ≠ [].
Proof.
  intros Ht. unfold chunksOf.
  destruct (scan _ _ _ _ _ _ _) as [cur chunks].
  match goal with |- (if (length ?x =? 0) && _ then _ else _) ≠ _ => destruct x as [|c cs] end.
  - cbn [length Nat.eqb andb]. by rewrite Ht.
  - done.
Qed.

Section Router.
Context `{NodePath}.
Variable projectRoot : string.

Lemma chunkFixedSize_nonblank (file source : string) :
  truthy (trim source) = true → chunkFixedSize projectRoot file source ≠ [].
Proof.
  intros Ht Hnone.
  destruct (chunkFixedSize_spec projectRoot file source Ht) as [Htiles _].
  rewrite Hnone in Htiles. cbn [tiles] in Htiles.
  pose proof (split_nonempty source). destruct (split source); [done |].
  cbn [length] in Htiles. lia.
Qed.

(** A file that holds more than whitespace gives at least one chunk,
    whichever chunker its extension selects and whatever the JavaScript
    parser finds in it. *)
Theorem chunkFile_nonblank (acorn : string → option (list Declaration))
    (file source : string) :
  truthy (trim source) = true →
  @chunkFile _ projectRoot (regexParsers acorn) file source ≠ [].
Proof.
  intros Ht. unfold chunkFile.
  destruct (String.eqb _ ".py"); [|destruct (bool_decide _)].
  - rewrite chunkPython_regex. by apply chunksOf_nonblank.
  - unfold chunkJavaScript. destruct (acorn_walk source) as [decls|];
      [|by apply chunkFixedSize_nonblank].
    destruct decls as [|d decls]; [|done].
    cbn [map length Nat.eqb andb]. rewrite Ht. by apply chunkFixedSize_nonblank.
  - by apply chunkFixedSize_nonblank.
Qed.

End Router.

(** *** What the file loop collects *)

Section Collect.
Context `{NodePath, Parsers, Embedder, Sha256}.
Variable root : string.

Notation rel := (λ f : File, path_relative root (fpath f)).

Lemma scan_chunks_app (force : bool) (files : list File) (acc : Scan) :
  ∃ more,
    allChunks (fold_left (scanFile root force) files acc) = (allChunks acc ++ more)%list
    ∧ Forall (λ c, filepath c ∈ map rel files) more.
Proof.
  revert acc. induction files as [|f files IH]; intros acc.
  - exists []. by rewrite app_nil_r.
  - cbn [fold_left]. destruct (IH (scanFile root force acc f)) as (more & -> & Hmore).
    assert (∃ own, allChunks (scanFile root force acc f) = (allChunks acc ++ own)%list
                   ∧ Forall (λ c, filepath c = rel f) own) as (own & -> & Hown).
    { unfold scanFile.
      destruct (negb force && bool_decide _); [exists []; by rewrite app_nil_r |].
      destruct (source f) as [src|]; [|exists []; by rewrite app_nil_r].
      eexists. split; [done |]. apply chunkFile_filepath. }
    exists (own ++ more)%list. split; [by rewrite app_assoc |].
    apply Forall_app. split.
    + eapply Forall_impl; [exact Hown |]. intros c ->. cbn [map]. apply list_elem_of_here.
    + eapply Forall_impl; [exact Hmore |]. intros c Hc. cbn [map]. by apply list_elem_of_further.
Qed.

(** The chunks collected by the loop, around those of one changed file. *)
Lemma scan_split (h : gmap string string) (files : list File) (f : File) (src : string) :
  NoDup (map rel files) →
  f ∈ files →
  source f = Some src →
  h !! rel f ≠ Some (computeHash f) →
  ∃ before after,
    allChunks (scanFiles root false h files)
    = (before ++ chunkFile root (fpath f) src ++ after)%list
    ∧ Forall (λ c, filepath c ≠ rel f) before
    ∧ Forall (λ c, filepath c ≠ rel f) after.
Proof.
  intros Hnd Hf Hsrc Hh.
  apply list_elem_of_split in Hf as (pre & post & ->).
  rewrite map_app in Hnd. cbn [map] in Hnd.
  apply NoDup_app in Hnd as (_ & Hpre & Hpost).
  apply NoDup_cons in Hpost as [Hpost _].
  assert (rel f ∉ map rel pre) as Hpre'.
  { intros Hin. apply (Hpre _ Hin), list_elem_of_here. }
  unfold scanFiles. rewrite fold_left_app. cbn [fold_left].
  set (acc0 := {| allChunks := []; byExtension := ∅; skipped := 0; hashes := h |}).
  destruct (scan_chunks_app false pre acc0) as (before & Hbefore & Hb).
  set (acc1 := fold_left (scanFile root false) pre acc0) in *.
  assert (allChunks (scanFile root false acc1 f)
          = (before ++ chunkFile root (fpath f) src)%list) as Hown.
  { unfold scanFile. cbn [negb andb].
    rewrite bool_decide_eq_false_2.
    - rewrite Hsrc. cbn [allChunks]. by rewrite Hbefore.
    - unfold acc1. by rewrite scan_hashes_other. }
  destruct (scan_chunks_app false post (scanFile root false acc1 f)) as (after & -> & Ha).
  exists before, after. rewrite Hown, <- app_assoc. split; [done |]. split.
  - eapply Forall_impl; [exact Hb |]. intros c Hc Heq. apply Hpre'. by rewrite <- Heq.
  - eapply Forall_impl; [exact Ha |]. intros c Hc Heq. apply Hpost. by rewrite <- Heq.
Qed.

Lemma zip_other (p : string) (cs : list Chunk) (es : list (list float)) :
  Forall (λ c, filepath c ≠ p) cs →
  filter (λ v, filepath (payload v) = p) (zip_with makeEntry cs es) = [].
Proof.
  intros Hcs. apply filter_none. revert es.
  induction Hcs as [|c cs Hc Hcs IH]; intros [|e es]; try constructor; [done | apply IH].
Qed.

End Collect.

Section Replace.
Context `{NodePath, Parsers, Embedder, Sha256}.

(** A run without [force] replaces the entries of a changed file that
    gives a chunk by those of its chunks now. *)
Lemma indexProject_replaces (files : list File) (s s1 : System) (r : IndexResult)
    (f : File) (src : string) :
  let p := path_relative (projectRoot s) (fpath f) in
  let chunks := chunkFile (projectRoot s) (fpath f) src in
  NoDup (map (λ f, path_relative (projectRoot s) (fpath f)) files) →
  f ∈ files →
  source f = Some src →
  chunks ≠ [] →
  hashMap (store s) !! p ≠ Some (computeHash f) →
  indexProject false files s = (Resolved r, s1) →
  ∃ embeddings,
    generateEmbeddings (map embedText chunks) = Some embeddings
    ∧ filter (λ v, filepath (payload v) = p) (vectors (store s1))
      = zip_with makeEntry chunks embeddings.
Proof.
  intros p chunks Hnd Hf Hsrc Hchunks Hh Hrun.
  destruct (scan_split (projectRoot s) _ _ _ _ Hnd Hf Hsrc Hh)
    as (before & after & Hall & Hb & Ha).
  fold chunks p in Hall, Hb, Ha.
  assert (Forall (λ c, filepath c = p) chunks) as Hown by apply chunkFile_filepath.
  destruct (indexProject_store _ _ _ _ Hrun) as [[Hnone _]|(embeddings & Hemb & Hv)].
  { rewrite Hall in Hnone. apply app_eq_nil in Hnone as [_ Hnone].
    by apply app_eq_nil in Hnone as [Hnone _]. }
  rewrite Hall in Hemb, Hv.
  unfold generateEmbeddings in Hemb |- *.
  destruct model_loads; [|done].
  apply mapM_Some in Hemb. rewrite !map_app in Hemb.
  apply Forall2_app_inv_l in Hemb as (eb & rest & Heb & Hrest & ->).
  apply Forall2_app_inv_l in Hrest as (ec & ea & Hec & Hea & ->).
  exists ec. split; [by apply mapM_Some |].
  apply Forall2_length in Heb, Hec. rewrite length_map in Heb, Hec.
  rewrite Hv, !zip_with_app, !filter_app by done.
  rewrite (zip_other p before), (zip_other p after) by done.
  rewrite app_nil_r.
  rewrite filter_none.
  - cbn [app]. apply filter_all. by apply makeEntry_filepath.
  - apply Forall_forall. intros v Hin Hvp.
    apply list_elem_of_filter in Hin as [Hout _]. apply Hout.
    rewrite Hvp, !map_app. apply elem_of_app. right. apply elem_of_app. left.
    destruct chunks as [|c cs]; [done |].
    apply Forall_cons in Hown as [Hc _]. cbn [map]. rewrite Hc. apply list_elem_of_here.
Qed.

End Replace.

Section Changed.
Context `{NodePath, Embedder, Sha256}.
Variable acorn : string → option (list Declaration).

(** Indexing a project without [force], when the run resolves and no
    two files share a relative path: a file that can be read, holds
    more than whitespace and whose fingerprint is not the stored one has
    afterwards, under its relative path, exactly the entries of its
    chunks now, in their order, each with the embedding of its text. *)
Theorem indexProject_replaces_changed (files : list File) (s s1 : System)
    (r : IndexResult) (f : File) (src : string) :
  let p := path_relative (projectRoot s) (fpath f) in
  let chunks := @chunkFile _ (projectRoot s) (regexParsers acorn) (fpath f) src in
  NoDup (map (λ f, path_relative (projectRoot s) (fpath f)) files) →
  f ∈ files →
  source f = Some src →
  truthy (trim src) = true →
  hashMap (store s) !! p ≠ Some (computeHash f) →
  @indexProject _ (regexParsers acorn) _ _ false files s = (Resolved r, s1) →
  ∃ embeddings,
    generateEmbeddings (map embedText chunks) = Some embeddings
    ∧ filter (λ v, filepath (payload v) = p) (vectors (store s1))
      = zip_with makeEntry chunks embeddings.
Proof.
  intros p chunks Hnd Hf Hsrc Ht Hh Hrun.
  apply (@indexProject_replaces _ (regexParsers acorn) _ _ files s s1 r f src); try done.
  by apply chunkFile_nonblank.
Qed.

End Changed.

(** *** Examples on the project [/p] *)

Import Fixtures ProjectFixtures ToolFixtures.

(** The Python module of [/p] gives chunks. *)
Lemma chunkFile_nonblank_greet :
  @chunkFile posix "/p" (regexParsers noAcorn) "/p/greet.py" pythonSource ≠ [].
Proof.
  apply (@chunkFile_nonblank posix "/p" noAcorn "/p/greet.py" pythonSource).
  reflexivity.
Defined.

(** [greet.py] rewritten after [/p] was indexed: the four entries of the
    old module make way for the one of the new. *)
Lemma indexProject_replaces_changed_greet :
  let files := [greetRewritten; textFile "/p/run.js" scriptSource;
                textFile "/p/b.txt" "world"] in
  let after :=
    snd (@indexProject posix (regexParsers noAcorn) unitEmbedder plainHash false files
           mixedIndexed) in
  let chunks :=
    @chunkFile posix "/p" (regexParsers noAcorn) "/p/greet.py"
      ("def main():" +:+ nl +:+ "    pass") in
  ∃ embeddings,
    @generateEmbeddings unitEmbedder (map embedText chunks) = Some embeddings
    ∧ filter (λ v, filepath (payload v) = "greet.py") (vectors (store after))
      = zip_with makeEntry chunks embeddings.
Proof.
  cbv zeta.
  refine (@indexProject_replaces_changed posix unitEmbedder plainHash noAcorn
            [greetRewritten; textFile "/p/run.js" scriptSource; textFile "/p/b.txt" "world"]
            mixedIndexed _
            {| status := "indexed"; total_files := 3; new_chunks := 1; total_chunks := 3;
               result_skipped := 2; by_extension := {[".py" := 1]} |}
            greetRewritten ("def main():" +:+ nl +:+ "    pass") _ _ _ _ _ _).
  - apply (bool_decide_unpack _). vm_compute. exact I.
  - apply list_elem_of_here.
  - reflexivity.
  - reflexivity.
  - vm_compute. discriminate.
  - vm_compute. reflexivity.
Defined.

End RouterFacts.
